(** * shufflr.sources: on-disk store, in-memory cache and label batches

    A shallow embedding of [shufflr/sources.py]: the classes [File]
    (an [h5py.File] with three derived tables), [Cache] (a [dict] filled
    from a source), [LabelBatch] (an [OrderedDict]) and [PairedBatch].

    Python objects are mutable and exceptions leave the mutations made so
    far in place, so every method is a function from the object's state to
    a result and the state it leaves behind. *)

From Stdlib Require Import ZArith QArith Ascii String List Lia Sorted.
From stdpp Require Import base gmap strings list fin_maps.

Local Open Scope string_scope.
Local Open Scope list_scope.
Local Open Scope Z_scope.

(** ** Exceptions and the state-and-exception monad *)

(** The Python exception classes the module can raise.  The failure names
    of the design notes map onto them: NotFound is the [AssertionError] of
    [File.get]/[File.remove] and the [KeyError] of [del self[key]] on a
    dict, InvalidKey the [AssertionError] of [File.add], UnknownKind the
    [ValueError] of [create_tables], SourceExhausted is [StopIteration],
    PairingInfeasible the [IndexError] of [choice] on an empty list. *)
Inductive exn :=
| AssertionError | KeyError | ValueError | TypeError
| IndexError | StopIteration | RuntimeError | AttributeError.

Inductive result (A : Type) :=
| Ok (a : A)
| Raise (e : exn).
Arguments Ok {A} a.
Arguments Raise {A} e.

Definition M (S A : Type) : Type := S -> result A * S.

Definition ret {S A} (a : A) : M S A := fun s => (Ok a, s).
Definition raise {S A} (e : exn) : M S A := fun s => (Raise e, s).
Definition bind {S A B} (m : M S A) (k : A -> M S B) : M S B :=
  fun s => match m s with
           | (Ok a, s') => k a s'
           | (Raise e, s') => (Raise e, s')
           end.
Definition gets {S A} (f : S -> A) : M S A := fun s => (Ok (f s), s).
Definition modify {S} (f : S -> S) : M S unit := fun s => (Ok tt, f s).
Definition lift {S A} (r : result A) : M S A := fun s => (r, s).
(** [assert c] *)
Definition assert_ {S} (c : bool) : M S unit :=
  if c then ret tt else raise AssertionError.
(** [if c: body] *)
Definition when {S} (c : bool) (body : M S unit) : M S unit :=
  if c then body else ret tt.
(** Run a computation with a local variable next to the state; its final
    value is the result. *)
Definition with_local {S L} (init : L) (m : M (S * L) unit) : M S L :=
  fun s => let '(r, (s', l)) := m (s, init) in
           (match r with Ok _ => Ok l | Raise e => Raise e end, s').
(** Run a computation on a component of the state. *)
Definition zoom {S T A} (proj : S -> T) (inj : T -> S -> S) (m : M T A) : M S A :=
  fun s => let '(r, t) := m (proj s) in (r, inj t s).

Declare Scope py_scope.
Delimit Scope py_scope with py.
Notation "x <- c1 ;; c2" := (bind c1 (fun x => c2))
  (at level 100, c1 at next level, right associativity) : py_scope.
Notation "c1 ;; c2" := (bind c1 (fun _ => c2))
  (at level 100, right associativity) : py_scope.
Local Open Scope py_scope.

(** [for x in l: body x] *)
Fixpoint for_each {S A} (l : list A) (body : A -> M S unit) : M S unit :=
  match l with
  | [] => ret tt
  | x :: l' => body x ;; for_each l' body
  end.

(** ** Data *)

(** Attribute values of a datapoint, as far as [File.add] tells them
    apart: [int], [float] and [np.ndarray] are written whatever their
    truth value, anything else only when it is truthy. *)
Inductive attr_value :=
| AInt (z : Z)
| AFloat (q : Q)
| AArray (a : list Z)
| AStr (s : string)
| AList (l : list string)
| ANone.

(** [isinstance(v, (int, float, np.ndarray))] *)
Definition is_numeric (v : attr_value) : bool :=
  match v with
  | AInt _ | AFloat _ | AArray _ => true
  | _ => false
  end.

(** Python truth value of the remaining attribute values. *)
Definition truthy (v : attr_value) : bool :=
  match v with
  | AInt z => negb (Z.eqb z 0)
  | AFloat q => negb (Qeq_bool q 0)
  | AArray a => negb (match a with [] => true | _ => false end)
  | AStr s => negb (String.eqb s "")
  | AList l => negb (match l with [] => true | _ => false end)
  | ANone => false
  end.

(** What h5py can store as an attribute: an integer has to fit one of
    the 64-bit integer types ([int64], or [uint64] from [2^63] on);
    assigning a larger one raises [TypeError]. *)
Definition h5_writable (v : attr_value) : bool :=
  match v with
  | AInt z => (Z.leb (- 2 ^ 63) z && Z.ltb z (2 ^ 64))%bool
  | _ => true
  end.

(** A label of an item: one label, or one label per element. *)
Inductive label_val :=
| LOne (l : string)
| LSeq (ls : list string).

#[global] Instance label_val_eq_dec : EqDecision label_val.
Proof. solve_decision. Defined.

(** Rows of the index table: [(key_index, label_code)] for a Sample,
    [(key_index, subindex, label_code)] for a Sequence. *)
Inductive row :=
| Row2 (key_index code : Z)
| Row3 (key_index subindex code : Z).

Definition row_key_index (r : row) : Z :=
  match r with Row2 k _ => k | Row3 k _ _ => k end.
Definition row_code (r : row) : Z :=
  match r with Row2 _ c => c | Row3 _ _ c => c end.

Definition is_Row2 (r : row) : bool :=
  match r with Row2 _ _ => true | Row3 _ _ _ => false end.
Definition is_Row3 (r : row) : bool :=
  match r with Row2 _ _ => false | Row3 _ _ _ => true end.

(** What a dataset holds: the numeric payload of an item, or one of the
    three tables ([np.asarray] of rows, of keys, of [(label, code)]
    pairs). *)
Inductive ndarray :=
| NdNum (a : list Z)
| NdIndex (rows : list row)
| NdKeys (ks : list string)
| NdEnum (kv : list (string * Z)).

(** The rows all have two entries, or all have three. *)
Definition one_width (rows : list row) : bool :=
  (forallb is_Row2 rows || forallb is_Row3 rows)%bool.

(** [np.asarray(index_list, dtype=int)]: rows of one length make a
    two-dimensional array of integers; rows of two and of three entries
    cannot be set into one, and numpy raises [ValueError]. *)
Definition asarray_int (rows : list row) : result ndarray :=
  if one_width rows then Ok (NdIndex rows)
  else Raise ValueError.

(** Anything with the interface of a dataset: [name], [value], [attrs]. *)
Record Dataset := mkDataset {
  name : string;
  value : ndarray;
  attrs : gmap string attr_value
}.

(** An object in the file. *)
Inductive h5obj :=
| H5Group
| H5Dataset (d : Dataset).

(** [isinstance(obj, h5py.Dataset)] *)
Definition is_dataset (o : h5obj) : bool :=
  match o with H5Dataset _ => true | H5Group => false end.

(** ** The collaborators that are not part of this module

    [keyutils], [ReservedKeys], [utils] and [core] are imported by
    [sources.py]; the module only calls them.  They are taken as
    parameters: [dtype] and [dlabels] are the [type] and [labels]
    properties of [core.Dataset(obj)] ([labels] as the items of the
    mapping, in the order [values()] lists them). *)
Class Collaborators := {
  cleanse : string -> string;
  is_keylike : string -> bool;
  key_to_index : string -> Z;
  KEY_MANIFEST : string;
  LABEL_ENUM : string;
  INDEX_TABLE : string;
  partition_attrs : gmap string attr_value -> gmap string attr_value;
  dtype : Dataset -> string;
  dlabels : Dataset -> list (string * label_val);
  Factory : h5obj -> result Dataset
}.

(** ** Association lists keyed by name (the file's links, an OrderedDict) *)

Fixpoint assoc {A} (k : string) (l : list (string * A)) : option A :=
  match l with
  | [] => None
  | (k', a) :: l' => if String.eqb k k' then Some a else assoc k l'
  end.

Definition mem {A} (k : string) (l : list (string * A)) : bool :=
  match assoc k l with Some _ => true | None => false end.

(** [l[k] = v] on an OrderedDict: a known key keeps its place. *)
Fixpoint od_set {A} (k : string) (v : A) (l : list (string * A)) : list (string * A) :=
  match l with
  | [] => [(k, v)]
  | (k', a) :: l' => if String.eqb k k' then (k, v) :: l' else (k', a) :: od_set k v l'
  end.

(** ** Names of links in the file

    The name of a link is a path, its components separated by [/]: the
    link [g/a] is the member [a] of the group [g].  Names are compared as
    they are written; the file is followed for names in the normal form
    of HDF5 (no leading, trailing or doubled slash), the form in which
    [visititems] hands names to its callback. *)

(** The string [s] starts with [p]. *)
Fixpoint starts_with (p s : string) : bool :=
  match p with
  | EmptyString => true
  | String c p' =>
      match s with
      | EmptyString => false
      | String c' s' => (Ascii.eqb c c' && starts_with p' s')%bool
      end
  end.

(** The link [n] lies below the group [p]: its name starts with [p/]. *)
Definition below (p n : string) : bool := starts_with (p +:+ "/") n.

Definition at_or_below (p n : string) : bool :=
  (String.eqb n p || below p n)%bool.

(** The groups on the way to the link [n], the outermost first: the part
    of the name before each [/]. *)
Fixpoint ancestors_from (done rest : string) : list string :=
  match rest with
  | EmptyString => []
  | String c rest' =>
      let tail := ancestors_from (done +:+ String c EmptyString) rest' in
      if Ascii.eqb c "/"%char then done :: tail else tail
  end.

Definition ancestors (n : string) : list string := ancestors_from "" n.

(** The components of a name. *)
Fixpoint components_from (cur rest : string) : list string :=
  match rest with
  | EmptyString => [cur]
  | String c rest' =>
      if Ascii.eqb c "/"%char then cur :: components_from "" rest'
      else components_from (cur +:+ String c EmptyString) rest'
  end.

Definition components (n : string) : list string := components_from "" n.

Fixpoint path_lt (p q : list string) : bool :=
  match p, q with
  | [], [] => false
  | [], _ :: _ => true
  | _ :: _, [] => false
  | a :: p', b :: q' =>
      match String.compare a b with
      | Lt => true
      | Gt => false
      | Eq => path_lt p' q'
      end
  end.

(** The order in which HDF5 walks the links of a file: the members of a
    group by name, a group before its members. *)
Definition walks_before (n1 n2 : string) : bool :=
  path_lt (components n1) (components n2).

(** A new link takes its place in the walk. *)
Fixpoint insert_link {A} (e : string * A) (l : list (string * A)) : list (string * A) :=
  match l with
  | [] => [e]
  | e' :: l' =>
      if walks_before (fst e) (fst e') then e :: e' :: l'
      else e' :: insert_link e l'
  end.

(** [del group[k]]: the link [k] goes, and with a group all that is
    below it. *)
Definition unlink {A} (k : string) (l : list (string * A)) : list (string * A) :=
  List.filter (fun e => negb (at_or_below k (fst e))) l.

(** ** Label enumeration, shared by both [create_tables] *)

(** The one-character strings a Python [for] yields from a string. *)
Fixpoint chars (s : string) : list string :=
  match s with
  | EmptyString => []
  | String c s' => String c EmptyString :: chars s'
  end.

(** The state the scan of [create_tables] updates: [self._label_enum] and
    the local [index_list]. *)
Definition scan_state : Type := gmap string Z * list row.

(** [[
    if not label in self._label_enum:
        self._label_enum[label] = len(self._label_enum)
    index_list.append(mk_row(self._label_enum[label]))
    ]] *)
Definition enum_label (mk_row : Z -> row) (label : string) : M scan_state unit :=
  fun '(enum, index_list) =>
    let enum' := match enum !! label with
                 | Some _ => enum
                 | None => <[label := Z.of_nat (size enum)]> enum
                 end in
    match enum' !! label with
    | Some code => (Ok tt, (enum', index_list ++ [mk_row code]))
    | None => (Raise KeyError, (enum', index_list))
    end.

(** The Sample branch: one row per label; a label that is a sequence is
    not hashable. *)
Definition scan_sample (key_index : Z) (labels : list label_val) : M scan_state unit :=
  for_each labels (fun label =>
    match label with
    | LOne l => enum_label (Row2 key_index) l
    | LSeq _ => raise TypeError
    end).

(** [enumerate(label_seq)], the subindex counted from [n]. *)
Fixpoint scan_label_seq (key_index : Z) (n : nat) (label_seq : list string)
  : M scan_state unit :=
  match label_seq with
  | [] => ret tt
  | label :: rest =>
      enum_label (Row3 key_index (Z.of_nat n)) label ;;
      scan_label_seq key_index (S n) rest
  end.

(** The Sequence branch: one row per element of each label sequence. *)
Definition scan_sequence (key_index : Z) (labels : list label_val) : M scan_state unit :=
  for_each labels (fun label_seq =>
    match label_seq with
    | LSeq ls => scan_label_seq key_index 0 ls
    | LOne s => scan_label_seq key_index 0 (chars s)
    end).

(** The dispatch on the item's type that both scans share. *)
Definition scan_item `{Collaborators} (key : string) (d : Dataset) : M scan_state unit :=
  if String.eqb (dtype d) "Sample" then
    scan_sample (key_to_index key) (map snd (dlabels d))
  else if String.eqb (dtype d) "Sequence" then
    scan_sequence (key_to_index key) (map snd (dlabels d))
  else raise ValueError.

(** ** class File(h5py.File) *)

Module File.

(** The links of the file in the order [visititems] walks them, and the
    three local caches. *)
Record t := mk {
  disk : list (string * h5obj);
  _keys : list string;
  _label_enum : gmap string Z;
  _index_table : option ndarray
}.

Definition set_disk (d : list (string * h5obj)) (f : t) : t :=
  mk d (_keys f) (_label_enum f) (_index_table f).
Definition set_keys (ks : list string) (f : t) : t :=
  mk (disk f) ks (_label_enum f) (_index_table f).
Definition set_label_enum (e : gmap string Z) (f : t) : t :=
  mk (disk f) (_keys f) e (_index_table f).
Definition set_index_table (it : option ndarray) (f : t) : t :=
  mk (disk f) (_keys f) (_label_enum f) it.

(** A file just created: no links, [__init__] has cleared the caches. *)
Definition empty : t := mk [] [] ∅ None.

(** [key in self] *)
Definition contains (key : string) : M t bool :=
  gets (fun f => mem key (disk f)).

(** [self[key].value]; [KeyError] without such a link. *)
Definition getitem_value (key : string) : M t ndarray :=
  fun f => match assoc key (disk f) with
           | Some (H5Dataset d) => (Ok (value d), f)
           | Some H5Group => (Raise AttributeError, f)
           | None => (Raise KeyError, f)
           end.

(** A dataset stands where a group is needed on the way to a link. *)
Definition is_dataset_at (d : list (string * h5obj)) (p : string) : bool :=
  match assoc p d with
  | Some (H5Dataset _) => true
  | _ => false
  end.

(** The groups [ps] made where they are missing. *)
Definition with_groups (ps : list string) (d : list (string * h5obj))
  : list (string * h5obj) :=
  fold_left (fun d p => if mem p d then d else insert_link (p, H5Group) d) ps d.

(** The links once the dataset [ds] is linked at [nm]. *)
Definition link_dataset (nm : string) (ds : Dataset) (d : list (string * h5obj))
  : list (string * h5obj) :=
  insert_link (nm, H5Dataset ds) (with_groups (ancestors nm) d).

(** h5py's [create_dataset]: the link cannot be made when the name is
    taken or when a dataset stands on the way to it ([RuntimeError] is
    what h5py 2 makes of the error of HDF5); the groups on the way are
    made where they are missing; the new dataset has no attributes
    yet. *)
Definition create_dataset (nm : string) (data : ndarray) : M t unit :=
  b <- contains nm ;;
  if b then raise RuntimeError
  else
    d <- gets disk ;;
    if existsb (is_dataset_at d) (ancestors nm) then raise RuntimeError
    else modify (fun f => set_disk (link_dataset nm (mkDataset nm data ∅) (disk f)) f).

(** The attribute [k] of the dataset linked at [nm] set to [v]. *)
Definition put_attr (nm k : string) (v : attr_value) (e : string * h5obj)
  : string * h5obj :=
  match e with
  | (n, H5Dataset d) =>
      if String.eqb n nm
      then (n, H5Dataset (mkDataset (name d) (value d) (<[k:=v]> (attrs d))))
      else e
  | _ => e
  end.

(** [dataset.attrs[k] = v] for the dataset linked at [nm]; [TypeError]
    for a value h5py cannot store. *)
Definition attrs_set (nm k : string) (v : attr_value) : M t unit :=
  if h5_writable v
  then modify (fun f => set_disk (map (put_attr nm k v) (disk f)) f)
  else raise TypeError.

(** The arrays read back from the reserved entries.  A reserved entry
    holds the table [create_tables] wrote there; any other array under
    such a name is outside this model. *)
Definition as_keys (v : ndarray) : result (list string) :=
  match v with NdKeys ks => Ok ks | _ => Raise TypeError end.
Definition as_pairs (v : ndarray) : result (list (string * Z)) :=
  match v with NdEnum kv => Ok kv | _ => Raise TypeError end.

(** [dict(pairs)]: a later pair replaces an earlier one. *)
Definition dict_of_pairs (kv : list (string * Z)) : gmap string Z :=
  fold_left (fun m e => <[fst e := snd e]> m) kv ∅.

Section methods.
Context `{Collaborators}.

Definition _clear_local_tables : M t unit :=
  modify (fun f => mk (disk f) [] ∅ None).

Definition _clear_persistent_tables : M t unit :=
  _clear_local_tables ;;
  for_each [KEY_MANIFEST; LABEL_ENUM; INDEX_TABLE] (fun k =>
    b <- contains k ;;
    when b (modify (fun f => set_disk (unlink k (disk f)) f))).

Definition get (key : string) : M t Dataset :=
  b <- contains key ;;
  assert_ b ;;
  fun f => match assoc key (disk f) with
           | Some o => (Factory o, f)
           | None => (Raise KeyError, f)
           end.

(** The loop of [add] over [attrs.iteritems()]. *)
Definition write_attrs (nm : string) (attrs : gmap string attr_value) : M t unit :=
  for_each (map_to_list attrs) (fun kv =>
    if is_numeric (snd kv) then attrs_set nm (fst kv) (snd kv)
    else if truthy (snd kv) then attrs_set nm (fst kv) (snd kv)
    else ret tt).

Definition add (key : string) (data : Dataset) (overwrite : bool) : M t unit :=
  let key := cleanse key in
  assert_ (is_keylike key) ;;
  _clear_persistent_tables ;;
  create_dataset key (value data) ;;
  write_attrs key (partition_attrs (attrs data)).

Definition remove (key : string) : M t unit :=
  b <- contains key ;;
  assert_ b ;;
  modify (fun f => set_disk (unlink key (disk f)) f) ;;
  _clear_persistent_tables.

(** The callback of [visititems]; the local [index_list] of
    [create_tables] rides next to the file. *)
Definition cache_data (key : string) (obj : h5obj) : M (t * list row) unit :=
  match obj with
  | H5Dataset d =>
      if is_keylike key then
        modify (fun s : t * list row =>
                  (set_keys (_keys (fst s) ++ [cleanse key]) (fst s), snd s)) ;;
        zoom (fun s : t * list row => (_label_enum (fst s), snd s))
             (fun (e : scan_state) (s : t * list row) =>
                (set_label_enum (fst e) (fst s), snd e))
             (scan_item key d)
      else ret tt
  | H5Group => ret tt
  end.

Definition create_tables (write : bool) : M t unit :=
  _clear_persistent_tables ;;
  index_list <- with_local []
    (objs <- gets (fun s : t * list row => disk (fst s)) ;;
     for_each objs (fun e => cache_data (fst e) (snd e))) ;;
  index_array <- lift (asarray_int index_list) ;;
  create_dataset INDEX_TABLE index_array ;;
  ks <- gets _keys ;;
  create_dataset KEY_MANIFEST (NdKeys ks) ;;
  e <- gets _label_enum ;;
  create_dataset LABEL_ENUM (NdEnum (map_to_list e)).

Definition keys : M t (list string) :=
  b <- contains KEY_MANIFEST ;;
  when (negb b) (create_tables true) ;;
  b' <- contains KEY_MANIFEST ;;
  assert_ b' ;;
  ks <- gets _keys ;;
  when (match ks with [] => true | _ => false end)
    (v <- getitem_value KEY_MANIFEST ;;
     l <- lift (as_keys v) ;;
     modify (set_keys l)) ;;
  gets _keys.

Definition __len__ : M t Z :=
  ks <- keys ;; ret (Z.of_nat (length ks)).

Definition label_enum : M t (gmap string Z) :=
  b <- contains LABEL_ENUM ;;
  when (negb b) (create_tables true) ;;
  b' <- contains LABEL_ENUM ;;
  assert_ b' ;;
  e <- gets _label_enum ;;
  when (bool_decide (e = ∅))
    (v <- getitem_value LABEL_ENUM ;;
     kv <- lift (as_pairs v) ;;
     for_each (map_to_list (dict_of_pairs kv)) (fun p =>
       modify (fun f => set_label_enum (<[fst p := snd p]> (_label_enum f)) f))) ;;
  gets _label_enum.

Definition index_table : M t ndarray :=
  b <- contains INDEX_TABLE ;;
  when (negb b) (create_tables true) ;;
  b' <- contains INDEX_TABLE ;;
  assert_ b' ;;
  it <- gets _index_table ;;
  match it with
  | None =>
      v <- getitem_value INDEX_TABLE ;;
      modify (set_index_table (Some v)) ;;
      ret v
  | Some v => ret v
  end.

End methods.
End File.

(** ** Randomness and sources *)

(** The generator behind [np.random] and [random]: a tape of draws and
    the position of the next one.  Every outcome of a run is the outcome
    for some tape. *)
Record Rng := mkRng {
  tape : nat -> nat;
  pos : nat
}.

Definition draw : M Rng nat :=
  fun r => (Ok (tape r (pos r)), mkRng (tape r) (S (pos r))).

(** A uniform draw from [[0, 1)]. *)
Definition random : M Rng Q :=
  a <- draw ;;
  b <- draw ;;
  ret (Z.of_nat (a mod (S b)) # Pos.of_succ_nat b).

(** [np.random.binomial(1, p=p)] *)
Definition binomial1 (p : Q) : M Rng bool :=
  if negb (Qle_bool 0 p) then raise ValueError
  else if negb (Qle_bool p 1) then raise ValueError
  else u <- random ;; ret (negb (Qle_bool p u)).

(** [np.random.randint(N)] *)
Definition randint (N : nat) : M Rng nat :=
  match N with
  | O => raise ValueError
  | S _ => d <- draw ;; ret (d mod N)%nat
  end.

(** [random.choice(seq)] *)
Definition choice {A} (seq : list A) : M Rng A :=
  match seq with
  | [] => raise IndexError
  | x :: _ => d <- draw ;; ret (nth (d mod length seq)%nat seq x)
  end.

(** Any object with a [next()] method and [num_items]: what the
    [n]-th call of [next()] yields, [None] once it is exhausted. *)
Record Source := mkSource {
  num_items : Z;
  gen : nat -> option (string * Dataset);
  cursor : nat
}.

Definition next : M Source (string * Dataset) :=
  fun s => match gen s (cursor s) with
           | Some kv => (Ok kv, mkSource (num_items s) (gen s) (S (cursor s)))
           | None => (Raise StopIteration, s)
           end.

(** [for n in xrange(k): body] *)
Fixpoint repeat_ {S} (k : nat) (body : M S unit) : M S unit :=
  match k with
  | O => ret tt
  | S k' => body ;; repeat_ k' body
  end.

(** ** class Cache(dict) *)

Module Cache.

Record t := mk {
  resident : gmap string Dataset;
  _refresh_prob : Q;
  source : Source;
  _keys : list string;
  _label_enum : gmap string Z;
  _index_table : list row;
  rng : Rng
}.

Definition set_resident (m : gmap string Dataset) (c : t) : t :=
  mk m (_refresh_prob c) (source c) (_keys c) (_label_enum c) (_index_table c) (rng c).
Definition set_source (s : Source) (c : t) : t :=
  mk (resident c) (_refresh_prob c) s (_keys c) (_label_enum c) (_index_table c) (rng c).
Definition set_label_enum (e : gmap string Z) (c : t) : t :=
  mk (resident c) (_refresh_prob c) (source c) (_keys c) e (_index_table c) (rng c).
Definition set_index_table (it : list row) (c : t) : t :=
  mk (resident c) (_refresh_prob c) (source c) (_keys c) (_label_enum c) it (rng c).
Definition set_rng (r : Rng) (c : t) : t :=
  mk (resident c) (_refresh_prob c) (source c) (_keys c) (_label_enum c) (_index_table c) r.

Definition _clear_tables : M t unit :=
  modify (fun c => mk (resident c) (_refresh_prob c) (source c) [] ∅ [] (rng c)).

(** The body of the [while] loop of [load]. *)
Definition load_one : M t unit :=
  kv <- zoom source set_source next ;;
  modify (fun c => set_resident (<[fst kv := snd kv]> (resident c)) c).

Definition load (num_items : Z) : M t unit :=
  repeat_ (Z.to_nat num_items) load_one.

Definition remove (key : string) : M t unit :=
  (fun c => match resident c !! key with
            | Some _ => (Ok tt, set_resident (delete key (resident c)) c)
            | None => (Raise KeyError, c)
            end) ;;
  _clear_tables.

Definition refresh (key : string) (p : option Q) : M t unit :=
  p <- match p with
       | None => gets _refresh_prob
       | Some p => ret p
       end ;;
  b <- zoom rng set_rng (binomial1 p) ;;
  when b (remove key ;; load 1).

(** [self.keys()] of the dict. *)
Definition keys : M t (list string) :=
  gets (fun c => map fst (map_to_list (resident c))).

Definition refresh_rand (p : option Q) : M t unit :=
  ks <- keys ;;
  key <- zoom rng set_rng (choice ks) ;;
  refresh key p.

(** The constructor, on a dict that is still empty. *)
Definition __init__ (source : Source) (cache_size : Z) (refresh_prob : Q)
  : M t unit :=
  fun c =>
    let c := mk (resident c) refresh_prob source (_keys c) (_label_enum c)
                (_index_table c) (rng c) in
    let '(cache_size, refresh_prob) :=
      if num_items source <? cache_size
      then (num_items source, 0%Q)
      else (cache_size, refresh_prob) in
    (load cache_size ;; _clear_tables) c.

(** [Cache(source, cache_size, refresh_prob)] *)
Definition new (source : Source) (cache_size : Z) (refresh_prob : Q) (r : Rng)
  : result unit * t :=
  __init__ source cache_size refresh_prob (mk ∅ 0%Q source [] ∅ [] r).

Section methods.
Context `{Collaborators}.

Definition create_tables : M t unit :=
  _clear_tables ;;
  index_list <- with_local []
    (objs <- gets (fun s : t * list row => map_to_list (resident (fst s))) ;;
     for_each objs (fun e =>
       if is_keylike (fst e) then
         zoom (fun s : t * list row => (_label_enum (fst s), snd s))
              (fun (e : scan_state) (s : t * list row) =>
                 (set_label_enum (fst e) (fst s), snd e))
              (scan_item (fst e) (snd e))
       else ret tt)) ;;
  modify (set_index_table index_list).

Definition label_enum : M t (gmap string Z) :=
  e <- gets _label_enum ;;
  when (bool_decide (e = ∅)) create_tables ;;
  gets _label_enum.

Definition index_table : M t (list row) :=
  it <- gets _index_table ;;
  when (match it with [] => true | _ => false end) create_tables ;;
  gets _index_table.

End methods.
End Cache.

(** ** class LabelBatch(OrderedDict) *)

Module LabelBatch.

(** The mapping in insertion order and the constructor's arguments.
    [values()] reshapes and stacks the payloads; no property below reads
    it, so it is not part of the model. *)
Record t := mk {
  items : list (string * Dataset);
  source : Source;
  _batch_size : Z;
  _label_key : string;
  _value_shape : list Z
}.

Definition set_items (l : list (string * Dataset)) (b : t) : t :=
  mk l (source b) (_batch_size b) (_label_key b) (_value_shape b).
Definition set_source (s : Source) (b : t) : t :=
  mk (items b) s (_batch_size b) (_label_key b) (_value_shape b).

Definition __init__ (source : Source) (batch_size : Z) (label_key : string)
  (value_shape : list Z) : t :=
  mk [] source batch_size label_key value_shape.

(** [self.update(dict([self.source.next()]))] *)
Definition load_one : M t unit :=
  kv <- zoom source set_source next ;;
  modify (fun b => set_items (od_set (fst kv) (snd kv) (items b)) b).

Definition load (num_items : Z) : M t unit :=
  repeat_ (Z.to_nat num_items) load_one.

Definition refresh : M t unit :=
  modify (set_items []) ;;
  n <- gets _batch_size ;;
  load n.

Section methods.
Context `{Collaborators}.

(** [self[k].labels[self._label_key]] for every [k], in order. *)
Fixpoint labels_of (label_key : string) (l : list (string * Dataset))
  : result (list label_val) :=
  match l with
  | [] => Ok []
  | (_, d) :: l' =>
      match assoc label_key (dlabels d) with
      | None => Raise KeyError
      | Some y =>
          match labels_of label_key l' with
          | Ok ys => Ok (y :: ys)
          | Raise e => Raise e
          end
      end
  end.

Definition labels : M t (list label_val) :=
  fun b => (labels_of (_label_key b) (items b), b).

End methods.
End LabelBatch.

(** ** class PairedBatch(LabelBatch) *)

Module PairedBatch.

Record t := mk {
  base : LabelBatch.t;
  _idx_A : list nat;
  _idx_B : list nat;
  rng : Rng
}.

Definition set_base (b : LabelBatch.t) (s : t) : t :=
  mk b (_idx_A s) (_idx_B s) (rng s).
Definition set_idx_A (a : list nat) (s : t) : t :=
  mk (base s) a (_idx_B s) (rng s).
Definition set_idx_B (b : list nat) (s : t) : t :=
  mk (base s) (_idx_A s) b (rng s).
Definition set_rng (r : Rng) (s : t) : t :=
  mk (base s) (_idx_A s) (_idx_B s) r.

(** [list(np.arange(N)[mask])] *)
Definition where_ (N : nat) (mask : nat -> bool) : list nat :=
  List.filter mask (seq 0 N).

(** [l.remove(x)]: the first occurrence goes; [ValueError] without one. *)
Fixpoint list_remove (x : nat) (l : list nat) : result (list nat) :=
  match l with
  | [] => Raise ValueError
  | y :: l' =>
      if Nat.eqb x y then Ok l'
      else match list_remove x l' with
           | Ok r => Ok (y :: r)
           | Raise e => Raise e
           end
  end.

(** [a[idx]] with a list of indices. *)
Fixpoint take_idx {A} (a : list A) (idx : list nat) : result (list A) :=
  match idx with
  | [] => Ok []
  | i :: idx' =>
      match a !! i with
      | None => Raise IndexError
      | Some x =>
          match take_idx a idx' with
          | Ok xs => Ok (x :: xs)
          | Raise e => Raise e
          end
      end
  end.

(** One round of the first loop of [_pair]: a pair with equal labels. *)
Definition pair_same (N : nat) (labels : list label_val) : M t unit :=
  y_idx <- zoom rng set_rng (randint N) ;;
  possible_idx <- lift (list_remove y_idx
    (where_ N (fun i => bool_decide (labels !! i = labels !! y_idx)))) ;;
  modify (fun s => set_idx_A (_idx_A s ++ [y_idx]) s) ;;
  c <- zoom rng set_rng (choice possible_idx) ;;
  modify (fun s => set_idx_B (_idx_B s ++ [c]) s).

(** One round of the second loop: a pair with different labels. *)
Definition pair_diff (N : nat) (labels : list label_val) : M t unit :=
  y_idx <- zoom rng set_rng (randint N) ;;
  let possible_idx :=
    where_ N (fun i => negb (bool_decide (labels !! i = labels !! y_idx))) in
  modify (fun s => set_idx_A (_idx_A s ++ [y_idx]) s) ;;
  c <- zoom rng set_rng (choice possible_idx) ;;
  modify (fun s => set_idx_B (_idx_B s ++ [c]) s).

Section methods.
Context `{Collaborators}.

Definition labels : M t (list label_val) :=
  zoom base set_base LabelBatch.labels.

(** [_pair] up to the end of its two loops. *)
Definition _pair_loops : M t unit :=
  modify (fun s => mk (base s) [] [] (rng s)) ;;
  N <- gets (fun s => length (LabelBatch.items (base s))) ;;
  labels <- labels ;;
  half <- gets (fun s => Z.to_nat (LabelBatch._batch_size (base s) / 2)) ;;
  repeat_ half (pair_same N labels) ;;
  repeat_ half (pair_diff N labels).

(** The last three lines of [_pair]: both lists cut to the length [M]. *)
Definition _pair_truncate : M t unit :=
  modify (fun s =>
    let M := Nat.min (length (_idx_A s)) (length (_idx_B s)) in
    mk (base s) (firstn M (_idx_A s)) (firstn M (_idx_B s)) (rng s)).

Definition _pair : M t unit :=
  _pair_loops ;;
  _pair_truncate.

Definition refresh : M t unit :=
  zoom base set_base LabelBatch.refresh ;;
  _pair.

Definition equals : M t (list Q) :=
  ls <- labels ;;
  a <- gets _idx_A ;;
  b <- gets _idx_B ;;
  la <- lift (take_idx ls a) ;;
  lb <- lift (take_idx ls b) ;;
  ret (zip_with (fun x y => if bool_decide (x = y) then 1%Q else 0%Q) la lb).

End methods.
End PairedBatch.

(** ** A concrete set of collaborators *)

Module Scenario.

(** Modelled from the spec: [ReservedKeys] is not under the sources; the
    spec has exactly three reserved names, one per derived table. *)
Definition reserved : list string :=
  ["__KEY_MANIFEST__"; "__LABEL_ENUM__"; "__INDEX_TABLE__"].

(** Modelled from the spec: the [labels] property of [core.Dataset] is not
    under the sources; the spec has label values persisted as attributes,
    a label being a string or a sequence of strings. *)
Definition as_label (v : attr_value) : option label_val :=
  match v with
  | AStr s => Some (LOne s)
  | AList l => Some (LSeq l)
  | _ => None
  end.

(** Modelled from the spec: the label mapping of [core.Dataset] (not under
    the sources) as the string-valued attributes other than [type]. *)
Definition label_items (a : gmap string attr_value) : list (string * label_val) :=
  omap (fun kv : string * attr_value =>
          if String.eqb (fst kv) "type" then None
          else match as_label (snd kv) with
               | Some l => Some (fst kv, l)
               | None => None
               end) (map_to_list a).

(** Modelled from the spec: [keyutils.key_to_index] is not under the
    sources; a key index is an integer that identifies the key, here its
    characters read as a number in base 256. *)
Fixpoint index_of (acc : Z) (s : string) : Z :=
  match s with
  | EmptyString => acc
  | String c s' => index_of (acc * 256 + Z.of_nat (Ascii.nat_of_ascii c)) s'
  end.

(** Modelled from the spec: [keyutils], [ReservedKeys], [utils] and [core]
    are not under the sources.  A key is key-like when it is not empty
    and neither a reserved table name nor a name below one; keys are
    already in normal form; the type of an item is its attribute [type];
    the attributes are persisted as they are.  The item factory is left
    open. *)
Definition with_factory (F : h5obj -> result Dataset) : Collaborators := {|
  cleanse := fun k => k;
  is_keylike := fun k =>
    negb (String.eqb k "") && negb (existsb (fun r => at_or_below r k) reserved);
  key_to_index := index_of 0;
  KEY_MANIFEST := "__KEY_MANIFEST__";
  LABEL_ENUM := "__LABEL_ENUM__";
  INDEX_TABLE := "__INDEX_TABLE__";
  partition_attrs := fun a => a;
  dtype := fun d => match attrs d !! "type" with
                    | Some (AStr s) => s
                    | _ => ""
                    end;
  dlabels := fun d => label_items (attrs d);
  Factory := F
|}.

(** Modelled from the spec: [core.Factory] is not under the sources; the
    spec has [get] return the item stored under the key: the factory
    wraps a dataset and refuses a group. *)
Definition collaborators : Collaborators :=
  with_factory (fun o => match o with
                         | H5Dataset d => Ok d
                         | H5Group => Raise TypeError
                         end).

(** A Sample item with one label under the label key [chord]. *)
Definition sample (nm : string) (v : list Z) (label : string) : Dataset :=
  mkDataset nm (NdNum v) (<["chord" := AStr label]> {["type" := AStr "Sample"]}).

(** A Sequence item with one label per element under the label key
    [chord]. *)
Definition sequence (nm : string) (v : list Z) (labels : list string) : Dataset :=
  mkDataset nm (NdNum v) (<["chord" := AList labels]> {["type" := AStr "Sequence"]}).

(** A generator that draws 0, 1, 2, ... *)
Definition rng0 : Rng := mkRng (fun n => n) 0.

(** A source that yields the pairs of a list, then is exhausted. *)
Definition source_of (n : Z) (l : list (string * Dataset)) : Source :=
  mkSource n (fun i => l !! i) 0.

(** Two items with different keys and labels. *)
Definition source_ab : Source :=
  source_of 2 [("a", sample "a" [1] "x"); ("b", sample "b" [2] "y")].

(** A single item. *)
Definition source_a : Source :=
  source_of 1 [("a", sample "a" [1] "x")].

(** The same key twice. *)
Definition source_aa : Source :=
  source_of 2 [("a", sample "a" [1] "x"); ("a", sample "a" [2] "y")].

(** Four items, two of each label. *)
Definition source_xxyy : Source :=
  source_of 4 [("a", sample "a" [1] "x"); ("b", sample "b" [2] "x");
               ("c", sample "c" [3] "y"); ("d", sample "d" [4] "y")].

(** A paired batch of four over [source_xxyy], not yet refreshed. *)
Definition paired_xxyy : PairedBatch.t :=
  PairedBatch.mk (LabelBatch.__init__ source_xxyy 4 "chord" [1]) [] [] rng0.

(** A paired batch of five, the four items loaded. *)
Definition paired_odd : PairedBatch.t :=
  PairedBatch.mk
    (LabelBatch.mk [("a", sample "a" [1] "x"); ("b", sample "b" [2] "x");
                    ("c", sample "c" [3] "y"); ("d", sample "d" [4] "y")]
                   source_xxyy 5 "chord" [1]) [] [] rng0.

End Scenario.

(** * Properties *)

(** ** Reasoning about the monad *)

Section MonadFacts.
Context {S : Type}.

Lemma bind_Ok {A B} (m : M S A) (k : A -> M S B) s a s1 :
  m s = (Ok a, s1) -> bind m k s = k a s1.
Proof. unfold bind. intros ->. reflexivity. Qed.

Lemma bind_Raise {A B} (m : M S A) (k : A -> M S B) s e s1 :
  m s = (Raise e, s1) -> bind m k s = (Raise e, s1).
Proof. unfold bind. intros ->. reflexivity. Qed.

Lemma bind_Ok_inv {A B} (m : M S A) (k : A -> M S B) s b s2 :
  bind m k s = (Ok b, s2) ->
  exists a s1, m s = (Ok a, s1) /\ k a s1 = (Ok b, s2).
Proof.
  unfold bind. destruct (m s) as [[a|e] s1]; intros Hk.
  - exists a, s1. split; [reflexivity | exact Hk].
  - discriminate.
Qed.

Lemma repeat_S (k : nat) (body : M S unit) :
  repeat_ (Datatypes.S k) body = bind body (fun _ => repeat_ k body).
Proof. reflexivity. Qed.

(** A loop whose body keeps an invariant, and cannot fail while it holds,
    runs to the end and keeps it. *)
Lemma repeat_total (I : S -> Prop) (body : M S unit) :
  (forall s, I s -> exists s', body s = (Ok tt, s') /\ I s') ->
  forall k s, I s -> exists s', repeat_ k body s = (Ok tt, s') /\ I s'.
Proof.
  intros Hbody. induction k as [|k IH]; intros s Hs.
  - exists s. split; [reflexivity | exact Hs].
  - destruct (Hbody s Hs) as (s1 & H1 & HI1).
    destruct (IH s1 HI1) as (s2 & H2 & HI2).
    exists s2. split; [|exact HI2].
    rewrite repeat_S. rewrite (bind_Ok _ _ _ _ _ H1). exact H2.
Qed.

End MonadFacts.

(** Unfold the plumbing of a computation applied to a state. *)
Ltac run_step :=
  unfold bind, ret, raise, gets, modify, lift, zoom, when, assert_, with_local;
  cbn [fst snd].

(** ** The random primitives *)

Lemma randint_spec (N : nat) (r : Rng) :
  (0 < N)%nat ->
  exists y, randint N r = (Ok y, mkRng (tape r) (Datatypes.S (pos r))) /\ (y < N)%nat.
Proof.
  intros HN. destruct N as [|n]; [lia|].
  exists (tape r (pos r) mod Datatypes.S n)%nat. split.
  - reflexivity.
  - apply Nat.mod_upper_bound. lia.
Qed.

Lemma randint_Ok_inv (N : nat) (r r' : Rng) (y : nat) :
  randint N r = (Ok y, r') -> (y < N)%nat.
Proof.
  intros Hr. destruct N as [|n]; [discriminate|].
  destruct (randint_spec (Datatypes.S n) r ltac:(lia)) as (y' & Hy' & Hlt).
  rewrite Hy' in Hr. injection Hr as <- _. exact Hlt.
Qed.

Lemma choice_spec {A} (seq : list A) (r : Rng) :
  seq <> [] ->
  exists x, choice seq r = (Ok x, mkRng (tape r) (Datatypes.S (pos r))) /\ In x seq.
Proof.
  intros Hne. destruct seq as [|x0 seq']; [congruence|].
  exists (nth (tape r (pos r) mod length (x0 :: seq'))%nat (x0 :: seq') x0).
  split; [reflexivity|].
  apply nth_In. apply Nat.mod_upper_bound. simpl. lia.
Qed.

Lemma choice_Ok_inv {A} (seq : list A) (r r' : Rng) (x : A) :
  choice seq r = (Ok x, r') -> In x seq.
Proof.
  intros Hc. destruct seq as [|x0 seq']; [discriminate|].
  destruct (choice_spec (x0 :: seq') r ltac:(discriminate)) as (x' & Hx' & Hin).
  rewrite Hx' in Hc. injection Hc as <- _. exact Hin.
Qed.

(** ** Pulling from a source *)

(** The source after one more call of [next()]. *)
Definition bump (src : Source) : Source :=
  mkSource (num_items src) (gen src) (Datatypes.S (cursor src)).

(** The source can answer the next [n] calls of [next()]. *)
Fixpoint supplies (src : Source) (n : nat) : bool :=
  match n with
  | O => true
  | Datatypes.S n' =>
      match gen src (cursor src) with
      | Some _ => supplies (bump src) n'
      | None => false
      end
  end.

(** What the next [n] calls of [next()] yield, as far as they succeed. *)
Fixpoint pulled (src : Source) (n : nat) : list (string * Dataset) :=
  match n with
  | O => []
  | Datatypes.S n' =>
      match gen src (cursor src) with
      | Some kv => kv :: pulled (bump src) n'
      | None => []
      end
  end.

Lemma pulled_length src n : supplies src n = true -> length (pulled src n) = n.
Proof.
  revert src. induction n as [|n IH]; intros src; simpl; [reflexivity|].
  destruct (gen src (cursor src)); [|discriminate].
  intros Hs. simpl. f_equal. apply IH, Hs.
Qed.

Section LoadLoop.
Context {S : Type} (proj : S -> Source) (inj : Source -> S -> S)
        (store : string * Dataset -> S -> S).
Hypothesis proj_inj : forall t s, proj (inj t s) = t.
Hypothesis proj_store : forall kv s, proj (store kv s) = proj s.

(** The body of a [load] loop: one [next()], one store. *)
Definition pull_one : M S unit :=
  kv <- zoom proj inj next ;; modify (store kv).

Definition pull_step (s : S) (kv : string * Dataset) : S :=
  store kv (inj (bump (proj s)) s).

Lemma pull_loop_Ok n : forall s,
  supplies (proj s) n = true ->
  repeat_ n pull_one s = (Ok tt, fold_left pull_step (pulled (proj s) n) s).
Proof.
  induction n as [|n IH]; intros s Hs; [reflexivity|].
  simpl in Hs |- *. unfold bind at 1. unfold pull_one at 1. run_step.
  unfold next. destruct (gen (proj s) (cursor (proj s))) as [kv|] eqn:Hg; [|discriminate].
  fold (bump (proj s)). cbn [fold_left].
  assert (Hp : proj (pull_step s kv) = bump (proj s)).
  { unfold pull_step. rewrite proj_store, proj_inj. reflexivity. }
  change (store kv (inj (bump (proj s)) s)) with (pull_step s kv).
  rewrite IH by (rewrite Hp; exact Hs). rewrite Hp. reflexivity.
Qed.

Lemma pull_loop_Raise n : forall s,
  supplies (proj s) n = false ->
  exists s', repeat_ n pull_one s = (Raise StopIteration, s').
Proof.
  induction n as [|n IH]; intros s Hs; [discriminate|].
  simpl in Hs |- *. unfold bind at 1. unfold pull_one at 1. run_step.
  unfold next. destruct (gen (proj s) (cursor (proj s))) as [kv|] eqn:Hg.
  - fold (bump (proj s)). apply IH. rewrite proj_store, proj_inj. exact Hs.
  - eexists. reflexivity.
Qed.

End LoadLoop.

(** ** LabelBatch *)

Section LabelBatchFacts.
Import LabelBatch.

(** The insertion-ordered mapping built from a list of pairs. *)
Definition od_of_list (l0 kvs : list (string * Dataset)) : list (string * Dataset) :=
  fold_left (fun l kv => od_set (fst kv) (snd kv) l) kvs l0.

Lemma batch_load_unfold n :
  load n = repeat_ (Z.to_nat n)
             (pull_one source set_source
                (fun kv b => set_items (od_set (fst kv) (snd kv) (items b)) b)).
Proof. reflexivity. Qed.

Lemma fold_pull_items kvs : forall b,
  let b' := fold_left
              (pull_step source set_source
                 (fun kv b => set_items (od_set (fst kv) (snd kv) (items b)) b)) kvs b in
  items b' = od_of_list (items b) kvs /\
  cursor (source b') = (cursor (source b) + length kvs)%nat /\
  _batch_size b' = _batch_size b /\ _label_key b' = _label_key b.
Proof.
  induction kvs as [|kv kvs IH]; intros b; simpl.
  - repeat split; auto.
  - destruct (IH (pull_step source set_source
                    (fun kv b => set_items (od_set (fst kv) (snd kv) (items b)) b) b kv))
      as (Hi & Hc & Hb & Hk).
    rewrite Hi, Hc, Hb, Hk. unfold pull_step. cbn. repeat split; auto; lia.
Qed.

Lemma mem_od_set {A} k k' (v : A) l :
  mem k' (od_set k v l) = (String.eqb k' k || mem k' l)%bool.
Proof.
  unfold mem. induction l as [|[k0 a] l IH]; simpl.
  - destruct (String.eqb k' k); reflexivity.
  - destruct (String.eqb_spec k k0) as [->|Hne]; simpl.
    + destruct (String.eqb k' k0); reflexivity.
    + destruct (String.eqb_spec k' k0) as [->|Hne'].
      * destruct (String.eqb k0 k); reflexivity.
      * exact IH.
Qed.

Lemma length_od_set {A} k (v : A) l :
  length (od_set k v l) = if mem k l then length l else Datatypes.S (length l).
Proof.
  unfold mem. induction l as [|[k0 a] l IH]; simpl; [reflexivity|].
  destruct (String.eqb k k0); simpl; [reflexivity|].
  rewrite IH. destruct (assoc k l); reflexivity.
Qed.

Lemma length_od_of_list_le kvs : forall l0,
  (length (od_of_list l0 kvs) <= length l0 + length kvs)%nat.
Proof.
  induction kvs as [|[k v] kvs IH]; intros l0; simpl; [lia|].
  unfold od_of_list in *. simpl. specialize (IH (od_set k v l0)).
  rewrite length_od_set in IH. destruct (mem k l0); lia.
Qed.

Lemma length_od_of_list_NoDup kvs : forall l0,
  NoDup (map fst kvs) ->
  (forall k, In k (map fst kvs) -> mem k l0 = false) ->
  length (od_of_list l0 kvs) = (length l0 + length kvs)%nat.
Proof.
  induction kvs as [|[k v] kvs IH]; intros l0 Hnd Hfresh; simpl; [lia|].
  unfold od_of_list in *. simpl. apply NoDup_cons in Hnd as [Hk Hnd].
  rewrite IH; [| exact Hnd |].
  - rewrite length_od_set, Hfresh; [lia | left; reflexivity].
  - intros k' Hk'. rewrite mem_od_set, Hfresh by (right; exact Hk').
    destruct (String.eqb_spec k' k) as [->|]; [|reflexivity].
    exfalso. apply Hk. apply list_elem_of_In. exact Hk'.
Qed.

(** What [refresh] does, by whether the source can supply the batch. *)
Lemma refresh_run b :
  let n := Z.to_nat (_batch_size b) in
  (supplies (source b) n = true ->
   exists b', refresh b = (Ok tt, b') /\
     items b' = od_of_list [] (pulled (source b) n) /\
     cursor (source b') = (cursor (source b) + n)%nat /\
     _batch_size b' = _batch_size b /\ _label_key b' = _label_key b) /\
  (supplies (source b) n = false ->
   exists b', refresh b = (Raise StopIteration, b')).
Proof.
  intros n. unfold refresh.
  rewrite (bind_Ok _ _ b tt (set_items [] b)) by reflexivity.
  rewrite (bind_Ok _ _ (set_items [] b) (_batch_size b) (set_items [] b)) by reflexivity.
  rewrite batch_load_unfold. fold n.
  change (source b) with (source (set_items [] b)).
  split; intros Hs.
  - rewrite pull_loop_Ok by (auto || (intros; reflexivity)).
    eexists. split; [reflexivity|].
    match goal with |- context [fold_left ?f ?kvs ?b0] =>
      destruct (fold_pull_items kvs b0) as (Hi & Hc & Hb & Hk) end.
    rewrite Hi, Hc, Hb, Hk. rewrite (pulled_length _ _ Hs). auto.
  - apply pull_loop_Raise; auto.
Qed.

Lemma refresh_batch_size b b' :
  refresh b = (Ok tt, b') -> _batch_size b' = _batch_size b.
Proof.
  intros Hr. destruct (refresh_run b) as [Hok Hfail].
  destruct (supplies (source b) (Z.to_nat (_batch_size b))).
  - destruct (Hok eq_refl) as (b1 & Hb1 & _ & _ & Hbs & _). congruence.
  - destruct (Hfail eq_refl) as (b1 & Hb1). congruence.
Qed.

(** C9 (amended): [refresh()] empties the mapping and pulls exactly
    [batch_size] items from the source; the batch then holds the items
    pulled, keyed by their keys: at most [batch_size] of them, and exactly
    [batch_size] when the keys pulled are pairwise distinct.  It raises
    [StopIteration] when the source cannot supply [batch_size] items. *)
Theorem refresh_pulls_batch (b : LabelBatch.t) :
  let n := Z.to_nat (_batch_size b) in
  (supplies (source b) n = true ->
   exists b', refresh b = (Ok tt, b') /\
     items b' = od_of_list [] (pulled (source b) n) /\
     cursor (source b') = (cursor (source b) + n)%nat /\
     (length (items b') <= n)%nat /\
     (NoDup (map fst (pulled (source b) n)) -> length (items b') = n)) /\
  (supplies (source b) n = false ->
   exists b', refresh b = (Raise StopIteration, b')).
Proof.
  intros n. destruct (refresh_run b) as [Hok Hfail]. fold n in Hok, Hfail.
  split; [|exact Hfail].
  intros Hs. destruct (Hok Hs) as (b' & Hr & Hi & Hc & _ & _).
  exists b'. repeat split; auto.
  - rewrite Hi. pose proof (length_od_of_list_le (pulled (source b) n) []) as Hle.
    rewrite (pulled_length _ _ Hs) in Hle. simpl in Hle. exact Hle.
  - intros Hnd. rewrite Hi, length_od_of_list_NoDup; auto.
    simpl. apply pulled_length, Hs.
Qed.

End LabelBatchFacts.

(** ** Cache *)

Section CacheFacts.
Import Cache.

Definition store_resident (kv : string * Dataset) (c : Cache.t) : Cache.t :=
  set_resident (<[fst kv := snd kv]> (resident c)) c.

Lemma cache_load_unfold n :
  load n = repeat_ (Z.to_nat n) (pull_one source set_source store_resident).
Proof. reflexivity. Qed.

(** The dict after the assignments [self[k] = v] for the pairs [kvs]. *)
Definition dict_update (m : gmap string Dataset) (kvs : list (string * Dataset))
  : gmap string Dataset :=
  fold_left (fun m kv => <[fst kv := snd kv]> m) kvs m.

Lemma fold_pull_resident kvs : forall c,
  let c' := fold_left (pull_step source set_source store_resident) kvs c in
  resident c' = dict_update (resident c) kvs /\
  cursor (source c') = (cursor (source c) + length kvs)%nat /\
  gen (source c') = gen (source c) /\
  num_items (source c') = num_items (source c) /\
  _refresh_prob c' = _refresh_prob c /\
  _label_enum c' = _label_enum c /\ _index_table c' = _index_table c /\
  _keys c' = _keys c /\ rng c' = rng c.
Proof.
  induction kvs as [|kv kvs IH]; intros c; simpl.
  - repeat split; auto.
  - destruct (IH (pull_step source set_source store_resident c kv))
      as (Hr & Hc & Hg & Hn & Hp & He & Hi & Hk & Hrng).
    rewrite Hr, Hc, Hg, Hn, Hp, He, Hi, Hk, Hrng.
    unfold pull_step, store_resident. cbn. repeat split; auto; lia.
Qed.

Lemma size_dict_update_le kvs : forall m,
  (size (dict_update m kvs) <= size m + length kvs)%nat.
Proof.
  induction kvs as [|[k v] kvs IH]; intros m; simpl; [lia|].
  unfold dict_update in *. simpl. specialize (IH (<[k:=v]> m)).
  destruct (m !! k) as [x|] eqn:Hk.
  - rewrite map_size_insert_Some in IH by eauto. lia.
  - rewrite map_size_insert_None in IH by exact Hk. lia.
Qed.

Lemma size_dict_update_NoDup kvs : forall m,
  NoDup (map fst kvs) ->
  (forall k, In k (map fst kvs) -> m !! k = None) ->
  size (dict_update m kvs) = (size m + length kvs)%nat.
Proof.
  induction kvs as [|[k v] kvs IH]; intros m Hnd Hfresh; simpl; [lia|].
  unfold dict_update in *. simpl. apply NoDup_cons in Hnd as [Hk Hnd].
  rewrite IH; [| exact Hnd |].
  - rewrite map_size_insert_None by (apply Hfresh; left; reflexivity). lia.
  - intros k' Hk'. rewrite lookup_insert_ne.
    + apply Hfresh. right. exact Hk'.
    + intros ->. apply Hk. apply list_elem_of_In. exact Hk'.
Qed.

(** The two sure outcomes of the draw. *)
Lemma random_range (r : Rng) :
  exists u r', random r = (Ok u, r') /\ Qle_bool 0 u = true /\ Qle_bool 1 u = false.
Proof.
  unfold random. run_step. unfold draw. cbn [tape pos].
  eexists. eexists. split; [reflexivity|].
  set (a := tape r (pos r)). set (b := tape r (Datatypes.S (pos r))).
  pose proof (Nat.mod_upper_bound a (Datatypes.S b) ltac:(lia)) as Hlt.
  unfold Qle_bool. cbn [Qnum Qden].
  split.
  - apply Z.leb_le. lia.
  - apply Z.leb_gt. rewrite Zpos_P_of_succ_nat. lia.
Qed.

Lemma binomial1_one (r : Rng) : exists r', binomial1 1 r = (Ok true, r').
Proof.
  destruct (random_range r) as (u & r' & Hu & _ & H1).
  exists r'.
  change (binomial1 1 r) with (bind random (fun u => ret (negb (Qle_bool 1 u))) r).
  rewrite (bind_Ok _ _ _ _ _ Hu). unfold ret. rewrite H1. reflexivity.
Qed.

Lemma binomial1_zero (r : Rng) : exists r', binomial1 0 r = (Ok false, r').
Proof.
  destruct (random_range r) as (u & r' & Hu & H0 & _).
  exists r'.
  change (binomial1 0 r) with (bind random (fun u => ret (negb (Qle_bool 0 u))) r).
  rewrite (bind_Ok _ _ _ _ _ Hu). unfold ret. rewrite H0. reflexivity.
Qed.

(** [refresh(key, p=0.0)]: only the generator moves. *)
Lemma refresh_zero key c :
  exists r', refresh key (Some 0%Q) c = (Ok tt, set_rng r' c).
Proof.
  destruct (binomial1_zero (rng c)) as (r' & Hb).
  exists r'. unfold refresh.
  rewrite (bind_Ok _ _ c 0%Q c) by reflexivity.
  rewrite (bind_Ok _ _ c false (set_rng r' c)) by (unfold zoom; rewrite Hb; reflexivity).
  reflexivity.
Qed.

(** [refresh(key, p=1.0)] runs [remove(key)] and [load(1)]. *)
Lemma refresh_one key c :
  exists r', refresh key (Some 1%Q) c
             = (remove key ;; load 1) (set_rng r' c).
Proof.
  destruct (binomial1_one (rng c)) as (r' & Hb).
  exists r'. unfold refresh.
  rewrite (bind_Ok _ _ c 1%Q c) by reflexivity.
  rewrite (bind_Ok _ _ c true (set_rng r' c)) by (unfold zoom; rewrite Hb; reflexivity).
  reflexivity.
Qed.

Lemma binomial1_runs (p : Q) (r : Rng) :
  Qle_bool 0 p = true -> Qle_bool p 1 = true ->
  exists b r', binomial1 p r = (Ok b, r').
Proof.
  intros H0 H1. destruct (random_range r) as (u & r' & Hu & _).
  exists (negb (Qle_bool p u)), r'. unfold binomial1. rewrite H0, H1. cbn [negb].
  rewrite (bind_Ok _ _ _ _ _ Hu). reflexivity.
Qed.

Lemma remove_absent key c :
  resident c !! key = None -> remove key c = (Raise KeyError, c).
Proof. intros Hk. unfold remove, bind. rewrite Hk. reflexivity. Qed.

Lemma remove_resident key c :
  is_Some (resident c !! key) ->
  remove key c = (Ok tt, mk (delete key (resident c)) (_refresh_prob c) (source c)
                            [] ∅ [] (rng c)).
Proof. intros [d Hk]. unfold remove, bind. rewrite Hk. reflexivity. Qed.

Lemma load_1 c kv :
  gen (source c) (cursor (source c)) = Some kv ->
  load 1 c = (Ok tt, store_resident kv (set_source (bump (source c)) c)).
Proof.
  intros Hg. rewrite cache_load_unfold.
  rewrite pull_loop_Ok; try reflexivity.
  - simpl. rewrite Hg. reflexivity.
  - simpl. rewrite Hg. reflexivity.
Qed.

Lemma load_exhausted c :
  gen (source c) (cursor (source c)) = None ->
  load 1 c = (Raise StopIteration, c).
Proof.
  intros Hg. change (load 1 c) with (bind load_one (fun _ => ret tt) c).
  unfold load_one, bind, zoom, next. rewrite Hg. destruct c; reflexivity.
Qed.

(** C4 (amended): [refresh(key, p)] removes [key] only when the draw with
    probability [p] succeeds.  For a key that is not resident it raises
    [KeyError] exactly then: always for [p = 1.0], never for [p = 0.0],
    where it returns and leaves the cache as it was.  For a resident key,
    [refresh(key, 1.0)] evicts the key and loads exactly one item from the
    source (it raises [StopIteration], the key gone, when the source has
    none left), and [refresh(key, 0.0)] evicts nothing. *)
Theorem refresh_eviction (c : Cache.t) (key : string) :
  (resident c !! key = None ->
     (exists r', refresh key (Some 1%Q) c = (Raise KeyError, set_rng r' c)) /\
     (exists r', refresh key (Some 0%Q) c = (Ok tt, set_rng r' c)) /\
     (forall p, Qle_bool 0 p = true -> Qle_bool p 1 = true ->
        exists b r', binomial1 p (rng c) = (Ok b, r') /\
          refresh key (Some p) c
          = (if b then Raise KeyError else Ok tt, set_rng r' c))) /\
  (is_Some (resident c !! key) ->
     (forall kv, gen (source c) (cursor (source c)) = Some kv ->
        exists c', refresh key (Some 1%Q) c = (Ok tt, c') /\
          resident c' = <[fst kv := snd kv]> (delete key (resident c)) /\
          source c' = bump (source c)) /\
     (gen (source c) (cursor (source c)) = None ->
        exists c', refresh key (Some 1%Q) c = (Raise StopIteration, c') /\
          resident c' = delete key (resident c)) /\
     (exists r', refresh key (Some 0%Q) c = (Ok tt, set_rng r' c))).
Proof.
  split.
  - intros Habs. split; [|split].
    + destruct (refresh_one key c) as (r' & ->). exists r'.
      unfold bind. rewrite remove_absent by exact Habs. reflexivity.
    + apply refresh_zero.
    + intros p H0 H1. destruct (binomial1_runs p (rng c) H0 H1) as (b & r' & Hb).
      exists b, r'. split; [exact Hb|]. unfold refresh.
      rewrite (bind_Ok _ _ c p c) by reflexivity.
      rewrite (bind_Ok _ _ c b (set_rng r' c)) by (unfold zoom; rewrite Hb; reflexivity).
      destruct b; [|reflexivity].
      unfold when, bind. rewrite remove_absent by exact Habs. reflexivity.
  - intros Hres. split; [|split; [|apply refresh_zero]].
    + intros kv Hg. destruct (refresh_one key c) as (r' & ->).
      rewrite (bind_Ok _ _ _ _ _ (remove_resident key (set_rng r' c) Hres)).
      rewrite (load_1 _ kv) by exact Hg.
      eexists. split; [reflexivity|]. split; reflexivity.
    + intros Hg. destruct (refresh_one key c) as (r' & ->).
      rewrite (bind_Ok _ _ _ _ _ (remove_resident key (set_rng r' c) Hres)).
      rewrite load_exhausted by exact Hg.
      eexists. split; reflexivity.
Qed.

Lemma new_run (src : Source) (cache_size : Z) (refresh_prob : Q) (r : Rng) :
  num_items src < cache_size ->
  supplies src (Z.to_nat (num_items src)) = true ->
  exists c, new src cache_size refresh_prob r = (Ok tt, c) /\
    resident c = dict_update ∅ (pulled src (Z.to_nat (num_items src))) /\
    _refresh_prob c = refresh_prob /\
    _label_enum c = ∅ /\ _index_table c = [].
Proof.
  intros Hlt Hs. unfold new, __init__.
  rewrite (proj2 (Z.ltb_lt _ _) Hlt). cbv beta iota zeta. cbn [resident _keys _label_enum _index_table rng].
  rewrite cache_load_unfold.
  erewrite bind_Ok; [| apply pull_loop_Ok; [reflexivity | reflexivity | exact Hs]].
  cbn [source].
  match goal with |- context [fold_left ?f ?kvs ?c0] =>
    destruct (fold_pull_resident kvs c0) as (Hr & _ & _ & _ & Hp & _) end.
  eexists. split; [reflexivity|].
  cbn [resident _refresh_prob _label_enum _index_table].
  rewrite Hr, Hp. auto.
Qed.

End CacheFacts.

(** ** PairedBatch: the pairing pass *)

Section PairedBatchFacts.
Context `{Collaborators}.
Import PairedBatch.

(** [s'] is [s] with the anchors [ys] and the partners [cs] appended. *)
Definition appended (s s' : PairedBatch.t) (ys cs : list nat) : Prop :=
  base s' = base s /\
  _idx_A s' = _idx_A s ++ ys /\
  _idx_B s' = _idx_B s ++ cs.

Lemma appended_refl s : appended s s [] [].
Proof. unfold appended. rewrite !app_nil_r. auto. Qed.

Lemma appended_trans s1 s2 s3 ys1 cs1 ys2 cs2 :
  appended s1 s2 ys1 cs1 -> appended s2 s3 ys2 cs2 ->
  appended s1 s3 (ys1 ++ ys2) (cs1 ++ cs2).
Proof.
  intros (Hb1 & Ha1 & Hc1) (Hb2 & Ha2 & Hc2). unfold appended.
  rewrite Hb2, Hb1, Ha2, Ha1, Hc2, Hc1, !app_assoc. auto.
Qed.

Lemma where_In N mask i :
  In i (where_ N mask) <-> (i < N)%nat /\ mask i = true.
Proof.
  unfold where_. rewrite filter_In, in_seq. intuition lia.
Qed.

Lemma list_remove_In x l r j :
  list_remove x l = Ok r -> In j r -> In j l.
Proof.
  revert r. induction l as [|y l IH]; intros r; simpl; [discriminate|].
  destruct (Nat.eqb x y).
  - intros [= <-]. auto.
  - destruct (list_remove x l) as [r'|e]; [|discriminate].
    intros [= <-] [Hj|Hj]; [auto|]. right. apply (IH r'); auto.
Qed.

Lemma list_remove_total x l :
  In x l ->
  exists r, list_remove x l = Ok r /\ forall j, In j l -> j <> x -> In j r.
Proof.
  induction l as [|y l IH]; intros Hx; [destruct Hx|]. simpl.
  destruct (Nat.eqb_spec x y) as [->|Hne].
  - exists l. split; [reflexivity|]. intros j [Hj|Hj] Hjx; [congruence|auto].
  - destruct Hx as [Hx|Hx]; [congruence|].
    destruct (IH Hx) as (r & -> & Hr).
    exists (y :: r). split; [reflexivity|].
    intros j [Hj|Hj] Hjx; [left; auto | right; auto].
Qed.

(** What one round of the first loop leaves behind. *)
Lemma pair_same_Ok_inv N ls s s' :
  pair_same N ls s = (Ok tt, s') ->
  exists y c, appended s s' [y] [c] /\ (y < N)%nat /\ (c < N)%nat /\
              ls !! c = ls !! y.
Proof.
  unfold pair_same. run_step.
  destruct (randint N (rng s)) as [[y|e] r1] eqn:Hy; [|discriminate].
  destruct (list_remove y _) as [p|e] eqn:Hp; [|discriminate].
  cbn [rng set_rng set_idx_A base _idx_A _idx_B].
  destruct (choice p r1) as [[c|e] r2] eqn:Hc; [|discriminate].
  intros [= <-]. exists y, c.
  apply randint_Ok_inv in Hy. apply choice_Ok_inv in Hc.
  apply (list_remove_In _ _ _ _ Hp) in Hc. apply where_In in Hc.
  destruct Hc as [HcN Hmask]. apply bool_decide_eq_true in Hmask.
  repeat split; auto.
Qed.

(** What one round of the second loop leaves behind. *)
Lemma pair_diff_Ok_inv N ls s s' :
  pair_diff N ls s = (Ok tt, s') ->
  exists y c, appended s s' [y] [c] /\ (y < N)%nat /\ (c < N)%nat /\
              ls !! c <> ls !! y.
Proof.
  unfold pair_diff. run_step.
  destruct (randint N (rng s)) as [[y|e] r1] eqn:Hy; [|discriminate].
  cbn [rng set_rng set_idx_A base _idx_A _idx_B].
  destruct (choice _ r1) as [[c|e] r2] eqn:Hc; [|discriminate].
  intros [= <-]. exists y, c.
  apply randint_Ok_inv in Hy. apply choice_Ok_inv in Hc.
  apply where_In in Hc.
  destruct Hc as [HcN Hmask]. apply negb_true_iff, bool_decide_eq_false in Hmask.
  repeat split; auto.
Qed.

(** A loop of rounds that each append one pair related by [P]. *)
Lemma repeat_appended (P : nat -> nat -> Prop) (body : M PairedBatch.t unit) :
  (forall s s', body s = (Ok tt, s') ->
                exists y c, appended s s' [y] [c] /\ P y c) ->
  forall k s s', repeat_ k body s = (Ok tt, s') ->
    exists ys cs, appended s s' ys cs /\ length ys = k /\ Forall2 P ys cs.
Proof.
  intros Hbody. induction k as [|k IH]; intros s s' Hrun.
  - injection Hrun as <-. exists [], []. split; [apply appended_refl|].
    split; [reflexivity | constructor].
  - rewrite repeat_S in Hrun. apply bind_Ok_inv in Hrun.
    destruct Hrun as ([] & s1 & H1 & H2).
    destruct (Hbody _ _ H1) as (y & c & Happ1 & HP).
    destruct (IH _ _ H2) as (ys & cs & Happ2 & Hlen & HF).
    exists (y :: ys), (c :: cs). split.
    + apply (appended_trans _ _ _ [y] [c] ys cs Happ1 Happ2).
    + split; [simpl; congruence | constructor; assumption].
Qed.

(** The two loops, when they complete: [half] pairs with equal labels,
    then [half] pairs with different labels, over the labels of the
    batch. *)
Lemma pair_loops_Ok_inv s s1 :
  _pair_loops s = (Ok tt, s1) ->
  let half := Z.to_nat (LabelBatch._batch_size (base s) / 2) in
  let N := length (LabelBatch.items (base s)) in
  exists ls ys1 cs1 ys2 cs2,
    labels s = (Ok ls, s) /\
    base s1 = base s /\
    _idx_A s1 = ys1 ++ ys2 /\ _idx_B s1 = cs1 ++ cs2 /\
    length ys1 = half /\ length ys2 = half /\
    Forall2 (fun y c => (y < N)%nat /\ (c < N)%nat /\ ls !! c = ls !! y) ys1 cs1 /\
    Forall2 (fun y c => (y < N)%nat /\ (c < N)%nat /\ ls !! c <> ls !! y) ys2 cs2.
Proof.
  intros Hrun half N. unfold _pair_loops in Hrun.
  apply bind_Ok_inv in Hrun. destruct Hrun as ([] & s0 & H0 & Hrun).
  injection H0 as <-.
  apply bind_Ok_inv in Hrun. destruct Hrun as (N' & s0 & H0 & Hrun).
  injection H0 as <- <-.
  apply bind_Ok_inv in Hrun. destruct Hrun as (ls & s0 & Hls & Hrun).
  assert (Hls' : labels s = (Ok ls, s) /\ s0 = mk (base s) [] [] (rng s)).
  { revert Hls. unfold labels, LabelBatch.labels, zoom. cbn [base].
    intros [= Hl <-]. split; [|reflexivity].
    rewrite Hl. destruct s; reflexivity. }
  destruct Hls' as [Hlabels ->].
  apply bind_Ok_inv in Hrun. destruct Hrun as (half' & s0 & H0 & Hrun).
  injection H0 as <- <-. cbn [base] in Hrun.
  apply bind_Ok_inv in Hrun. destruct Hrun as ([] & s2 & Hsame & Hdiff).
  apply (repeat_appended
           (fun y c => (y < N)%nat /\ (c < N)%nat /\ ls !! c = ls !! y)) in Hsame.
  2:{ intros t t' Ht. destruct (pair_same_Ok_inv _ _ _ _ Ht) as (y & c & ? & ?).
      exists y, c. auto. }
  apply (repeat_appended
           (fun y c => (y < N)%nat /\ (c < N)%nat /\ ls !! c <> ls !! y)) in Hdiff.
  2:{ intros t t' Ht. destruct (pair_diff_Ok_inv _ _ _ _ Ht) as (y & c & ? & ?).
      exists y, c. auto. }
  destruct Hsame as (ys1 & cs1 & (Hb1 & Ha1 & Hc1) & Hl1 & HF1).
  destruct Hdiff as (ys2 & cs2 & (Hb2 & Ha2 & Hc2) & Hl2 & HF2).
  cbn [base _idx_A _idx_B] in Hb1, Ha1, Hc1.
  exists ls, ys1, cs1, ys2, cs2.
  rewrite Hb2, Hb1, Ha2, Ha1, Hc2, Hc1. cbn [app].
  repeat split; auto.
Qed.

(** *** Feasibility: the rounds cannot fail on a well-mixed batch *)

Lemma pair_same_total N ls s :
  (0 < N)%nat ->
  (forall i, (i < N)%nat -> exists j, (j < N)%nat /\ j <> i /\ ls !! j = ls !! i) ->
  exists s', pair_same N ls s = (Ok tt, s').
Proof.
  intros HN Htwo. unfold pair_same. run_step.
  destruct (randint_spec N (rng s) HN) as (y & -> & Hy).
  destruct (Htwo y Hy) as (j & Hj & Hjy & Hlab).
  destruct (list_remove_total y
              (where_ N (fun i => bool_decide (ls !! i = ls !! y)))) as (p & -> & Hp).
  { apply where_In. split; [exact Hy | apply bool_decide_eq_true; reflexivity]. }
  cbn [rng set_rng set_idx_A].
  assert (Hne : p <> []).
  { intros ->. apply (Hp j); [|exact Hjy].
    apply where_In. split; [exact Hj | apply bool_decide_eq_true; exact Hlab]. }
  destruct (choice_spec p (mkRng (tape (rng s)) (Datatypes.S (pos (rng s)))) Hne)
    as (c & -> & _).
  eexists. reflexivity.
Qed.

Lemma pair_diff_total N ls s :
  (0 < N)%nat ->
  (forall i, (i < N)%nat -> exists j, (j < N)%nat /\ ls !! j <> ls !! i) ->
  exists s', pair_diff N ls s = (Ok tt, s').
Proof.
  intros HN Hdiff. unfold pair_diff. run_step.
  destruct (randint_spec N (rng s) HN) as (y & -> & Hy).
  destruct (Hdiff y Hy) as (j & Hj & Hlab).
  cbn [rng set_rng set_idx_A].
  match goal with |- context [choice ?p ?r] =>
    destruct (choice_spec p r) as (c & -> & _) end.
  { intros Hnil.
    assert (Hin : In j (where_ N (fun i => negb (bool_decide (ls !! i = ls !! y))))).
    { apply where_In. split; [exact Hj|].
      apply negb_true_iff, bool_decide_eq_false. exact Hlab. }
    rewrite Hnil in Hin. destruct Hin. }
  eexists. reflexivity.
Qed.

Lemma labels_of_length k l ls :
  LabelBatch.labels_of k l = Ok ls -> length ls = length l.
Proof.
  revert ls. induction l as [|[nm d] l IH]; intros ls; simpl.
  - intros [= <-]. reflexivity.
  - destruct (assoc k (dlabels d)); [|discriminate].
    destruct (LabelBatch.labels_of k l) as [ys|e]; [|discriminate].
    intros [= <-]. simpl. f_equal. apply IH. reflexivity.
Qed.

(** *** The entries of [equals()] *)

(** The entry for the pair [(a, b)]: label equality at the two indices. *)
Definition eq_entry (ls : list label_val) (a b : nat) : Q :=
  if bool_decide (ls !! a = ls !! b) then 1%Q else 0%Q.

Lemma take_idx_in_range {A} (a : list A) idx :
  Forall (fun i => (i < length a)%nat) idx ->
  exists xs, take_idx a idx = Ok xs /\ Forall2 (fun i x => a !! i = Some x) idx xs.
Proof.
  induction 1 as [|i idx Hi _ IH].
  - exists []. split; [reflexivity | constructor].
  - destruct IH as (xs & Hxs & HF).
    destruct (lookup_lt_is_Some_2 a i Hi) as [x Hx].
    exists (x :: xs). simpl. rewrite Hx, Hxs. split; [reflexivity|].
    constructor; assumption.
Qed.

Lemma zip_with_eq_entry (ls : list label_val) ys cs la lb :
  Forall2 (fun i x => ls !! i = Some x) ys la ->
  Forall2 (fun i x => ls !! i = Some x) cs lb ->
  zip_with (fun x y => if bool_decide (x = y) then 1%Q else 0%Q) la lb
  = zip_with (eq_entry ls) ys cs.
Proof.
  intros Hy. revert cs lb.
  induction Hy as [|y x ys la Hx _ IH]; intros cs lb Hc.
  - destruct Hc; reflexivity.
  - destruct Hc as [|c z cs lb Hz Hc]; [reflexivity|].
    simpl. rewrite (IH _ _ Hc). f_equal.
    unfold eq_entry. rewrite Hx, Hz.
    destruct (decide (x = z)) as [->|Hne].
    + rewrite !bool_decide_eq_true_2; auto.
    + rewrite !bool_decide_eq_false_2; congruence.
Qed.

(** [equals()] on a batch whose index lists are in range: the label
    equality of each pair. *)
Lemma equals_in_range s ls :
  labels s = (Ok ls, s) ->
  Forall (fun i => (i < length ls)%nat) (_idx_A s) ->
  Forall (fun i => (i < length ls)%nat) (_idx_B s) ->
  equals s = (Ok (zip_with (eq_entry ls) (_idx_A s) (_idx_B s)), s).
Proof.
  intros Hls HA HB. unfold equals.
  rewrite (bind_Ok _ _ _ _ _ Hls). run_step.
  destruct (take_idx_in_range ls _ HA) as (la & -> & HFa).
  destruct (take_idx_in_range ls _ HB) as (lb & -> & HFb).
  rewrite (zip_with_eq_entry ls _ _ _ _ HFa HFb). reflexivity.
Qed.

Lemma zip_with_same (ls : list label_val) N ys cs :
  Forall2 (fun y c => (y < N)%nat /\ (c < N)%nat /\ ls !! c = ls !! y) ys cs ->
  zip_with (eq_entry ls) ys cs = replicate (length ys) 1%Q.
Proof.
  induction 1 as [|y c ys cs (_ & _ & Heq) _ IH]; [reflexivity|].
  simpl. rewrite IH. f_equal. unfold eq_entry.
  rewrite bool_decide_eq_true_2; auto.
Qed.

Lemma zip_with_diff (ls : list label_val) N ys cs :
  Forall2 (fun y c => (y < N)%nat /\ (c < N)%nat /\ ls !! c <> ls !! y) ys cs ->
  zip_with (eq_entry ls) ys cs = replicate (length ys) 0%Q.
Proof.
  induction 1 as [|y c ys cs (_ & _ & Hne) _ IH]; [reflexivity|].
  simpl. rewrite IH. f_equal. unfold eq_entry.
  rewrite bool_decide_eq_false_2; auto.
Qed.

Lemma Forall2_in_range (P : nat -> nat -> Prop) N ys cs :
  Forall2 (fun y c => (y < N)%nat /\ (c < N)%nat /\ P y c) ys cs ->
  Forall (fun i => (i < N)%nat) ys /\ Forall (fun i => (i < N)%nat) cs.
Proof.
  induction 1 as [|y c ys cs (Hy & Hc & _) _ [IHy IHc]]; split; constructor; auto.
Qed.

Lemma labels_unfold s :
  labels s = (LabelBatch.labels_of (LabelBatch._label_key (base s))
                                   (LabelBatch.items (base s)), s).
Proof. unfold labels, LabelBatch.labels, zoom. destruct s; reflexivity. Qed.

Lemma pair_total s ls :
  labels s = (Ok ls, s) ->
  (forall i, (i < length ls)%nat ->
             exists j, (j < length ls)%nat /\ j <> i /\ ls !! j = ls !! i) ->
  (forall i, (i < length ls)%nat ->
             exists j, (j < length ls)%nat /\ ls !! j <> ls !! i) ->
  (0 < length ls)%nat ->
  exists s', _pair s = (Ok tt, s').
Proof.
  intros Hls Htwo Hdiff Hpos.
  assert (HN : length (LabelBatch.items (base s)) = length ls).
  { rewrite labels_unfold in Hls. injection Hls as Hls.
    symmetry. apply (labels_of_length _ _ _ Hls). }
  assert (Hls0 : labels (mk (base s) [] [] (rng s))
                 = (Ok ls, mk (base s) [] [] (rng s))).
  { rewrite labels_unfold in *. cbn [base]. injection Hls as ->. reflexivity. }
  set (s0 := mk (base s) [] [] (rng s)) in *.
  set (half := Z.to_nat (LabelBatch._batch_size (base s) / 2)).
  destruct (repeat_total (fun _ => True) (pair_same (length ls) ls)) with (k := half) (s := s0)
    as (s1 & H1 & _); [|exact I|].
  { intros t _. destruct (pair_same_total (length ls) ls t Hpos Htwo) as (t' & Ht').
    exists t'. auto. }
  destruct (repeat_total (fun _ => True) (pair_diff (length ls) ls)) with (k := half) (s := s1)
    as (s2 & H2 & _); [|exact I|].
  { intros t _. destruct (pair_diff_total (length ls) ls t Hpos Hdiff) as (t' & Ht').
    exists t'. auto. }
  assert (Hloops : _pair_loops s = (Ok tt, s2)).
  { unfold _pair_loops.
    rewrite (bind_Ok _ _ s tt s0) by reflexivity.
    rewrite (bind_Ok _ _ s0 (length ls) s0) by (unfold gets; cbn [base s0]; rewrite HN; reflexivity).
    rewrite (bind_Ok _ _ _ _ _ Hls0).
    rewrite (bind_Ok _ _ s0 half s0) by reflexivity.
    rewrite (bind_Ok _ _ _ _ _ H1). exact H2. }
  unfold _pair. rewrite (bind_Ok _ _ _ _ _ Hloops).
  eexists. reflexivity.
Qed.

(** Two members of every label, by index. *)
Lemma count_occ_two_other (ls : list label_val) l :
  (2 <= count_occ label_val_eq_dec ls l)%nat ->
  forall i, exists j, j <> i /\ ls !! j = Some l.
Proof.
  induction ls as [|x ls IH]; simpl; [lia|].
  destruct (label_val_eq_dec x l) as [->|Hne]; intros Hc i.
  - assert (Hin : In l ls) by (apply (count_occ_In label_val_eq_dec); lia).
    apply list_elem_of_In, list_elem_of_lookup in Hin. destruct Hin as [j' Hj'].
    destruct i as [|i].
    + exists (Datatypes.S j'). split; [lia | exact Hj'].
    + exists O. split; [lia | reflexivity].
  - destruct (IH Hc (Nat.pred i)) as (j' & Hj' & Hl).
    exists (Datatypes.S j'). split; [lia | exact Hl].
Qed.

(** C10: when the pairing pass completes, [idx_A] and [idx_B] have the
    same length before the truncation and after it, the truncation to
    [M = min(len(idx_A), len(idx_B))] removes nothing, and the common
    length is [2 * (batch_size // 2)]: for an odd [batch_size] that is
    [batch_size - 1] pairs. *)
Theorem pair_lengths (s s' : PairedBatch.t) :
  0 <= LabelBatch._batch_size (base s) ->
  _pair s = (Ok tt, s') ->
  exists s1,
    _pair_loops s = (Ok tt, s1) /\
    length (_idx_A s1) = length (_idx_B s1) /\
    _idx_A s' = _idx_A s1 /\ _idx_B s' = _idx_B s1 /\
    length (_idx_A s') = length (_idx_B s') /\
    Z.of_nat (length (_idx_A s')) = 2 * (LabelBatch._batch_size (base s) / 2) /\
    (Z.odd (LabelBatch._batch_size (base s)) = true ->
     Z.of_nat (length (_idx_A s')) = LabelBatch._batch_size (base s) - 1).
Proof.
  intros Hbs Hrun. unfold _pair in Hrun.
  apply bind_Ok_inv in Hrun. destruct Hrun as ([] & s1 & Hloops & Htrunc).
  exists s1. split; [exact Hloops|].
  destruct (pair_loops_Ok_inv _ _ Hloops)
    as (ls & ys1 & cs1 & ys2 & cs2 & _ & _ & HA & HB & Hl1 & Hl2 & HF1 & HF2).
  apply Forall2_length in HF1, HF2.
  assert (Hlen : length (_idx_A s1) = length (_idx_B s1)).
  { rewrite HA, HB, !length_app. lia. }
  assert (HtA : firstn (Nat.min (length (_idx_A s1)) (length (_idx_B s1))) (_idx_A s1)
                = _idx_A s1).
  { rewrite <- Hlen, Nat.min_id. apply firstn_all. }
  assert (HtB : firstn (Nat.min (length (_idx_A s1)) (length (_idx_B s1))) (_idx_B s1)
                = _idx_B s1).
  { rewrite Hlen, Nat.min_id. apply firstn_all. }
  unfold _pair_truncate, modify in Htrunc. injection Htrunc as <-.
  cbn [_idx_A _idx_B]. rewrite HtA, HtB.
  repeat split; auto.
  - rewrite HA, length_app, Hl1, Hl2.
    pose proof (Z.div_pos (LabelBatch._batch_size (base s)) 2 Hbs ltac:(lia)). lia.
  - intros Hodd. rewrite HA, length_app, Hl1, Hl2.
    pose proof (Z.div_pos (LabelBatch._batch_size (base s)) 2 Hbs ltac:(lia)).
    pose proof (Z.div_mod (LabelBatch._batch_size (base s)) 2 ltac:(lia)) as Hdm.
    rewrite Zmod_odd, Hodd in Hdm. lia.
Qed.


End PairedBatchFacts.

(** ** File: links, [get] and [add] *)

Section AssocFacts.
Context {A : Type}.
Implicit Types (l : list (string * A)) (k : string).

Lemma mem_true_iff k l : mem k l = true <-> In k (map fst l).
Proof.
  unfold mem. induction l as [|[k' a] l IH]; simpl.
  - split; [discriminate | tauto].
  - destruct (String.eqb_spec k k') as [->|Hne].
    + split; auto.
    + rewrite IH. split; [auto | intros [?|?]; [congruence | auto]].
Qed.

Lemma mem_false_iff k l : mem k l = false <-> ~ In k (map fst l).
Proof.
  rewrite <- mem_true_iff. destruct (mem k l); split; congruence || auto.
Qed.

Lemma mem_app k l1 l2 : mem k (l1 ++ l2) = (mem k l1 || mem k l2)%bool.
Proof.
  unfold mem. induction l1 as [|[k' a] l1 IH]; simpl.
  - destruct (assoc k l2); reflexivity.
  - destruct (String.eqb k k'); [reflexivity | exact IH].
Qed.

Lemma assoc_app_r k l1 l2 :
  mem k l1 = false -> assoc k (l1 ++ l2) = assoc k l2.
Proof.
  unfold mem. induction l1 as [|[k' a] l1 IH]; simpl; [reflexivity|].
  destruct (String.eqb k k'); [discriminate | exact IH].
Qed.

Lemma assoc_app_l k l1 l2 a :
  assoc k l1 = Some a -> assoc k (l1 ++ l2) = Some a.
Proof.
  induction l1 as [|[k' a'] l1 IH]; simpl; [discriminate|].
  destruct (String.eqb k k'); [auto | exact IH].
Qed.

Lemma assoc_In k l a : assoc k l = Some a -> In (k, a) l.
Proof.
  induction l as [|[k' a'] l IH]; simpl; [discriminate|].
  destruct (String.eqb_spec k k') as [->|Hne].
  - intros [= ->]. left. reflexivity.
  - intros Ha. right. apply IH, Ha.
Qed.

Lemma In_assoc k l a : NoDup (map fst l) -> In (k, a) l -> assoc k l = Some a.
Proof.
  induction l as [|[k' a'] l IH]; simpl; [intros _ []|].
  intros Hnd [Heq|Hin]; apply NoDup_cons in Hnd as [Hk' Hnd].
  - injection Heq as -> ->. rewrite String.eqb_refl. reflexivity.
  - destruct (String.eqb_spec k k') as [->|Hne]; [|apply IH; auto].
    exfalso. apply Hk', list_elem_of_In, in_map_iff. exists (k', a). auto.
Qed.

End AssocFacts.

(** ** Names *)

Section NameFacts.

Lemma append_cons (x : ascii) (a b : string) :
  String x a +:+ b = String x (a +:+ b).
Proof. reflexivity. Qed.

Lemma append_nil_l (a : string) : "" +:+ a = a.
Proof. reflexivity. Qed.

Lemma prefix_app a b :
  starts_with a b = true <-> exists t, b = a +:+ t.
Proof.
  revert b. induction a as [|c a IH]; intros b; cbn [starts_with].
  - split; [intros _; exists b; reflexivity | reflexivity].
  - destruct b as [|c' b]; [split; [discriminate | intros [t Ht]; discriminate]|].
    rewrite andb_true_iff, IH. split.
    + intros [Hc [t ->]]. apply Ascii.eqb_eq in Hc. subst c'. exists t. reflexivity.
    + intros [t Ht]. rewrite append_cons in Ht. injection Ht as -> ->.
      split; [apply Ascii.eqb_refl | exists t; reflexivity].
Qed.

Lemma append_assoc (a b c : string) : (a +:+ b) +:+ c = a +:+ (b +:+ c).
Proof.
  induction a as [|x a IH]; [reflexivity|].
  rewrite !append_cons. f_equal. exact IH.
Qed.

Lemma append_nil_r (a : string) : a +:+ "" = a.
Proof.
  induction a as [|x a IH]; [reflexivity|].
  rewrite append_cons. f_equal. exact IH.
Qed.

Lemma length_append (a b : string) :
  String.length (a +:+ b) = (String.length a + String.length b)%nat.
Proof.
  induction a as [|x a IH]; [reflexivity|].
  rewrite append_cons. cbn [String.length]. rewrite IH. reflexivity.
Qed.

Lemma below_spec p n : below p n = true <-> exists t, n = p +:+ "/" +:+ t.
Proof.
  unfold below. rewrite prefix_app. split; intros [t Ht]; exists t.
  - rewrite Ht. apply append_assoc.
  - rewrite Ht. symmetry. apply append_assoc.
Qed.

Lemma below_trans a b c : below a b = true -> below b c = true -> below a c = true.
Proof.
  rewrite !below_spec. intros [t ->] [u ->]. exists (t +:+ "/" +:+ u).
  rewrite !append_assoc. reflexivity.
Qed.

Lemma below_longer p n : below p n = true -> (String.length p < String.length n)%nat.
Proof.
  rewrite below_spec. intros [t ->]. rewrite !length_append.
  cbn [String.length]. lia.
Qed.

Lemma below_irrefl n : below n n = false.
Proof.
  destruct (below n n) eqn:Hb; [|reflexivity].
  apply below_longer in Hb. lia.
Qed.

Lemma at_or_below_refl k : at_or_below k k = true.
Proof. unfold at_or_below. rewrite String.eqb_refl. reflexivity. Qed.

Lemma at_or_below_trans a b c :
  at_or_below a b = true -> below b c = true -> below a c = true.
Proof.
  unfold at_or_below. intros Hab Hbc. apply orb_true_iff in Hab as [Heq|Hab].
  - apply String.eqb_eq in Heq. subst b. exact Hbc.
  - exact (below_trans _ _ _ Hab Hbc).
Qed.

Lemma In_ancestors_from p rest : forall done,
  In p (ancestors_from done rest) <->
  exists x t, rest = x +:+ "/" +:+ t /\ p = done +:+ x.
Proof.
  induction rest as [|c rest IH]; intros done; cbn [ancestors_from].
  - split; [intros [] | intros (x & t & Hr & _)].
    destruct x; discriminate.
  - assert (Hstep : In p (ancestors_from (done +:+ String c "") rest) <->
                    exists x t, String c rest = String c x +:+ "/" +:+ t /\
                                p = done +:+ String c x).
    { rewrite IH. split; intros (x & t & Hr & Hp); exists x, t.
      - split; [rewrite append_cons, Hr; reflexivity|].
        rewrite Hp, append_assoc. reflexivity.
      - split; [rewrite append_cons in Hr; injection Hr as ->; reflexivity|].
        rewrite Hp, append_assoc. reflexivity. }
    destruct (Ascii.eqb_spec c "/"%char) as [->|Hne].
    + cbn [In]. rewrite Hstep. split.
      * intros [<-|(x & t & Hr & Hp)].
        -- exists "", rest. split; [reflexivity | symmetry; apply append_nil_r].
        -- exists (String "/" x), t. auto.
      * intros (x & t & Hr & Hp). destruct x as [|c' x].
        -- left. rewrite Hp. symmetry. apply append_nil_r.
        -- right. rewrite append_cons in Hr. injection Hr as <- Hr.
           exists x, t. split; [rewrite append_cons, Hr; reflexivity | exact Hp].
    + rewrite Hstep. split.
      * intros (x & t & Hr & Hp). exists (String c x), t. auto.
      * intros (x & t & Hr & Hp). destruct x as [|c' x].
        -- rewrite append_nil_l in Hr. injection Hr as Hc _. congruence.
        -- rewrite append_cons in Hr. injection Hr as <- Hr.
           exists x, t. split; [rewrite append_cons, Hr; reflexivity | exact Hp].
Qed.

(** The ancestors of a name are the groups it lies below. *)
Lemma In_ancestors p n : In p (ancestors n) <-> below p n = true.
Proof.
  unfold ancestors. rewrite In_ancestors_from, below_spec. split.
  - intros (x & t & -> & ->). exists t. reflexivity.
  - intros [t ->]. exists p, t. auto.
Qed.

Lemma ancestor_not_below k p :
  In p (ancestors k) -> at_or_below k p = false.
Proof.
  intros Hp. apply In_ancestors, below_longer in Hp.
  unfold at_or_below. apply orb_false_iff. split.
  - apply String.eqb_neq. intros ->. lia.
  - destruct (below k p) eqn:Hb; [|reflexivity].
    apply below_longer in Hb. lia.
Qed.

End NameFacts.

(** ** Links: insertion, removal, groups *)

Section LinkFacts.
Context {A : Type}.
Implicit Types (l : list (string * A)) (e : string * A) (k n : string).

Lemma insert_link_split e l :
  exists l1 l2, l = l1 ++ l2 /\ insert_link e l = l1 ++ e :: l2.
Proof.
  induction l as [|e' l IH]; cbn [insert_link].
  - exists [], []. auto.
  - destruct (walks_before (fst e) (fst e')).
    + exists [], (e' :: l). auto.
    + destruct IH as (l1 & l2 & -> & ->). exists (e' :: l1), l2. auto.
Qed.

Lemma insert_link_Permutation e l : Permutation (insert_link e l) (e :: l).
Proof.
  destruct (insert_link_split e l) as (l1 & l2 & -> & ->).
  symmetry. apply Permutation_middle.
Qed.

Lemma In_insert_link e e' l : In e' (insert_link e l) <-> e' = e \/ In e' l.
Proof.
  destruct (insert_link_split e l) as (l1 & l2 & -> & ->).
  rewrite !in_app_iff. cbn [In]. intuition auto.
Qed.

Lemma mem_insert_link k n (a : A) l :
  mem k (insert_link (n, a) l) = (String.eqb k n || mem k l)%bool.
Proof.
  destruct (insert_link_split (n, a) l) as (l1 & l2 & -> & ->).
  rewrite !mem_app. unfold mem at 2. cbn [assoc].
  destruct (String.eqb k n); cbn [orb].
  - rewrite orb_true_r. reflexivity.
  - reflexivity.
Qed.

Lemma assoc_insert_link_ne k n (a : A) l :
  k <> n -> assoc k (insert_link (n, a) l) = assoc k l.
Proof.
  intros Hne. induction l as [|[k' a'] l IH]; cbn [insert_link fst].
  - cbn [assoc]. destruct (String.eqb_spec k n); [congruence | reflexivity].
  - destruct (walks_before n k'); cbn [assoc].
    + destruct (String.eqb_spec k n); [congruence | reflexivity].
    + rewrite IH. reflexivity.
Qed.

Lemma assoc_insert_link_eq n (a : A) l :
  mem n l = false -> assoc n (insert_link (n, a) l) = Some a.
Proof.
  unfold mem. induction l as [|[k' a'] l IH]; cbn [insert_link fst assoc].
  - rewrite String.eqb_refl. reflexivity.
  - destruct (String.eqb_spec n k') as [->|Hne]; [discriminate|]. intros Hm.
    destruct (walks_before n k'); cbn [assoc].
    + rewrite String.eqb_refl. reflexivity.
    + destruct (String.eqb_spec n k'); [congruence | apply IH, Hm].
Qed.

Lemma filter_insert_link_drop (P : string * A -> bool) e l :
  P e = false -> List.filter P (insert_link e l) = List.filter P l.
Proof.
  intros HP. destruct (insert_link_split e l) as (l1 & l2 & -> & ->).
  rewrite !List.filter_app. cbn [List.filter]. rewrite HP. reflexivity.
Qed.

Lemma map_insert_link (g : string * A -> string * A) e l :
  (forall x, fst (g x) = fst x) ->
  map g (insert_link e l) = insert_link (g e) (map g l).
Proof.
  intros Hg. induction l as [|e' l IH]; cbn [insert_link map]; [reflexivity|].
  rewrite !Hg. destruct (walks_before (fst e) (fst e')); cbn [map]; [reflexivity|].
  rewrite IH. reflexivity.
Qed.

Lemma NoDup_insert_link n (a : A) l :
  mem n l = false -> NoDup (map fst l) -> NoDup (map fst (insert_link (n, a) l)).
Proof.
  intros Hm Hnd.
  apply (NoDup_Permutation_proper _ _ (Permutation_map fst (insert_link_Permutation (n, a) l))).
  cbn [map fst]. apply NoDup_cons. split; [|exact Hnd].
  rewrite list_elem_of_In. apply mem_false_iff, Hm.
Qed.

(** *** [unlink] *)

Lemma In_unlink k l e : In e (unlink k l) <-> In e l /\ at_or_below k (fst e) = false.
Proof.
  unfold unlink. rewrite List.filter_In, negb_true_iff. reflexivity.
Qed.

Lemma assoc_unlink k n l :
  assoc n (unlink k l) = if at_or_below k n then None else assoc n l.
Proof.
  unfold unlink. induction l as [|[k' a'] l IH]; cbn [List.filter fst assoc].
  - destruct (at_or_below k n); reflexivity.
  - destruct (at_or_below k k') eqn:Hk'; cbn [negb assoc].
    + rewrite IH. destruct (String.eqb_spec n k') as [->|Hne]; [|reflexivity].
      rewrite Hk'. reflexivity.
    + rewrite IH. destruct (String.eqb_spec n k') as [->|Hne]; [|reflexivity].
      rewrite Hk'. reflexivity.
Qed.

Lemma mem_unlink k n l :
  mem n (unlink k l) = (negb (at_or_below k n) && mem n l)%bool.
Proof.
  unfold mem. rewrite assoc_unlink. destruct (at_or_below k n); reflexivity.
Qed.

Lemma unlink_id k l :
  (forall e, In e l -> at_or_below k (fst e) = false) -> unlink k l = l.
Proof.
  intros Hall. unfold unlink. induction l as [|e l IH]; [reflexivity|].
  cbn [List.filter]. rewrite (Hall e) by (left; reflexivity). cbn [negb].
  f_equal. apply IH. intros e' He'. apply Hall. right. exact He'.
Qed.

Lemma NoDup_unlink k l : NoDup (map fst l) -> NoDup (map fst (unlink k l)).
Proof.
  unfold unlink. induction l as [|e l IH]; cbn [List.filter map]; [auto|].
  intros Hnd. apply NoDup_cons in Hnd as [He Hnd].
  destruct (negb (at_or_below k (fst e))); [|auto].
  cbn [map]. apply NoDup_cons. split; [|auto].
  rewrite list_elem_of_In, in_map_iff. intros (e' & Hfst & Hin).
  apply List.filter_In in Hin as [Hin _].
  apply He. rewrite list_elem_of_In, in_map_iff. exists e'. auto.
Qed.

Lemma unlink_insert_link k n (a : A) l :
  at_or_below k n = true -> unlink k (insert_link (n, a) l) = unlink k l.
Proof.
  intros Hk. unfold unlink. apply filter_insert_link_drop.
  cbn [fst]. rewrite Hk. reflexivity.
Qed.

Lemma unlink_comm k n l : unlink k (unlink n l) = unlink n (unlink k l).
Proof.
  unfold unlink. induction l as [|e l IH]; [reflexivity|]. cbn [List.filter].
  destruct (at_or_below n (fst e)) eqn:Hn; destruct (at_or_below k (fst e)) eqn:Hk;
    cbn [negb List.filter]; rewrite ?Hn, ?Hk; cbn [negb]; congruence.
Qed.

End LinkFacts.

(** *** The groups on the way to a link *)

Section GroupFacts.
Import File.
Implicit Types (d : list (string * h5obj)) (ps : list string).

Lemma with_groups_cons p ps d :
  with_groups (p :: ps) d
  = with_groups ps (if mem p d then d else insert_link (p, H5Group) d).
Proof. reflexivity. Qed.

Lemma In_with_groups ps : forall d e,
  In e (with_groups ps d) <->
  In e d \/ (snd e = H5Group /\ In (fst e) ps /\ mem (fst e) d = false).
Proof.
  induction ps as [|p ps IH]; intros d e.
  - cbn [with_groups fold_left In]. tauto.
  - rewrite with_groups_cons, IH. destruct (mem p d) eqn:Hp.
    + split.
      * intros [?|(? & ? & ?)]; [left | right]; cbn [In]; auto.
      * intros [?|(Hs & [Heq|Hin] & Hm)]; auto.
        subst p. congruence.
    + rewrite In_insert_link, mem_insert_link. split.
      * intros [[->|?]|(Hs & Hin & Hm)]; auto.
        -- right. cbn [fst snd In]. auto.
        -- apply orb_false_iff in Hm as [_ Hm]. right. cbn [In]. auto.
      * intros [?|(Hs & [Heq|Hin] & Hm)]; auto.
        -- left. left. destruct e as [n o]. cbn [fst snd] in *. subst. reflexivity.
        -- destruct (String.eqb_spec (fst e) p) as [Heq|Hne].
           ++ left. left. destruct e as [n o]. cbn [fst snd] in *. subst. reflexivity.
           ++ right. rewrite Hm. cbn [orb]. auto.
Qed.

Lemma mem_with_groups ps : forall d n,
  mem n (with_groups ps d) = true <-> mem n d = true \/ In n ps.
Proof.
  induction ps as [|p ps IH]; intros d n.
  - cbn [with_groups fold_left In]. tauto.
  - rewrite with_groups_cons, IH. cbn [In]. destruct (mem p d) eqn:Hp.
    + split; [tauto|]. intros [?|[<-|?]]; auto.
    + rewrite mem_insert_link, orb_true_iff, String.eqb_eq. intuition auto.
Qed.

Lemma assoc_with_groups ps : forall d n o,
  assoc n d = Some o -> assoc n (with_groups ps d) = Some o.
Proof.
  induction ps as [|p ps IH]; intros d n o Hn; [exact Hn|].
  rewrite with_groups_cons. apply IH. destruct (mem p d) eqn:Hp; [exact Hn|].
  rewrite assoc_insert_link_ne; [exact Hn|].
  intros ->. unfold mem in Hp. rewrite Hn in Hp. discriminate.
Qed.

Lemma assoc_with_groups_inv ps : forall d n o,
  assoc n (with_groups ps d) = Some o ->
  assoc n d = Some o \/ (o = H5Group /\ In n ps /\ mem n d = false).
Proof.
  induction ps as [|p ps IH]; intros d n o Hn; [left; exact Hn|].
  rewrite with_groups_cons in Hn. apply IH in Hn.
  destruct (mem p d) eqn:Hp.
  - destruct Hn as [?|(? & ? & ?)]; [left | right]; cbn [In]; auto.
  - destruct (String.eqb_spec n p) as [->|Hne].
    + rewrite assoc_insert_link_eq in Hn by exact Hp. rewrite mem_insert_link in Hn.
      rewrite String.eqb_refl in Hn. cbn [orb] in Hn.
      destruct Hn as [[= <-]|(_ & _ & Hf)]; [|discriminate].
      right. cbn [In]. auto.
    + rewrite assoc_insert_link_ne, mem_insert_link in Hn by exact Hne.
      destruct Hn as [?|(? & ? & Hm)]; [left; auto|].
      apply orb_false_iff in Hm as [_ Hm]. right. cbn [In]. auto.
Qed.

Lemma NoDup_with_groups ps : forall d,
  NoDup (map fst d) -> NoDup (map fst (with_groups ps d)).
Proof.
  induction ps as [|p ps IH]; intros d Hnd; [exact Hnd|].
  rewrite with_groups_cons. apply IH. destruct (mem p d) eqn:Hp; [exact Hnd|].
  apply NoDup_insert_link; assumption.
Qed.

Lemma filter_with_groups (P : string * h5obj -> bool) ps : forall d,
  (forall p, In p ps -> P (p, H5Group) = false) ->
  List.filter P (with_groups ps d) = List.filter P d.
Proof.
  induction ps as [|p ps IH]; intros d HP; [reflexivity|].
  rewrite with_groups_cons, IH by (intros q Hq; apply HP; right; exact Hq).
  destruct (mem p d); [reflexivity|].
  apply filter_insert_link_drop, HP. left. reflexivity.
Qed.

Lemma with_groups_nil d : with_groups [] d = d.
Proof. reflexivity. Qed.

End GroupFacts.

(** *** The order of the walk *)

(** The names are in the order of the walk. *)
Definition in_walk_order (names : list string) : Prop :=
  StronglySorted (fun a b => walks_before a b = true) names.

Section WalkOrder.

Lemma ascii_compare_trans a b c :
  Ascii.compare a b = Lt -> Ascii.compare b c = Lt -> Ascii.compare a c = Lt.
Proof.
  unfold Ascii.compare. rewrite !N.compare_lt_iff. apply N.lt_trans.
Qed.

Lemma string_compare_refl a : String.compare a a = Eq.
Proof.
  pose proof (String.compare_antisym a a) as Hc.
  destruct (String.compare a a); [reflexivity | discriminate | discriminate].
Qed.

Lemma string_compare_trans a : forall b c,
  String.compare a b = Lt -> String.compare b c = Lt -> String.compare a c = Lt.
Proof.
  induction a as [|x a IH]; intros [|y b] [|z c]; cbn [String.compare];
    try discriminate; try reflexivity.
  destruct (Ascii.compare x y) eqn:Hxy; try discriminate;
    destruct (Ascii.compare y z) eqn:Hyz; try discriminate; intros Hab Hbc.
  - apply Ascii.compare_eq_iff in Hxy, Hyz. subst y z.
    assert (Hxx : Ascii.compare x x = Eq)
      by (unfold Ascii.compare; apply N.compare_refl).
    rewrite Hxx. eapply IH; eassumption.
  - apply Ascii.compare_eq_iff in Hxy. subst y. rewrite Hyz. reflexivity.
  - apply Ascii.compare_eq_iff in Hyz. subst z. rewrite Hxy. reflexivity.
  - rewrite (ascii_compare_trans _ _ _ Hxy Hyz). reflexivity.
Qed.

Lemma path_lt_irrefl p : path_lt p p = false.
Proof.
  induction p as [|a p IH]; [reflexivity|].
  cbn [path_lt]. rewrite string_compare_refl. exact IH.
Qed.

Lemma path_lt_trans p : forall q r,
  path_lt p q = true -> path_lt q r = true -> path_lt p r = true.
Proof.
  induction p as [|a p IH]; intros [|b q] [|c r]; cbn [path_lt];
    try discriminate; try reflexivity.
  destruct (String.compare a b) eqn:Hab; try discriminate;
    destruct (String.compare b c) eqn:Hbc; try discriminate; intros Hpq Hqr.
  - apply String.compare_eq_iff in Hab, Hbc. subst b c.
    rewrite string_compare_refl. eapply IH; eassumption.
  - apply String.compare_eq_iff in Hab. subst b. rewrite Hbc. reflexivity.
  - apply String.compare_eq_iff in Hbc. subst c. rewrite Hab. reflexivity.
  - rewrite (string_compare_trans _ _ _ Hab Hbc). reflexivity.
Qed.

Lemma path_lt_total p : forall q,
  path_lt p q = false -> path_lt q p = false -> p = q.
Proof.
  induction p as [|a p IH]; intros [|b q]; cbn [path_lt];
    try discriminate; try reflexivity.
  rewrite (String.compare_antisym b a).
  destruct (String.compare a b) eqn:Hab; cbn [CompOpp]; intros Hpq Hqp;
    try discriminate.
  apply String.compare_eq_iff in Hab. subst b.
  f_equal. apply IH; assumption.
Qed.

(** A name is its components put together again. *)
Fixpoint join (l : list string) : string :=
  match l with
  | [] => ""
  | x :: l' => match l' with [] => x | _ :: _ => x +:+ "/" +:+ join l' end
  end.

Lemma components_from_cons cur rest :
  exists x l, components_from cur rest = x :: l.
Proof.
  revert cur. induction rest as [|c rest IH]; intros cur; cbn [components_from].
  - eauto.
  - destruct (Ascii.eqb c "/"%char); [eauto | apply IH].
Qed.

Lemma join_components_from rest : forall cur,
  join (components_from cur rest) = cur +:+ rest.
Proof.
  induction rest as [|c rest IH]; intros cur; cbn [components_from].
  - cbn [join]. symmetry. apply append_nil_r.
  - destruct (Ascii.eqb_spec c "/"%char) as [->|Hc].
    + destruct (components_from_cons "" rest) as (x & l & Hx).
      pose proof (IH "") as Hj. rewrite Hx in *. cbn [join].
      cbn [join] in Hj. rewrite Hj, append_nil_l. reflexivity.
    + rewrite IH, append_assoc, append_cons, append_nil_l. reflexivity.
Qed.

Lemma components_inj a b : components a = components b -> a = b.
Proof.
  intros Heq. pose proof (join_components_from a "") as Ha.
  pose proof (join_components_from b "") as Hb.
  fold (components a) in Ha. fold (components b) in Hb.
  rewrite append_nil_l in Ha, Hb. congruence.
Qed.

Lemma walks_before_irrefl n : walks_before n n = false.
Proof. apply path_lt_irrefl. Qed.

Lemma walks_before_trans a b c :
  walks_before a b = true -> walks_before b c = true -> walks_before a c = true.
Proof. apply path_lt_trans. Qed.

Lemma walks_before_total a b :
  a <> b -> walks_before a b = false -> walks_before b a = true.
Proof.
  intros Hne Hab. destruct (walks_before b a) eqn:Hba; [reflexivity|].
  exfalso. apply Hne, components_inj, path_lt_total; assumption.
Qed.

Context {A : Type}.
Implicit Types (l : list (string * A)) (e : string * A) (k n : string).

(** A new link goes to its place, and the walk stays in order. *)
Lemma insert_link_in_order e l :
  ~ In (fst e) (map fst l) ->
  in_walk_order (map fst l) -> in_walk_order (map fst (insert_link e l)).
Proof.
  unfold in_walk_order.
  induction l as [|e' l IH]; intros Hnew Hs; cbn [insert_link map].
  - constructor; constructor.
  - cbn [map] in Hs, Hnew. apply StronglySorted_inv in Hs as [Hs Hall].
    destruct (walks_before (fst e) (fst e')) eqn:Hw; cbn [map].
    + constructor; [constructor; assumption|].
      constructor; [exact Hw|].
      eapply List.Forall_impl; [|exact Hall].
      intros n Hn. cbv beta in *. eapply walks_before_trans; eassumption.
    + constructor; [apply IH; [intros Hin; apply Hnew; right; exact Hin | exact Hs]|].
      apply List.Forall_forall. intros n Hn.
      apply in_map_iff in Hn as (x & <- & Hx). apply In_insert_link in Hx as [-> | Hx].
      * apply walks_before_total; [|exact Hw].
        intros Heq. apply Hnew. left. symmetry. exact Heq.
      * rewrite List.Forall_forall in Hall. apply Hall, in_map, Hx.
Qed.

(** Taking links away leaves the walk in order. *)
Lemma filter_in_order (P : string * A -> bool) l :
  in_walk_order (map fst l) -> in_walk_order (map fst (List.filter P l)).
Proof.
  unfold in_walk_order. induction l as [|e l IH]; intros Hs; [constructor|].
  cbn [map] in Hs. apply StronglySorted_inv in Hs as [Hs Hall].
  cbn [List.filter]. destruct (P e); [|apply IH, Hs].
  cbn [map]. constructor; [apply IH, Hs|].
  apply List.Forall_forall. intros n Hn.
  apply in_map_iff in Hn as (x & <- & Hx). apply List.filter_In in Hx as [Hx _].
  rewrite List.Forall_forall in Hall. apply Hall, in_map, Hx.
Qed.

Lemma unlink_in_order k l :
  in_walk_order (map fst l) -> in_walk_order (map fst (unlink k l)).
Proof. apply filter_in_order. Qed.

(** A walk in order meets no name twice. *)
Lemma in_order_NoDup (names : list string) : in_walk_order names -> NoDup names.
Proof.
  induction 1 as [|n names _ IH Hall]; constructor; [|exact IH].
  intros Hin. rewrite List.Forall_forall in Hall.
  apply list_elem_of_In, Hall in Hin. rewrite walks_before_irrefl in Hin. discriminate.
Qed.

End WalkOrder.

Lemma with_groups_in_order ps : forall d : list (string * h5obj),
  in_walk_order (map fst d) -> in_walk_order (map fst (File.with_groups ps d)).
Proof.
  induction ps as [|p ps IH]; intros d Hs; [exact Hs|].
  rewrite with_groups_cons. apply IH.
  destruct (mem p d) eqn:Hm; [exact Hs|].
  apply insert_link_in_order; [apply mem_false_iff, Hm | exact Hs].
Qed.
Section FileFacts.
Context `{Collaborators}.
Import File.

(** [if k in self: del self[k]] on the links. *)
Definition drop_table (k : string) (d : list (string * h5obj)) : list (string * h5obj) :=
  if mem k d then unlink k d else d.

(** The links left when the reserved entries that are in the file are
    deleted. *)
Definition cleared_disk (d : list (string * h5obj)) : list (string * h5obj) :=
  drop_table INDEX_TABLE (drop_table LABEL_ENUM (drop_table KEY_MANIFEST d)).

Lemma when_unlink k f :
  bind (contains k) (fun b => when b (modify (fun f => set_disk (unlink k (disk f)) f))) f
  = (Ok tt, set_disk (drop_table k (disk f)) f).
Proof.
  unfold bind, contains, gets, when, modify, ret, drop_table.
  destruct (mem k (disk f)) eqn:Hm; [reflexivity|].
  destruct f; reflexivity.
Qed.

Lemma clear_persistent_run f :
  _clear_persistent_tables f = (Ok tt, mk (cleared_disk (disk f)) [] ∅ None).
Proof.
  unfold _clear_persistent_tables.
  rewrite (bind_Ok _ _ f tt (mk (disk f) [] ∅ None)) by reflexivity.
  cbn [for_each].
  rewrite (bind_Ok _ _ _ _ _ (when_unlink _ _)).
  rewrite (bind_Ok _ _ _ _ _ (when_unlink _ _)).
  rewrite (bind_Ok _ _ _ _ _ (when_unlink _ _)).
  reflexivity.
Qed.

(** Deleting tables never brings a link into the file, and leaves the
    links that are neither a table nor below one as they are. *)
Lemma assoc_drop_table k n d :
  assoc n (drop_table k d) = assoc n d \/ assoc n (drop_table k d) = None.
Proof.
  unfold drop_table. destruct (mem k d); [|left; reflexivity].
  rewrite assoc_unlink. destruct (at_or_below k n); auto.
Qed.

Lemma assoc_drop_table_keep k n d :
  at_or_below k n = false -> assoc n (drop_table k d) = assoc n d.
Proof.
  intros Hk. unfold drop_table. destruct (mem k d); [|reflexivity].
  rewrite assoc_unlink, Hk. reflexivity.
Qed.

Lemma In_drop_table k d e : In e (drop_table k d) -> In e d.
Proof.
  unfold drop_table. destruct (mem k d); [|auto]. intros He.
  apply In_unlink in He. tauto.
Qed.

Lemma In_cleared d e : In e (cleared_disk d) -> In e d.
Proof. intros He. do 3 apply In_drop_table in He. exact He. Qed.

Lemma assoc_cleared_sub n d o : assoc n (cleared_disk d) = Some o -> assoc n d = Some o.
Proof.
  unfold cleared_disk. intros Ho.
  repeat match type of Ho with
  | assoc n (drop_table ?k ?d') = Some o =>
      destruct (assoc_drop_table k n d') as [Heq|Heq]; rewrite Heq in Ho;
        [|discriminate]; clear Heq
  end.
  exact Ho.
Qed.

Lemma mem_cleared k d : mem k d = false -> mem k (cleared_disk d) = false.
Proof.
  unfold mem. intros Hm. destruct (assoc k (cleared_disk d)) as [o|] eqn:Ho; [|reflexivity].
  apply assoc_cleared_sub in Ho. rewrite Ho in Hm. discriminate.
Qed.

Lemma NoDup_drop_table k d : NoDup (map fst d) -> NoDup (map fst (drop_table k d)).
Proof. unfold drop_table. destruct (mem k d); [apply NoDup_unlink | auto]. Qed.

Lemma NoDup_cleared d : NoDup (map fst d) -> NoDup (map fst (cleared_disk d)).
Proof. intros Hnd. do 3 apply NoDup_drop_table. exact Hnd. Qed.


(** *** What [add] writes *)

(** One step of the loop over the attributes, on the attribute mapping
    of the new dataset. *)
Definition write_step (a : gmap string attr_value) (kv : string * attr_value)
  : gmap string attr_value :=
  if is_numeric (snd kv) then <[fst kv := snd kv]> a
  else if truthy (snd kv) then <[fst kv := snd kv]> a
  else a.

(** The attributes [add] leaves on the dataset. *)
Definition written_attrs (m : gmap string attr_value) : gmap string attr_value :=
  fold_left write_step (map_to_list m) ∅.

(** The dataset [add(key, data)] leaves in the file. *)
Definition stored (key : string) (data : Dataset) : Dataset :=
  mkDataset (cleanse key) (value data) (written_attrs (partition_attrs (attrs data))).

(** Every attribute [add] writes is one h5py can store. *)
Definition writable_attrs (m : gmap string attr_value) : bool :=
  forallb (fun kv : string * attr_value =>
             implb (is_numeric (snd kv) || truthy (snd kv)) (h5_writable (snd kv)))
          (map_to_list m).

Lemma put_attr_absent nm k v (d : list (string * h5obj)) :
  mem nm d = false -> map (put_attr nm k v) d = d.
Proof.
  unfold mem. induction d as [|[n o] d IH]; [reflexivity|].
  cbn [assoc map]. destruct (String.eqb_spec nm n) as [->|Hne]; [discriminate|].
  intros Hm. rewrite IH by exact Hm. f_equal.
  unfold put_attr. destruct o; [reflexivity|].
  destruct (String.eqb_spec n nm); [congruence | reflexivity].
Qed.

Lemma put_attr_name nm k v e : fst (put_attr nm k v e) = fst e.
Proof.
  destruct e as [n [|d]]; [reflexivity|]. unfold put_attr.
  destruct (String.eqb n nm); reflexivity.
Qed.

Lemma attrs_set_new nm k v d1 ds f :
  h5_writable v = true ->
  mem nm d1 = false ->
  disk f = insert_link (nm, H5Dataset ds) d1 ->
  attrs_set nm k v f
  = (Ok tt, set_disk (insert_link (nm, H5Dataset (mkDataset (name ds) (value ds)
                                                    (<[k:=v]> (attrs ds)))) d1) f).
Proof.
  intros Hw Hm Hd. unfold attrs_set. rewrite Hw. unfold modify.
  rewrite Hd, (map_insert_link _ _ _ (put_attr_name nm k v)).
  rewrite (put_attr_absent _ _ _ _ Hm). cbn [put_attr].
  rewrite String.eqb_refl. reflexivity.
Qed.

Lemma write_attrs_loop nm d1 kvs : forall ds f,
  forallb (fun kv : string * attr_value =>
             implb (is_numeric (snd kv) || truthy (snd kv)) (h5_writable (snd kv))) kvs
  = true ->
  mem nm d1 = false ->
  disk f = insert_link (nm, H5Dataset ds) d1 ->
  for_each kvs (fun kv : string * attr_value =>
    if is_numeric (snd kv) then attrs_set nm (fst kv) (snd kv)
    else if truthy (snd kv) then attrs_set nm (fst kv) (snd kv)
    else ret tt) f
  = (Ok tt, set_disk (insert_link (nm, H5Dataset (mkDataset (name ds) (value ds)
                                     (fold_left write_step kvs (attrs ds)))) d1) f).
Proof.
  induction kvs as [|[k v] kvs IH]; intros ds f Hw Hm Hd.
  - simpl. unfold ret. destruct ds. cbn [name value attrs].
    rewrite <- Hd. destruct f; reflexivity.
  - cbn [forallb fst snd] in Hw. apply andb_true_iff in Hw as [Hv Hw].
    cbn [for_each fold_left fst snd].
    assert (Hstep : (if is_numeric v then attrs_set nm k v
                     else if truthy v then attrs_set nm k v else ret tt) f
                    = (Ok tt, set_disk (insert_link (nm, H5Dataset (mkDataset (name ds) (value ds)
                                                      (write_step (attrs ds) (k, v)))) d1) f)).
    { unfold write_step. cbn [fst snd].
      destruct (is_numeric v); [apply attrs_set_new; auto|].
      destruct (truthy v); [apply attrs_set_new; auto|].
      unfold ret. destruct ds. cbn [name value attrs].
      rewrite <- Hd. destruct f; reflexivity. }
    rewrite (bind_Ok _ _ _ _ _ Hstep).
    rewrite (IH (mkDataset (name ds) (value ds) (write_step (attrs ds) (k, v))));
      [|exact Hw|exact Hm|reflexivity].
    reflexivity.
Qed.

Lemma mem_ancestor_free nm d :
  mem nm d = false -> mem nm (with_groups (ancestors nm) d) = false.
Proof.
  intros Hm. destruct (mem nm (with_groups (ancestors nm) d)) eqn:Hg; [|reflexivity].
  apply mem_with_groups in Hg as [Hg|Hg]; [congruence|].
  apply ancestor_not_below in Hg. rewrite at_or_below_refl in Hg. discriminate.
Qed.

(** [create_dataset], by whether the link can be made. *)
Lemma create_dataset_run nm data f :
  (mem nm (disk f) = true -> create_dataset nm data f = (Raise RuntimeError, f)) /\
  (mem nm (disk f) = false ->
   existsb (is_dataset_at (disk f)) (ancestors nm) = true ->
   create_dataset nm data f = (Raise RuntimeError, f)) /\
  (mem nm (disk f) = false ->
   existsb (is_dataset_at (disk f)) (ancestors nm) = false ->
   create_dataset nm data f
   = (Ok tt, set_disk (link_dataset nm (mkDataset nm data ∅) (disk f)) f)).
Proof.
  unfold create_dataset, bind, contains, gets, raise, modify.
  split; [|split]; intros Hm; rewrite Hm; [reflexivity| |]; intros He; rewrite He;
    reflexivity.
Qed.

(** The ways [add] can end when every attribute can be stored. *)
Lemma add_run key data overwrite f :
  (is_keylike (cleanse key) = false ->
     add key data overwrite f = (Raise AssertionError, f)) /\
  (is_keylike (cleanse key) = true ->
   mem (cleanse key) (cleared_disk (disk f)) = true ->
     add key data overwrite f = (Raise RuntimeError, mk (cleared_disk (disk f)) [] ∅ None)) /\
  (is_keylike (cleanse key) = true ->
   mem (cleanse key) (cleared_disk (disk f)) = false ->
   existsb (is_dataset_at (cleared_disk (disk f))) (ancestors (cleanse key)) = true ->
     add key data overwrite f = (Raise RuntimeError, mk (cleared_disk (disk f)) [] ∅ None)) /\
  (is_keylike (cleanse key) = true ->
   mem (cleanse key) (cleared_disk (disk f)) = false ->
   existsb (is_dataset_at (cleared_disk (disk f))) (ancestors (cleanse key)) = false ->
   writable_attrs (partition_attrs (attrs data)) = true ->
     add key data overwrite f
     = (Ok tt, mk (link_dataset (cleanse key) (stored key data) (cleared_disk (disk f)))
                  [] ∅ None)).
Proof.
  unfold add.
  destruct (create_dataset_run (cleanse key) (value data)
              (mk (cleared_disk (disk f)) [] ∅ None)) as (Hdup & Hway & Hnew).
  cbn [disk] in Hdup, Hway, Hnew.
  split; [|split; [|split]].
  - intros ->. reflexivity.
  - intros -> Hm. cbn [assert_].
    rewrite (bind_Ok _ _ f tt f) by reflexivity.
    rewrite (bind_Ok _ _ _ _ _ (clear_persistent_run f)).
    rewrite (bind_Raise _ _ _ _ _ (Hdup Hm)). reflexivity.
  - intros -> Hm Hanc. cbn [assert_].
    rewrite (bind_Ok _ _ f tt f) by reflexivity.
    rewrite (bind_Ok _ _ _ _ _ (clear_persistent_run f)).
    rewrite (bind_Raise _ _ _ _ _ (Hway Hm Hanc)). reflexivity.
  - intros -> Hm Hanc Hw. cbn [assert_].
    rewrite (bind_Ok _ _ f tt f) by reflexivity.
    rewrite (bind_Ok _ _ _ _ _ (clear_persistent_run f)).
    rewrite (bind_Ok _ _ _ _ _ (Hnew Hm Hanc)).
    unfold write_attrs, link_dataset.
    erewrite write_attrs_loop;
      [| exact Hw | apply mem_ancestor_free, Hm | reflexivity].
    reflexivity.
Qed.

Lemma fold_left_insert_rev {A} (l : list (string * A)) (m0 : gmap string A) :
  fold_left (fun m kv => <[fst kv := snd kv]> m) l m0
  = foldr (fun kv m => <[fst kv := snd kv]> m) m0 (rev l).
Proof.
  symmetry. apply (fold_left_rev_right (fun kv m => <[fst kv := snd kv]> m)).
Qed.

(** Assigning every item of a dict into an empty dict gives the dict. *)
Lemma fold_insert_map_to_list {A} (m : gmap string A) :
  fold_left (fun a kv => <[fst kv := snd kv]> a) (map_to_list m) ∅ = m.
Proof.
  rewrite fold_left_insert_rev.
  change (foldr (fun kv a => <[fst kv := snd kv]> a) ∅ (rev (map_to_list m)))
    with (list_to_map (M := gmap string A) (rev (map_to_list m))).
  rewrite <- (list_to_map_to_list m) at 2.
  apply list_to_map_proper.
  - rewrite map_rev. apply NoDup_ListNoDup, NoDup_rev, NoDup_ListNoDup.
    apply NoDup_fst_map_to_list.
  - symmetry. apply Permutation_rev.
Qed.

Lemma written_attrs_all (m : gmap string attr_value) :
  (forall k v, m !! k = Some v -> (is_numeric v || truthy v)%bool = true) ->
  written_attrs m = m.
Proof.
  intros Hall. unfold written_attrs.
  rewrite <- (fold_insert_map_to_list m) at 2.
  assert (HF : Forall (fun kv : string * attr_value =>
                         (is_numeric (snd kv) || truthy (snd kv))%bool = true)
                      (map_to_list m)).
  { apply Forall_forall. intros [k v] Hin. apply (Hall k).
    apply elem_of_map_to_list. exact Hin. }
  generalize (∅ : gmap string attr_value).
  induction HF as [|[k v] l Hkv _ IH]; intros a; [reflexivity|].
  cbn [fold_left]. rewrite <- IH. f_equal.
  unfold write_step. cbn [fst snd] in *.
  destruct (is_numeric v); [reflexivity|]. simpl in Hkv. rewrite Hkv. reflexivity.
Qed.

Lemma writable_attrs_all (m : gmap string attr_value) :
  (forall k v, m !! k = Some v -> h5_writable v = true) ->
  writable_attrs m = true.
Proof.
  intros Hall. unfold writable_attrs. apply forallb_forall. intros [k v] Hin.
  cbn [snd]. rewrite (Hall k v); [apply implb_true_r|].
  apply elem_of_map_to_list, list_elem_of_In, Hin.
Qed.

Lemma no_dataset_on_way (d : list (string * h5obj)) nm :
  (forall p ds, In p (ancestors nm) -> assoc p d <> Some (H5Dataset ds)) ->
  existsb (is_dataset_at d) (ancestors nm) = false.
Proof.
  intros Hfree. destruct (existsb _ _) eqn:He; [|reflexivity].
  apply existsb_exists in He as (p & Hp & Hd). unfold is_dataset_at in Hd.
  destruct (assoc p d) as [[|ds]|] eqn:Ha; try discriminate.
  exfalso. exact (Hfree p ds Hp Ha).
Qed.

(** Modelled from the spec: [core.Factory], the [labels] property and
    [utils.partition_attrs] are not under the sources.  The spec has the
    labels of an item persisted as attributes of its entry: the factory
    called on a dataset gives an item with that payload and those labels,
    and the partitioned attributes carry the labels of the item. *)
Class FaithfulEncoding : Prop := {
  Factory_dataset : forall d, exists d',
    Factory (H5Dataset d) = Ok d' /\ value d' = value d /\ dlabels d' = dlabels d;
  labels_persisted : forall key data,
    dlabels (mkDataset key (value data) (partition_attrs (attrs data))) = dlabels data
}.

(** C7 (amended): an item added under a valid key that is not yet in the
    file and does not lie below an item of the file, all of whose
    attributes are integers within 64 bits, floats, arrays or truthy
    values, comes back from [get] under the cleansed key with the same
    value array and the same label mapping. *)
Theorem add_get_roundtrip {HE : FaithfulEncoding}
  (f : File.t) (key : string) (data : Dataset) (overwrite : bool) :
  is_keylike (cleanse key) = true ->
  mem (cleanse key) (disk f) = false ->
  (forall p ds, In p (ancestors (cleanse key)) ->
                assoc p (disk f) <> Some (H5Dataset ds)) ->
  (forall k v, partition_attrs (attrs data) !! k = Some v ->
               (is_numeric v || truthy v)%bool = true /\ h5_writable v = true) ->
  exists f' item,
    add key data overwrite f = (Ok tt, f') /\
    get (cleanse key) f' = (Ok item, f') /\
    value item = value data /\
    dlabels item = dlabels data.
Proof.
  intros Hkey Hfresh Hway Hall.
  pose proof (mem_cleared _ _ Hfresh) as Hfresh'.
  destruct (add_run key data overwrite f) as (_ & _ & _ & Hadd).
  specialize (Hadd Hkey Hfresh').
  rewrite (no_dataset_on_way (cleared_disk (disk f)) (cleanse key)) in Hadd.
  2:{ intros p ds Hp Ha. apply assoc_cleared_sub in Ha. exact (Hway p ds Hp Ha). }
  specialize (Hadd eq_refl).
  rewrite writable_attrs_all in Hadd by (intros k v Hkv; apply (Hall k v Hkv)).
  specialize (Hadd eq_refl).
  destruct (Factory_dataset (stored key data)) as (item & HF & Hv & Hl).
  eexists. exists item. split; [exact Hadd|].
  assert (Ha : assoc (cleanse key)
                 (link_dataset (cleanse key) (stored key data) (cleared_disk (disk f)))
               = Some (H5Dataset (stored key data))).
  { unfold link_dataset. apply assoc_insert_link_eq, mem_ancestor_free, Hfresh'. }
  split; [|split].
  - unfold get, bind, contains, gets, assert_, ret, mem. cbn [disk].
    rewrite !Ha. cbn [disk]. rewrite Ha, HF. reflexivity.
  - rewrite Hv. reflexivity.
  - rewrite Hl. unfold stored.
    rewrite written_attrs_all by (intros k v Hkv; apply (Hall k v Hkv)).
    apply labels_persisted.
Qed.

End FileFacts.

(** ** The scan of [create_tables] *)

(** One label met by the scan: the index of its key, its subindex in a
    Sequence item, and the label. *)
Record occ := mkOcc {
  occ_key_index : Z;
  occ_subindex : option Z;
  occ_label : string
}.

(** The row the scan appends for an occurrence, given the label's code. *)
Definition occ_row (o : occ) (code : Z) : row :=
  match occ_subindex o with
  | None => Row2 (occ_key_index o) code
  | Some i => Row3 (occ_key_index o) i code
  end.

(** The enumeration after one more label: a new label takes the next
    free code. *)
Definition enum_step (e : gmap string Z) (l : string) : gmap string Z :=
  match e !! l with
  | Some _ => e
  | None => <[l := Z.of_nat (size e)]> e
  end.

Definition enum_of (e0 : gmap string Z) (ls : list string) : gmap string Z :=
  fold_left enum_step ls e0.

Definition code_of (e : gmap string Z) (l : string) : Z :=
  default 0 (e !! l).

Definition rows_of (e : gmap string Z) (occs : list occ) : list row :=
  map (fun o => occ_row o (code_of e (occ_label o))) occs.

Definition enum_occ (o : occ) : M scan_state unit :=
  enum_label (occ_row o) (occ_label o).

(** The codes of an enumeration are the numbers below its size, each the
    code of one label. *)
Definition enum_ok (e : gmap string Z) : Prop :=
  (forall l c, e !! l = Some c -> 0 <= c < Z.of_nat (size e)) /\
  (forall l1 l2 c, e !! l1 = Some c -> e !! l2 = Some c -> l1 = l2) /\
  (forall c, 0 <= c < Z.of_nat (size e) -> exists l, e !! l = Some c).

Section ScanFacts.

Lemma enum_step_lookup_mono e l l' c :
  e !! l' = Some c -> enum_step e l !! l' = Some c.
Proof.
  intros Hl'. unfold enum_step. destruct (e !! l) eqn:Hl; [exact Hl'|].
  rewrite lookup_insert_ne; [exact Hl' | congruence].
Qed.

Lemma enum_step_covers e l : is_Some (enum_step e l !! l).
Proof.
  unfold enum_step. destruct (e !! l) eqn:Hl.
  - rewrite Hl. eauto.
  - rewrite lookup_insert_eq. eauto.
Qed.

Lemma enum_of_lookup_mono ls : forall e l c,
  e !! l = Some c -> enum_of e ls !! l = Some c.
Proof.
  induction ls as [|l0 ls IH]; intros e l c Hl; [exact Hl|].
  apply IH. apply enum_step_lookup_mono, Hl.
Qed.

Lemma enum_of_covers ls : forall e l, In l ls -> is_Some (enum_of e ls !! l).
Proof.
  induction ls as [|l0 ls IH]; intros e l Hin; [destruct Hin|].
  destruct Hin as [Heq|Hin].
  - subst l0. simpl. destruct (enum_step_covers e l) as [c Hc].
    exists c. apply enum_of_lookup_mono, Hc.
  - apply IH, Hin.
Qed.

Lemma enum_of_lookup_None ls : forall e l,
  e !! l = None -> ~ In l ls -> enum_of e ls !! l = None.
Proof.
  induction ls as [|l0 ls IH]; intros e l Hl Hnin; [exact Hl|].
  simpl. apply IH; [|intros Hin; apply Hnin; right; exact Hin].
  unfold enum_step. destruct (e !! l0); [exact Hl|].
  rewrite lookup_insert_ne; [exact Hl|].
  intros ->. apply Hnin. left. reflexivity.
Qed.

Lemma enum_of_app e l1 l2 : enum_of e (l1 ++ l2) = enum_of (enum_of e l1) l2.
Proof. apply fold_left_app. Qed.

Lemma enum_step_ok e l : enum_ok e -> enum_ok (enum_step e l).
Proof.
  intros (Hrange & Hinj & Hsurj). unfold enum_step.
  destruct (e !! l) eqn:Hl; [exact (conj Hrange (conj Hinj Hsurj))|].
  assert (Hsize : size (<[l:=Z.of_nat (size e)]> e) = Datatypes.S (size e))
    by (apply map_size_insert_None, Hl).
  split; [|split].
  - intros l' c. rewrite Hsize. destruct (decide (l = l')) as [<-|Hne].
    + rewrite lookup_insert_eq. intros [= <-]. lia.
    + rewrite lookup_insert_ne by exact Hne. intros Hc. specialize (Hrange _ _ Hc). lia.
  - intros l1 l2 c.
    destruct (decide (l = l1)) as [<-|Hne1]; destruct (decide (l = l2)) as [<-|Hne2];
      rewrite ?lookup_insert_eq, ?lookup_insert_ne by assumption.
    + reflexivity.
    + intros [= <-] Hc. specialize (Hrange _ _ Hc). lia.
    + intros Hc [= <-]. specialize (Hrange _ _ Hc). lia.
    + apply Hinj.
  - intros c. rewrite Hsize. intros Hc.
    destruct (decide (c = Z.of_nat (size e))) as [->|Hne].
    + exists l. apply lookup_insert_eq.
    + destruct (Hsurj c ltac:(lia)) as [l' Hl']. exists l'.
      rewrite lookup_insert_ne; [exact Hl' | congruence].
Qed.

Lemma enum_ok_empty : enum_ok ∅.
Proof.
  split; [|split].
  - intros l c. rewrite lookup_empty. discriminate.
  - intros l1 l2 c. rewrite lookup_empty. discriminate.
  - intros c. rewrite map_size_empty. lia.
Qed.

Lemma enum_of_ok ls : forall e, enum_ok e -> enum_ok (enum_of e ls).
Proof.
  induction ls as [|l ls IH]; intros e He; [exact He|].
  apply IH, enum_step_ok, He.
Qed.

Lemma enum_label_run mk_row l e rows :
  exists c, enum_step e l !! l = Some c /\
    enum_label mk_row l (e, rows) = (Ok tt, (enum_step e l, rows ++ [mk_row c])).
Proof.
  destruct (enum_step_covers e l) as [c Hc]. exists c. split; [exact Hc|].
  unfold enum_label. fold (enum_step e l). rewrite Hc. reflexivity.
Qed.

Lemma rows_of_stable e ls occs :
  rows_of (enum_of (enum_of e (map occ_label occs)) ls) occs
  = rows_of (enum_of e (map occ_label occs)) occs.
Proof.
  unfold rows_of. apply map_ext_in. intros o Hin. f_equal. unfold code_of.
  destruct (enum_of_covers (map occ_label occs) e (occ_label o)) as [c Hc].
  { apply in_map. exact Hin. }
  rewrite Hc. rewrite (enum_of_lookup_mono ls _ _ _ Hc). reflexivity.
Qed.

(** The scan of a list of occurrences never fails; it extends the
    enumeration and appends one row per occurrence. *)
Lemma scan_occs_run occs : forall e rows,
  for_each occs enum_occ (e, rows)
  = (Ok tt, (enum_of e (map occ_label occs),
             rows ++ rows_of (enum_of e (map occ_label occs)) occs)).
Proof.
  induction occs as [|o occs IH]; intros e rows.
  - simpl. unfold ret. rewrite app_nil_r. reflexivity.
  - cbn [for_each map]. unfold enum_occ at 1.
    destruct (enum_label_run (occ_row o) (occ_label o) e rows) as (c & Hc & Hrun).
    rewrite (bind_Ok _ _ _ _ _ Hrun). rewrite IH.
    cbn [enum_of fold_left rows_of map]. fold (enum_of (enum_step e (occ_label o)) (map occ_label occs)).
    rewrite <- app_assoc. cbn [app]. do 4 f_equal.
    unfold code_of. rewrite (enum_of_lookup_mono _ _ _ _ Hc). reflexivity.
Qed.

Lemma for_each_app {S A} (l1 l2 : list A) (body : A -> M S unit) s :
  for_each (l1 ++ l2) body s
  = bind (for_each l1 body) (fun _ => for_each l2 body) s.
Proof.
  revert s. induction l1 as [|x l1 IH]; intros s; [reflexivity|].
  cbn [app for_each]. unfold bind. destruct (body x s) as [[[]|e] s1].
  - rewrite IH. reflexivity.
  - reflexivity.
Qed.

End ScanFacts.

(** *** The occurrences of an item *)

Definition is_LOne (lab : label_val) : bool :=
  match lab with LOne _ => true | LSeq _ => false end.

Definition sample_occs (ki : Z) (labels : list label_val) : list occ :=
  flat_map (fun lab => match lab with
                       | LOne l => [mkOcc ki None l]
                       | LSeq _ => []
                       end) labels.

Fixpoint seq_occs (ki : Z) (n : nat) (ls : list string) : list occ :=
  match ls with
  | [] => []
  | l :: rest => mkOcc ki (Some (Z.of_nat n)) l :: seq_occs ki (Datatypes.S n) rest
  end.

Definition sequence_occs (ki : Z) (labels : list label_val) : list occ :=
  flat_map (fun lab => match lab with
                       | LSeq ls => seq_occs ki 0 ls
                       | LOne s => seq_occs ki 0 (chars s)
                       end) labels.

Section ItemScan.
Context `{Collaborators}.

(** The item is of a known kind, and the labels of a Sample are single
    labels: the scan of the item cannot fail. *)
Definition scannable (d : Dataset) : bool :=
  if String.eqb (dtype d) "Sample" then forallb is_LOne (map snd (dlabels d))
  else String.eqb (dtype d) "Sequence".

Definition item_occs (key : string) (d : Dataset) : list occ :=
  if String.eqb (dtype d) "Sample" then
    sample_occs (key_to_index key) (map snd (dlabels d))
  else if String.eqb (dtype d) "Sequence" then
    sequence_occs (key_to_index key) (map snd (dlabels d))
  else [].

Lemma scan_sample_run ki labels st :
  forallb is_LOne labels = true ->
  scan_sample ki labels st = for_each (sample_occs ki labels) enum_occ st.
Proof.
  unfold scan_sample. revert st.
  induction labels as [|lab labels IH]; intros st Hall; [reflexivity|].
  simpl in Hall. apply andb_true_iff in Hall as [Hlab Hall].
  destruct lab as [l|ls]; [|discriminate].
  cbn [for_each sample_occs flat_map app]. unfold bind.
  change (enum_occ (mkOcc ki None l)) with (enum_label (Row2 ki) l).
  destruct (enum_label (Row2 ki) l st) as [[[]|e] st1]; [|reflexivity].
  apply IH, Hall.
Qed.

Lemma scan_label_seq_run ki ls : forall n st,
  scan_label_seq ki n ls st = for_each (seq_occs ki n ls) enum_occ st.
Proof.
  induction ls as [|l ls IH]; intros n st; [reflexivity|].
  cbn [scan_label_seq seq_occs for_each]. unfold bind.
  change (enum_occ (mkOcc ki (Some (Z.of_nat n)) l))
    with (enum_label (Row3 ki (Z.of_nat n)) l).
  destruct (enum_label (Row3 ki (Z.of_nat n)) l st) as [[[]|e] st1]; [|reflexivity].
  apply IH.
Qed.

Lemma scan_sequence_run ki labels st :
  scan_sequence ki labels st = for_each (sequence_occs ki labels) enum_occ st.
Proof.
  unfold scan_sequence. revert st.
  induction labels as [|lab labels IH]; intros st; [reflexivity|].
  cbn [for_each sequence_occs flat_map]. rewrite for_each_app. unfold bind.
  destruct lab as [s|ls]; rewrite scan_label_seq_run;
    match goal with |- context [for_each ?l enum_occ st] =>
      destruct (for_each l enum_occ st) as [[[]|e] st1] end;
    try reflexivity; apply IH.
Qed.

Lemma scan_item_run key d st :
  scannable d = true ->
  scan_item key d st = for_each (item_occs key d) enum_occ st.
Proof.
  unfold scannable, scan_item, item_occs.
  destruct (String.eqb (dtype d) "Sample").
  - apply scan_sample_run.
  - destruct (String.eqb (dtype d) "Sequence"); [|discriminate].
    intros _. apply scan_sequence_run.
Qed.

(** An item of another kind stops the scan. *)
Lemma scan_item_unknown key d st :
  String.eqb (dtype d) "Sample" = false ->
  String.eqb (dtype d) "Sequence" = false ->
  scan_item key d st = (Raise ValueError, st).
Proof. unfold scan_item. intros -> ->. reflexivity. Qed.

(** *** The scan of the file *)

Definition entry_keys (e : string * h5obj) : list string :=
  match snd e with
  | H5Dataset _ => if is_keylike (fst e) then [cleanse (fst e)] else []
  | H5Group => []
  end.

Definition entry_occs (e : string * h5obj) : list occ :=
  match snd e with
  | H5Dataset d => if is_keylike (fst e) then item_occs (fst e) d else []
  | H5Group => []
  end.

Definition entry_ok (e : string * h5obj) : bool :=
  match snd e with
  | H5Dataset d => if is_keylike (fst e) then scannable d else true
  | H5Group => true
  end.

(** The three tables of a list of links. *)
Definition manifest_of (objs : list (string * h5obj)) : list string :=
  flat_map entry_keys objs.
Definition occs_of (objs : list (string * h5obj)) : list occ :=
  flat_map entry_occs objs.
Definition label_enum_of (objs : list (string * h5obj)) : gmap string Z :=
  enum_of ∅ (map occ_label (occs_of objs)).
Definition index_table_of (objs : list (string * h5obj)) : list row :=
  rows_of (label_enum_of objs) (occs_of objs).

Import File.

Lemma cache_data_run e f rows :
  entry_ok e = true ->
  cache_data (fst e) (snd e) (f, rows)
  = (Ok tt,
     (mk (disk f) (_keys f ++ entry_keys e)
         (enum_of (_label_enum f) (map occ_label (entry_occs e)))
         (_index_table f),
      rows ++ rows_of (enum_of (_label_enum f) (map occ_label (entry_occs e)))
                      (entry_occs e))).
Proof.
  destruct e as [key [|d]]; unfold entry_ok, entry_keys, entry_occs, cache_data;
    cbn [fst snd].
  - intros _. unfold ret. simpl. rewrite !app_nil_r. destruct f; reflexivity.
  - destruct (is_keylike key).
    + intros Hsc. unfold bind, modify, zoom. cbn [fst snd].
      rewrite scan_item_run by exact Hsc.
      cbn [_label_enum set_keys]. rewrite scan_occs_run. reflexivity.
    + intros _. unfold ret. simpl. rewrite !app_nil_r. destruct f; reflexivity.
Qed.

Lemma visit_run objs : forall f rows,
  forallb entry_ok objs = true ->
  for_each objs (fun e => cache_data (fst e) (snd e)) (f, rows)
  = (Ok tt,
     (mk (disk f) (_keys f ++ manifest_of objs)
         (enum_of (_label_enum f) (map occ_label (occs_of objs)))
         (_index_table f),
      rows ++ rows_of (enum_of (_label_enum f) (map occ_label (occs_of objs)))
                      (occs_of objs))).
Proof.
  induction objs as [|e objs IH]; intros f rows Hok.
  - simpl. unfold ret. rewrite !app_nil_r. destruct f; reflexivity.
  - simpl in Hok. apply andb_true_iff in Hok as [He Hok].
    cbn [for_each]. rewrite (bind_Ok _ _ _ _ _ (cache_data_run e f rows He)).
    rewrite (IH _ _ Hok). cbn [disk _keys _label_enum _index_table].
    unfold manifest_of, occs_of. cbn [flat_map].
    rewrite map_app, enum_of_app, <- !app_assoc.
    do 3 f_equal. unfold rows_of at 3. rewrite map_app. f_equal.
    symmetry. apply rows_of_stable.
Qed.

End ItemScan.

(** ** File: the derived tables *)

(** Modelled from the spec: [ReservedKeys] and [keyutils] are not under
    the sources.  The spec reserves exactly three names for the derived
    tables, has them fail the key-like predicate and never collide with
    an item key, and has a cleansed key in normal form.  The three names
    are plain names, with no [/] in them, and no key-like name lies
    below one of them, so that no item is ever stored inside a table. *)
Class ReservedSpec `{Collaborators} : Prop := {
  manifest_not_enum : KEY_MANIFEST <> LABEL_ENUM;
  manifest_not_index : KEY_MANIFEST <> INDEX_TABLE;
  enum_not_index : LABEL_ENUM <> INDEX_TABLE;
  manifest_not_keylike : is_keylike KEY_MANIFEST = false;
  enum_not_keylike : is_keylike LABEL_ENUM = false;
  index_not_keylike : is_keylike INDEX_TABLE = false;
  cleanse_idempotent : forall k, cleanse (cleanse k) = cleanse k;
  manifest_flat : ancestors KEY_MANIFEST = [];
  enum_flat : ancestors LABEL_ENUM = [];
  index_flat : ancestors INDEX_TABLE = [];
  keylike_off_manifest : forall k, is_keylike k = true -> below KEY_MANIFEST k = false;
  keylike_off_enum : forall k, is_keylike k = true -> below LABEL_ENUM k = false;
  keylike_off_index : forall k, is_keylike k = true -> below INDEX_TABLE k = false
}.

Section TableFacts.
Context `{HR : ReservedSpec}.
Import File.

(** The entry [create_dataset] makes for a table. *)
Definition tbl (nm : string) (v : ndarray) : string * h5obj :=
  (nm, H5Dataset (mkDataset nm v ∅)).

(** The links [items] with the three reserved entries [create_tables]
    makes for them. *)
Definition with_tables (items : list (string * h5obj)) : list (string * h5obj) :=
  insert_link (tbl LABEL_ENUM (NdEnum (map_to_list (label_enum_of items))))
    (insert_link (tbl KEY_MANIFEST (NdKeys (manifest_of items)))
       (insert_link (tbl INDEX_TABLE (NdIndex (index_table_of items))) items)).

(** The file once the tables of [items] are built; [it] is the local
    copy of the index table. *)
Definition built (items : list (string * h5obj)) (it : option ndarray) : File.t :=
  mk (with_tables items) (manifest_of items) (label_enum_of items) it.

(** No link has a reserved name. *)
Definition no_reserved (d : list (string * h5obj)) : Prop :=
  mem KEY_MANIFEST d = false /\ mem LABEL_ENUM d = false /\ mem INDEX_TABLE d = false.

(** All three derived tables are invalid: no reserved entry in the file,
    no local copy. *)
Definition tables_absent (f : File.t) : Prop :=
  no_reserved (disk f) /\ _keys f = [] /\ _label_enum f = ∅ /\ _index_table f = None.

(** All three reserved entries are in the file. *)
Definition tables_present (f : File.t) : Prop :=
  mem KEY_MANIFEST (disk f) = true /\ mem LABEL_ENUM (disk f) = true /\
  mem INDEX_TABLE (disk f) = true.

(** The name is neither a reserved name nor below one. *)
Definition free_name (n : string) : Prop :=
  at_or_below KEY_MANIFEST n = false /\ at_or_below LABEL_ENUM n = false /\
  at_or_below INDEX_TABLE n = false.

Lemma eqb_ne a b : a <> b -> String.eqb a b = false.
Proof. intros Hne. destruct (String.eqb_spec a b); congruence. Qed.

Lemma reserved_eqb :
  String.eqb KEY_MANIFEST LABEL_ENUM = false /\
  String.eqb LABEL_ENUM KEY_MANIFEST = false /\
  String.eqb KEY_MANIFEST INDEX_TABLE = false /\
  String.eqb INDEX_TABLE KEY_MANIFEST = false /\
  String.eqb LABEL_ENUM INDEX_TABLE = false /\
  String.eqb INDEX_TABLE LABEL_ENUM = false.
Proof.
  pose proof manifest_not_enum. pose proof manifest_not_index.
  pose proof enum_not_index.
  repeat split; apply eqb_ne; congruence.
Qed.

(** Decide the comparisons between reserved names in the goal. *)
Ltac reserved_names :=
  destruct reserved_eqb as (?Hr1 & ?Hr2 & ?Hr3 & ?Hr4 & ?Hr5 & ?Hr6);
  repeat (progress (rewrite ?String.eqb_refl, ?Hr1, ?Hr2, ?Hr3, ?Hr4, ?Hr5, ?Hr6;
                    cbn [negb andb orb app assoc fst snd])).

Lemma flat_not_below n p : ancestors n = [] -> below p n = false.
Proof.
  intros Hflat. destruct (below p n) eqn:Hb; [|reflexivity].
  apply In_ancestors in Hb. rewrite Hflat in Hb. destruct Hb.
Qed.

(** No reserved name is at or below another. *)
Lemma reserved_apart :
  at_or_below KEY_MANIFEST LABEL_ENUM = false /\
  at_or_below KEY_MANIFEST INDEX_TABLE = false /\
  at_or_below LABEL_ENUM KEY_MANIFEST = false /\
  at_or_below LABEL_ENUM INDEX_TABLE = false /\
  at_or_below INDEX_TABLE KEY_MANIFEST = false /\
  at_or_below INDEX_TABLE LABEL_ENUM = false.
Proof.
  unfold at_or_below.
  rewrite !(flat_not_below _ _ manifest_flat), !(flat_not_below _ _ enum_flat),
    !(flat_not_below _ _ index_flat).
  reserved_names. auto 6.
Qed.

Lemma drop_table_absent k (d : list (string * h5obj)) :
  mem k d = false -> drop_table k d = d.
Proof. unfold drop_table. intros ->. reflexivity. Qed.

Lemma mem_drop_table k n (d : list (string * h5obj)) :
  mem n d = false -> mem n (drop_table k d) = false.
Proof.
  unfold mem. intros Hm. destruct (assoc_drop_table k n d) as [-> | ->]; auto.
Qed.

Lemma mem_drop_table_self k (d : list (string * h5obj)) : mem k (drop_table k d) = false.
Proof.
  unfold drop_table. destruct (mem k d) eqn:Hm; [|exact Hm].
  rewrite mem_unlink, at_or_below_refl. reflexivity.
Qed.

Lemma cleared_no_reserved d : no_reserved (cleared_disk d).
Proof.
  unfold no_reserved, cleared_disk. split; [|split].
  - do 2 apply mem_drop_table. apply mem_drop_table_self.
  - apply mem_drop_table. apply mem_drop_table_self.
  - apply mem_drop_table_self.
Qed.

Lemma cleared_id d : no_reserved d -> cleared_disk d = d.
Proof.
  intros (Hk & Hl & Hi). unfold cleared_disk.
  rewrite (drop_table_absent KEY_MANIFEST d Hk), (drop_table_absent LABEL_ENUM d Hl).
  apply drop_table_absent, Hi.
Qed.

Lemma free_no_reserved (items : list (string * h5obj)) :
  Forall (fun e => free_name (fst e)) items -> no_reserved items.
Proof.
  intros Hfree. rewrite Forall_forall in Hfree.
  repeat split; apply mem_false_iff; intros Hin; apply in_map_iff in Hin as (e & He & Hin);
    apply list_elem_of_In, Hfree in Hin; destruct Hin as (Fk & Fl & Fi);
    rewrite He, at_or_below_refl in *; discriminate.
Qed.

Lemma with_tables_present items :
  mem KEY_MANIFEST (with_tables items) = true /\
  mem LABEL_ENUM (with_tables items) = true /\
  mem INDEX_TABLE (with_tables items) = true.
Proof.
  unfold with_tables, tbl. rewrite !mem_insert_link, !String.eqb_refl.
  cbn [orb]. rewrite !orb_true_r. auto.
Qed.

Lemma built_present items it : tables_present (built items it).
Proof. apply with_tables_present. Qed.

Lemma assoc_built items it :
  no_reserved items ->
  assoc INDEX_TABLE (disk (built items it))
    = Some (H5Dataset (mkDataset INDEX_TABLE (NdIndex (index_table_of items)) ∅)) /\
  assoc KEY_MANIFEST (disk (built items it))
    = Some (H5Dataset (mkDataset KEY_MANIFEST (NdKeys (manifest_of items)) ∅)) /\
  assoc LABEL_ENUM (disk (built items it))
    = Some (H5Dataset (mkDataset LABEL_ENUM (NdEnum (map_to_list (label_enum_of items))) ∅)).
Proof.
  intros (Hk & Hl & Hi). cbn [built disk]. unfold with_tables, tbl.
  pose proof manifest_not_enum. pose proof manifest_not_index. pose proof enum_not_index.
  split; [|split].
  - rewrite !assoc_insert_link_ne by congruence. apply assoc_insert_link_eq, Hi.
  - rewrite assoc_insert_link_ne by congruence. apply assoc_insert_link_eq.
    rewrite mem_insert_link, Hk. reserved_names. reflexivity.
  - apply assoc_insert_link_eq. rewrite !mem_insert_link, Hl. reserved_names. reflexivity.
Qed.

(** Deleting the tables of a file that was built gives the items back. *)
Lemma cleared_with_tables items :
  Forall (fun e => free_name (fst e)) items -> cleared_disk (with_tables items) = items.
Proof.
  intros Hfree. destruct (with_tables_present items) as (Pk & Pl & Pi).
  destruct reserved_apart as (Akl & Aki & Alk & Ali & Aik & Ail).
  set (X := with_tables items) in *.
  assert (E1 : drop_table KEY_MANIFEST X = unlink KEY_MANIFEST X)
    by (unfold drop_table; rewrite Pk; reflexivity).
  assert (E2 : drop_table LABEL_ENUM (unlink KEY_MANIFEST X)
               = unlink LABEL_ENUM (unlink KEY_MANIFEST X))
    by (unfold drop_table; rewrite mem_unlink, Pl, Akl; reflexivity).
  assert (E3 : drop_table INDEX_TABLE (unlink LABEL_ENUM (unlink KEY_MANIFEST X))
               = unlink INDEX_TABLE (unlink LABEL_ENUM (unlink KEY_MANIFEST X)))
    by (unfold drop_table; rewrite !mem_unlink, Pi, Aki, Ali; reflexivity).
  unfold cleared_disk. rewrite E1, E2, E3. unfold X, with_tables, tbl.
  rewrite (unlink_comm LABEL_ENUM KEY_MANIFEST).
  rewrite (unlink_insert_link LABEL_ENUM LABEL_ENUM) by apply at_or_below_refl.
  rewrite (unlink_comm KEY_MANIFEST LABEL_ENUM).
  rewrite (unlink_insert_link KEY_MANIFEST KEY_MANIFEST) by apply at_or_below_refl.
  rewrite (unlink_comm INDEX_TABLE LABEL_ENUM), (unlink_comm INDEX_TABLE KEY_MANIFEST).
  rewrite (unlink_insert_link INDEX_TABLE INDEX_TABLE) by apply at_or_below_refl.
  rewrite Forall_forall in Hfree.
  rewrite (unlink_id INDEX_TABLE items), (unlink_id KEY_MANIFEST items),
    (unlink_id LABEL_ENUM items); [reflexivity| | |]; intros e He;
    apply list_elem_of_In, Hfree in He; apply He.
Qed.

Lemma cleared_built items it :
  Forall (fun e => free_name (fst e)) items -> cleared_disk (disk (built items it)) = items.
Proof. apply cleared_with_tables. Qed.

(** [create_dataset] for a table that is not in the file. *)
Lemma create_table_run nm data f :
  ancestors nm = [] -> mem nm (disk f) = false ->
  create_dataset nm data f = (Ok tt, set_disk (insert_link (tbl nm data) (disk f)) f).
Proof.
  intros Hflat Hm. destruct (create_dataset_run nm data f) as (_ & _ & Hnew).
  rewrite Hflat in Hnew. rewrite (Hnew Hm eq_refl).
  unfold link_dataset. rewrite Hflat, with_groups_nil. reflexivity.
Qed.

(** [create_tables] on a file whose items can all be scanned: the three
    tables are written when the rows of the scan have one width, and
    none is when they have not. *)
Lemma create_tables_run write f :
  forallb entry_ok (cleared_disk (disk f)) = true ->
  create_tables write f
  = if one_width (index_table_of (cleared_disk (disk f)))
    then (Ok tt, built (cleared_disk (disk f)) None)
    else (Raise ValueError,
          mk (cleared_disk (disk f)) (manifest_of (cleared_disk (disk f)))
             (label_enum_of (cleared_disk (disk f))) None).
Proof.
  intros Hok. unfold create_tables.
  rewrite (bind_Ok _ _ _ _ _ (clear_persistent_run f)).
  set (items := cleared_disk (disk f)) in *.
  destruct (cleared_no_reserved (disk f)) as (Hk & Hl & Hi). fold items in Hk, Hl, Hi.
  erewrite bind_Ok; cycle 1.
  { unfold with_local.
    rewrite (bind_Ok _ _ (mk items [] ∅ None, []) items (mk items [] ∅ None, []))
      by reflexivity.
    rewrite (visit_run items _ _ Hok). cbn [disk _keys _label_enum _index_table app].
    reflexivity. }
  fold (label_enum_of items). fold (index_table_of items).
  unfold bind at 1, lift, asarray_int.
  destruct (one_width (index_table_of items)); [|reflexivity].
  erewrite bind_Ok; cycle 1.
  { apply create_table_run; [apply index_flat | exact Hi]. }
  erewrite bind_Ok; cycle 1.
  { unfold gets. reflexivity. }
  cbn [set_disk disk _keys _label_enum _index_table].
  erewrite bind_Ok; cycle 1.
  { apply create_table_run; [apply manifest_flat|]. cbn [disk set_disk]. unfold tbl.
    rewrite mem_insert_link, Hk. reserved_names. reflexivity. }
  erewrite bind_Ok; cycle 1.
  { unfold gets. reflexivity. }
  cbn [set_disk disk _keys _label_enum _index_table].
  rewrite create_table_run; [reflexivity | apply enum_flat |].
  cbn [disk set_disk]. unfold tbl. rewrite !mem_insert_link, Hl. reserved_names.
  reflexivity.
Qed.

(** *** Reading the tables *)

Lemma keys_built items it :
  no_reserved items ->
  keys (built items it) = (Ok (manifest_of items), built items it).
Proof.
  intros Hnr. destruct (built_present items it) as (Hk & _ & _).
  destruct (assoc_built items it Hnr) as (_ & Ha & _).
  unfold keys.
  rewrite (bind_Ok _ _ _ true (built items it)) by (unfold contains, gets; rewrite Hk; reflexivity).
  cbn [negb when]. rewrite (bind_Ok _ _ _ tt (built items it)) by reflexivity.
  rewrite (bind_Ok _ _ _ true (built items it)) by (unfold contains, gets; rewrite Hk; reflexivity).
  cbn [assert_]. rewrite (bind_Ok _ _ _ tt (built items it)) by reflexivity.
  rewrite (bind_Ok _ _ _ (manifest_of items) (built items it)) by reflexivity.
  destruct (manifest_of items) as [|k ks] eqn:Hm.
  - cbn [when].
    rewrite (bind_Ok _ _ _ tt (built items it)); [unfold gets, built; rewrite Hm; reflexivity|].
    unfold bind, getitem_value. rewrite Ha. cbn [value as_keys lift modify].
    unfold built, set_keys. cbn [disk _keys _label_enum _index_table]. rewrite Hm.
    reflexivity.
  - cbn [when]. rewrite (bind_Ok _ _ _ tt (built items it)) by reflexivity.
    unfold gets, built. cbn [_keys]. rewrite Hm. reflexivity.
Qed.

Lemma label_enum_built items it :
  no_reserved items ->
  label_enum (built items it) = (Ok (label_enum_of items), built items it).
Proof.
  intros Hnr. destruct (built_present items it) as (_ & Hl & _).
  destruct (assoc_built items it Hnr) as (_ & _ & Ha).
  unfold label_enum.
  rewrite (bind_Ok _ _ _ true (built items it)) by (unfold contains, gets; rewrite Hl; reflexivity).
  cbn [negb when]. rewrite (bind_Ok _ _ _ tt (built items it)) by reflexivity.
  rewrite (bind_Ok _ _ _ true (built items it)) by (unfold contains, gets; rewrite Hl; reflexivity).
  cbn [assert_]. rewrite (bind_Ok _ _ _ tt (built items it)) by reflexivity.
  rewrite (bind_Ok _ _ _ (label_enum_of items) (built items it)) by reflexivity.
  destruct (decide (label_enum_of items = ∅)) as [He|Hne].
  - rewrite bool_decide_eq_true_2 by exact He. cbn [when].
    rewrite (bind_Ok _ _ _ tt (built items it)); [reflexivity|].
    unfold bind at 1, getitem_value. rewrite Ha. cbn [value].
    unfold bind at 1, lift, as_pairs. rewrite He, map_to_list_empty.
    cbn [dict_of_pairs fold_left]. rewrite map_to_list_empty. reflexivity.
  - rewrite bool_decide_eq_false_2 by exact Hne. cbn [when].
    rewrite (bind_Ok _ _ _ tt (built items it)) by reflexivity. reflexivity.
Qed.

Lemma index_table_built items it :
  no_reserved items ->
  it = None \/ it = Some (NdIndex (index_table_of items)) ->
  index_table (built items it)
  = (Ok (NdIndex (index_table_of items)),
     built items (Some (NdIndex (index_table_of items)))).
Proof.
  intros Hnr Hit. destruct (built_present items it) as (_ & _ & Hi).
  destruct (assoc_built items it Hnr) as (Ha & _ & _).
  unfold index_table.
  rewrite (bind_Ok _ _ _ true (built items it)) by (unfold contains, gets; rewrite Hi; reflexivity).
  cbn [negb when]. rewrite (bind_Ok _ _ _ tt (built items it)) by reflexivity.
  rewrite (bind_Ok _ _ _ true (built items it)) by (unfold contains, gets; rewrite Hi; reflexivity).
  cbn [assert_]. rewrite (bind_Ok _ _ _ tt (built items it)) by reflexivity.
  rewrite (bind_Ok _ _ _ it (built items it)) by reflexivity.
  destruct Hit as [-> | ->].
  - unfold bind, getitem_value. rewrite Ha. reflexivity.
  - reflexivity.
Qed.

(** A reader that finds its table missing runs [create_tables] and goes
    on as on the file that leaves. *)
Lemma rebuild_then {A} (k : string) (K : M File.t A) f f' :
  mem k (disk f) = false ->
  create_tables true f = (Ok tt, f') ->
  mem k (disk f') = true ->
  (b <- contains k ;; when (negb b) (create_tables true) ;; K) f
  = (b <- contains k ;; when (negb b) (create_tables true) ;; K) f'.
Proof.
  intros Hm Hct Hm'.
  rewrite (bind_Ok _ _ f false f) by (unfold contains, gets; rewrite Hm; reflexivity).
  cbn [negb when]. rewrite (bind_Ok _ _ _ _ _ Hct).
  rewrite (bind_Ok _ _ f' true f') by (unfold contains, gets; rewrite Hm'; reflexivity).
  cbn [negb when]. rewrite (bind_Ok _ _ f' tt f') by reflexivity.
  reflexivity.
Qed.

Lemma keys_rebuild f f' :
  mem KEY_MANIFEST (disk f) = false ->
  create_tables true f = (Ok tt, f') ->
  mem KEY_MANIFEST (disk f') = true ->
  keys f = keys f'.
Proof. apply rebuild_then. Qed.

Lemma label_enum_rebuild f f' :
  mem LABEL_ENUM (disk f) = false ->
  create_tables true f = (Ok tt, f') ->
  mem LABEL_ENUM (disk f') = true ->
  label_enum f = label_enum f'.
Proof. apply rebuild_then. Qed.

Lemma index_table_rebuild f f' :
  mem INDEX_TABLE (disk f) = false ->
  create_tables true f = (Ok tt, f') ->
  mem INDEX_TABLE (disk f') = true ->
  index_table f = index_table f'.
Proof. apply rebuild_then. Qed.

(** *** Consistency of the three tables *)

Lemma sample_occs_key_index ki labels o :
  In o (sample_occs ki labels) -> occ_key_index o = ki.
Proof.
  unfold sample_occs. rewrite in_flat_map. intros ([l|ls] & _ & Hin).
  - destruct Hin as [<-|[]]. reflexivity.
  - destruct Hin.
Qed.

Lemma seq_occs_key_index ki ls : forall n o,
  In o (seq_occs ki n ls) -> occ_key_index o = ki.
Proof.
  induction ls as [|l ls IH]; intros n o Hin; [destruct Hin|].
  destruct Hin as [<-|Hin]; [reflexivity | eapply IH, Hin].
Qed.

Lemma item_occs_key_index key d o :
  In o (item_occs key d) -> occ_key_index o = key_to_index key.
Proof.
  unfold item_occs. destruct (String.eqb (dtype d) "Sample").
  - apply sample_occs_key_index.
  - destruct (String.eqb (dtype d) "Sequence"); [|intros []].
    unfold sequence_occs. rewrite in_flat_map. intros ([s|ls] & _ & Hin);
      eapply seq_occs_key_index, Hin.
Qed.

Lemma row_of_occ o c :
  row_key_index (occ_row o c) = occ_key_index o /\ row_code (occ_row o c) = c.
Proof. unfold occ_row. destruct (occ_subindex o); auto. Qed.

(** Every code of the index table is a code of the enumeration. *)
Lemma index_table_codes items r :
  In r (index_table_of items) ->
  exists l, label_enum_of items !! l = Some (row_code r).
Proof.
  unfold index_table_of, rows_of. rewrite in_map_iff. intros (o & <- & Hin).
  destruct (enum_of_covers (map occ_label (occs_of items)) ∅ (occ_label o)) as [c Hc].
  { apply in_map, Hin. }
  exists (occ_label o). fold (label_enum_of items) in Hc.
  rewrite (proj2 (row_of_occ _ _)). unfold code_of. rewrite Hc. reflexivity.
Qed.

(** Every key index of the index table is the index of a key-like
    dataset of the file. *)
Lemma index_table_key_index items r :
  In r (index_table_of items) ->
  exists key d, In (key, H5Dataset d) items /\ is_keylike key = true /\
                key_to_index key = row_key_index r.
Proof.
  unfold index_table_of, rows_of. rewrite in_map_iff. intros (o & <- & Hin).
  unfold occs_of in Hin. apply in_flat_map in Hin as ([key obj] & Hitem & Ho).
  unfold entry_occs in Ho. cbn [fst snd] in Ho.
  destruct obj as [|d]; [destruct Ho|].
  destruct (is_keylike key) eqn:Hk; [|destruct Ho].
  exists key, d. repeat split; auto.
  rewrite (proj1 (row_of_occ _ _)). symmetry. eapply item_occs_key_index, Ho.
Qed.

(** *** The width of the rows *)

Lemma sample_occs_flat ki labels o :
  In o (sample_occs ki labels) -> occ_subindex o = None.
Proof.
  unfold sample_occs. rewrite in_flat_map. intros ([l|ls] & _ & Hin).
  - destruct Hin as [<-|[]]. reflexivity.
  - destruct Hin.
Qed.

Lemma seq_occs_sub ki ls : forall n o,
  In o (seq_occs ki n ls) -> occ_subindex o <> None.
Proof.
  induction ls as [|l ls IH]; intros n o Hin; [destruct Hin|].
  destruct Hin as [<-|Hin]; [discriminate | eapply IH, Hin].
Qed.

Lemma sequence_occs_sub ki labels o :
  In o (sequence_occs ki labels) -> occ_subindex o <> None.
Proof.
  unfold sequence_occs. rewrite in_flat_map. intros ([l|ls] & _ & Hin);
    eapply seq_occs_sub, Hin.
Qed.

Lemma rows_of_Row2 e occs :
  (forall o, In o occs -> occ_subindex o = None) ->
  forallb is_Row2 (rows_of e occs) = true.
Proof.
  intros Hflat. apply forallb_forall. intros r Hr.
  apply in_map_iff in Hr as (o & <- & Ho). unfold occ_row.
  rewrite (Hflat o Ho). reflexivity.
Qed.

Lemma rows_of_Row3 e occs :
  (forall o, In o occs -> occ_subindex o <> None) ->
  forallb is_Row3 (rows_of e occs) = true.
Proof.
  intros Hsub. apply forallb_forall. intros r Hr.
  apply in_map_iff in Hr as (o & <- & Ho). unfold occ_row.
  specialize (Hsub o Ho). destruct (occ_subindex o); [reflexivity | congruence].
Qed.

(** The items [items] are all of the kind [kind]. *)
Definition all_of_kind (kind : string) (items : list (string * h5obj)) : Prop :=
  forall key d, In (key, H5Dataset d) items -> is_keylike key = true -> dtype d = kind.

(** A file of Samples only, or of Sequences only, has rows of one
    width. *)
Lemma one_kind_one_width kind items :
  kind = "Sample" \/ kind = "Sequence" ->
  all_of_kind kind items -> one_width (index_table_of items) = true.
Proof.
  intros Hkind Hall. unfold one_width, index_table_of.
  destruct Hkind as [-> | ->].
  - rewrite rows_of_Row2; [reflexivity|].
    intros o Ho. apply in_flat_map in Ho as ([key obj] & Hitem & Ho).
    unfold entry_occs in Ho. cbn [fst snd] in Ho.
    destruct obj as [|d]; [destruct Ho|].
    destruct (is_keylike key) eqn:Hk; [|destruct Ho].
    unfold item_occs in Ho. rewrite (Hall key d Hitem Hk) in Ho.
    eapply sample_occs_flat, Ho.
  - rewrite rows_of_Row3; [apply orb_true_r|].
    intros o Ho. apply in_flat_map in Ho as ([key obj] & Hitem & Ho).
    unfold entry_occs in Ho. cbn [fst snd] in Ho.
    destruct obj as [|d]; [destruct Ho|].
    destruct (is_keylike key) eqn:Hk; [|destruct Ho].
    unfold item_occs in Ho. rewrite (Hall key d Hitem Hk) in Ho.
    eapply sequence_occs_sub, Ho.
Qed.

(** *** Items *)

(** A link of the file that belongs to the items: its name is neither
    reserved nor below a reserved name, and a dataset is under a
    key-like name in normal form and of a kind the scan knows.  Groups
    are the ones [create_dataset] made on the way to a dataset. *)
Definition item_entry (e : string * h5obj) : Prop :=
  free_name (fst e) /\
  match snd e with
  | H5Dataset d => is_keylike (fst e) = true /\ cleanse (fst e) = fst e /\
                   scannable d = true
  | H5Group => True
  end.

(** The names of the datasets among the links, in the order of the
    links. *)
Definition dataset_names (items : list (string * h5obj)) : list string :=
  flat_map (fun e => match snd e with H5Dataset _ => [fst e] | H5Group => [] end) items.

Lemma item_entries_free items :
  Forall item_entry items -> Forall (fun e => free_name (fst e)) items.
Proof.
  intros Hitems. eapply Forall_impl; [exact Hitems|]. intros e [He _]. exact He.
Qed.

Lemma item_entries_no_reserved items : Forall item_entry items -> no_reserved items.
Proof. intros Hitems. apply free_no_reserved, item_entries_free, Hitems. Qed.

Lemma item_entries_ok items :
  Forall item_entry items -> forallb entry_ok items = true.
Proof.
  induction 1 as [|[k o] items (_ & Ho) _ IH]; [reflexivity|].
  simpl. rewrite IH, andb_true_r. unfold entry_ok. cbn [fst snd] in *.
  destruct o as [|d]; [reflexivity|]. destruct Ho as (-> & _ & Hs). exact Hs.
Qed.

Lemma item_entries_manifest items :
  Forall item_entry items -> manifest_of items = dataset_names items.
Proof.
  induction 1 as [|[k o] items (_ & Ho) _ IH]; [reflexivity|].
  unfold manifest_of, dataset_names in *. cbn [flat_map]. rewrite IH.
  unfold entry_keys. cbn [fst snd] in *.
  destruct o as [|d]; [reflexivity|]. destruct Ho as (-> & -> & _). reflexivity.
Qed.

Lemma In_dataset_names items k :
  In k (dataset_names items) <-> exists d, In (k, H5Dataset d) items.
Proof.
  unfold dataset_names. rewrite in_flat_map. split.
  - intros ([n [|d]] & Hin & Hk); cbn [fst snd] in Hk; [destruct Hk|].
    destruct Hk as [<-|[]]. exists d. exact Hin.
  - intros (d & Hin). exists (k, H5Dataset d). split; [exact Hin | left; reflexivity].
Qed.

Lemma dataset_names_sub items k : In k (dataset_names items) -> In k (map fst items).
Proof.
  rewrite In_dataset_names. intros (d & Hin).
  apply in_map_iff. exists (k, H5Dataset d). auto.
Qed.

Lemma NoDup_dataset_names items : NoDup (map fst items) -> NoDup (dataset_names items).
Proof.
  induction items as [|[k o] items IH]; intros Hnd; [constructor|].
  cbn [map fst] in Hnd. apply NoDup_cons in Hnd as [Hk Hnd].
  unfold dataset_names in *. cbn [flat_map fst snd].
  destruct o as [|d]; [apply IH, Hnd|].
  cbn [app]. apply NoDup_cons. split; [|apply IH, Hnd].
  intros Hin. apply Hk, list_elem_of_In, dataset_names_sub, list_elem_of_In, Hin.
Qed.

Lemma dataset_names_in_order items :
  in_walk_order (map fst items) -> in_walk_order (dataset_names items).
Proof.
  unfold in_walk_order, dataset_names.
  induction items as [|[k o] items IH]; intros Hs; [constructor|].
  cbn [map fst] in Hs. apply StronglySorted_inv in Hs as [Hs Hall].
  cbn [flat_map fst snd]. destruct o as [|d]; [apply IH, Hs|].
  cbn [app]. constructor; [apply IH, Hs|].
  apply List.Forall_forall. intros n Hn. apply dataset_names_sub in Hn.
  rewrite List.Forall_forall in Hall. apply Hall, Hn.
Qed.

(** The tables a reader returns on [f2] are those of the links [items]:
    the manifest lists exactly the names of their datasets, every code
    of the index table is in the enumeration, every key index is the
    index of a key of the manifest, and all three entries are in the
    file. *)
Definition consistent (items : list (string * h5obj)) (f2 : File.t) : Prop :=
  exists ks e rows,
    fst (keys f2) = Ok ks /\
    fst (label_enum f2) = Ok e /\
    fst (index_table f2) = Ok (NdIndex rows) /\
    tables_present f2 /\
    ks = dataset_names items /\
    enum_ok e /\
    Forall (fun r => exists l, e !! l = Some (row_code r)) rows /\
    Forall (fun r => exists k, In k ks /\ key_to_index k = row_key_index r) rows.

Lemma built_consistent items it :
  Forall item_entry items ->
  it = None \/ it = Some (NdIndex (index_table_of items)) ->
  consistent items (built items it).
Proof.
  intros Hitems Hit. pose proof (item_entries_no_reserved _ Hitems) as Hnr.
  exists (manifest_of items), (label_enum_of items), (index_table_of items).
  rewrite (keys_built _ _ Hnr), (label_enum_built _ _ Hnr),
    (index_table_built _ _ Hnr Hit). cbn [fst].
  split; [reflexivity|]. split; [reflexivity|]. split; [reflexivity|].
  split; [apply built_present|].
  split; [apply item_entries_manifest, Hitems|].
  split; [apply (enum_of_ok _ ∅ enum_ok_empty)|].
  split.
  - apply Forall_forall. intros r Hr. apply index_table_codes.
    apply list_elem_of_In, Hr.
  - apply Forall_forall. intros r Hr.
    apply list_elem_of_In in Hr.
    destruct (index_table_key_index _ _ Hr) as (key & d & Hin & Hk & Hidx).
    exists key. split; [|exact Hidx].
    rewrite (item_entries_manifest _ Hitems). apply In_dataset_names.
    exists d. exact Hin.
Qed.

(** A file with no table in it, whatever its local copies: any of the
    three readers builds all three when the rows have one width. *)
Lemma read_absent items f :
  disk f = items -> Forall item_entry items ->
  one_width (index_table_of items) = true ->
  keys f = (Ok (manifest_of items), built items None) /\
  label_enum f = (Ok (label_enum_of items), built items None) /\
  index_table f = (Ok (NdIndex (index_table_of items)),
                   built items (Some (NdIndex (index_table_of items)))).
Proof.
  intros Hdisk Hitems Hwidth. pose proof (item_entries_no_reserved _ Hitems) as Hnr.
  assert (Hct : create_tables true f = (Ok tt, built items None)).
  { rewrite create_tables_run; rewrite Hdisk, (cleared_id _ Hnr).
    - rewrite Hwidth. reflexivity.
    - apply item_entries_ok, Hitems. }
  pose proof Hnr as (Hk & Hl & Hi). rewrite <- Hdisk in Hk, Hl, Hi.
  destruct (built_present items None) as (Hk' & Hl' & Hi').
  split; [|split].
  - rewrite (keys_rebuild f _ Hk Hct Hk'). apply keys_built, Hnr.
  - rewrite (label_enum_rebuild f _ Hl Hct Hl'). apply label_enum_built, Hnr.
  - rewrite (index_table_rebuild f _ Hi Hct Hi'). apply index_table_built; auto.
Qed.

(** The same file when the rows mix two widths: every reader raises
    [ValueError], and no table is written. *)
Lemma read_ragged items f :
  disk f = items -> Forall item_entry items ->
  one_width (index_table_of items) = false ->
  let f' := mk items (manifest_of items) (label_enum_of items) None in
  keys f = (Raise ValueError, f') /\
  label_enum f = (Raise ValueError, f') /\
  index_table f = (Raise ValueError, f').
Proof.
  intros Hdisk Hitems Hwidth f'. pose proof (item_entries_no_reserved _ Hitems) as Hnr.
  assert (Hct : create_tables true f = (Raise ValueError, f')).
  { rewrite create_tables_run; rewrite Hdisk, (cleared_id _ Hnr).
    - rewrite Hwidth. reflexivity.
    - apply item_entries_ok, Hitems. }
  pose proof Hnr as (Hk & Hl & Hi). rewrite <- Hdisk in Hk, Hl, Hi.
  unfold keys, label_enum, index_table.
  rewrite !(bind_Ok _ _ f false f)
    by (unfold contains, gets; rewrite ?Hk, ?Hl, ?Hi; reflexivity).
  cbn [negb when]. rewrite !(bind_Raise _ _ _ _ _ Hct). auto.
Qed.

(** *** Sequences of operations *)

(** The calls a client makes on a file. *)
Inductive op :=
| Add (key : string) (data : Dataset) (overwrite : bool)
| Remove (key : string)
| Keys
| LabelEnum
| IndexTable.

Definition run_op (o : op) : M File.t unit :=
  match o with
  | Add key data overwrite => add key data overwrite
  | Remove key => remove key
  | Keys => keys ;; ret tt
  | LabelEnum => label_enum ;; ret tt
  | IndexTable => index_table ;; ret tt
  end.

(** The file after a sequence of calls; a call that raises leaves the
    file as it was when it raised. *)
Definition run_ops (ops : list op) (f : File.t) : File.t :=
  fold_left (fun f o => snd (run_op o f)) ops f.

Definition is_mutation (o : op) : bool :=
  match o with Add _ _ _ | Remove _ => true | _ => false end.

(** The item an [Add] leaves in the file is one the scan knows, and
    every attribute it writes is one h5py can store. *)
Definition storable (o : op) : Prop :=
  match o with
  | Add key data _ =>
      scannable (stored key data) = true /\
      writable_attrs (partition_attrs (attrs data)) = true
  | _ => True
  end.

Lemma remove_run key f :
  (mem key (disk f) = false -> remove key f = (Raise AssertionError, f)) /\
  (mem key (disk f) = true ->
   remove key f = (Ok tt, mk (cleared_disk (unlink key (disk f))) [] ∅ None)).
Proof.
  unfold remove. split; intros Hm.
  - unfold bind, contains, gets, assert_, raise. rewrite Hm. reflexivity.
  - rewrite (bind_Ok _ _ f true f) by (unfold contains, gets; rewrite Hm; reflexivity).
    cbn [assert_]. rewrite (bind_Ok _ _ f tt f) by reflexivity.
    rewrite (bind_Ok _ _ f tt (set_disk (unlink key (disk f)) f)) by reflexivity.
    rewrite clear_persistent_run. reflexivity.
Qed.

(** The items of a file in a good state: no name twice, every link an
    item or a group on the way to one, the links in the order of the
    walk. *)
Definition good_items (items : list (string * h5obj)) : Prop :=
  NoDup (map fst items) /\ Forall item_entry items /\ in_walk_order (map fst items).

(** The file holds [items] and either no table at all, or the three
    tables of [items], whose rows then have one width. *)
Definition shape (items : list (string * h5obj)) (f : File.t) : Prop :=
  disk f = items \/
  exists it, (it = None \/ it = Some (NdIndex (index_table_of items))) /\
             one_width (index_table_of items) = true /\
             f = built items it.

Definition Inv (f : File.t) : Prop :=
  exists items, good_items items /\ shape items f.

Lemma shape_cleared items f :
  Forall item_entry items -> shape items f -> cleared_disk (disk f) = items.
Proof.
  intros Hitems [<- | (it & _ & _ & ->)].
  - apply cleared_id. apply item_entries_no_reserved. exact Hitems.
  - apply cleared_built, item_entries_free, Hitems.
Qed.

Lemma Inv_empty : Inv File.empty.
Proof.
  exists []. split; [|left; reflexivity].
  split; [constructor | split; constructor].
Qed.

Lemma keylike_free k : is_keylike k = true -> free_name k.
Proof.
  intros Hk. unfold free_name, at_or_below.
  rewrite (keylike_off_manifest k Hk), (keylike_off_enum k Hk), (keylike_off_index k Hk).
  rewrite !orb_false_r.
  repeat split; apply eqb_ne; intros ->.
  - rewrite manifest_not_keylike in Hk. discriminate.
  - rewrite enum_not_keylike in Hk. discriminate.
  - rewrite index_not_keylike in Hk. discriminate.
Qed.

Lemma keylike_not_reserved k :
  is_keylike k = true ->
  String.eqb KEY_MANIFEST k = false /\ String.eqb LABEL_ENUM k = false /\
  String.eqb INDEX_TABLE k = false.
Proof.
  intros Hk. repeat split; apply eqb_ne; intros <-.
  - rewrite manifest_not_keylike in Hk. discriminate.
  - rewrite enum_not_keylike in Hk. discriminate.
  - rewrite index_not_keylike in Hk. discriminate.
Qed.

(** The groups on the way to a key-like name are no tables either. *)
Lemma ancestor_free k p : is_keylike k = true -> In p (ancestors k) -> free_name p.
Proof.
  intros Hk Hp. apply In_ancestors in Hp.
  assert (Hoff : forall r, below r k = false -> at_or_below r p = false).
  { intros r Hr. destruct (at_or_below r p) eqn:Hrp; [|reflexivity].
    rewrite (at_or_below_trans _ _ _ Hrp Hp) in Hr. discriminate. }
  repeat split; apply Hoff.
  - apply keylike_off_manifest, Hk.
  - apply keylike_off_enum, Hk.
  - apply keylike_off_index, Hk.
Qed.

Lemma good_items_add items key data :
  good_items items ->
  is_keylike (cleanse key) = true ->
  mem (cleanse key) items = false ->
  scannable (stored key data) = true ->
  good_items (link_dataset (cleanse key) (stored key data) items).
Proof.
  intros (Hnd & Hitems & Hs) Hkey Hfresh Hsc. unfold link_dataset.
  split; [|split].
  - apply NoDup_insert_link; [apply mem_ancestor_free, Hfresh|].
    apply NoDup_with_groups, Hnd.
  - apply Forall_forall. intros e He.
    apply list_elem_of_In, In_insert_link in He as [-> | He].
    + split; [apply keylike_free, Hkey|]. cbn [fst snd].
      repeat split; auto. apply cleanse_idempotent.
    + apply In_with_groups in He as [He | (Hg & Hp & _)].
      * rewrite Forall_forall in Hitems. apply Hitems, list_elem_of_In, He.
      * split; [eapply ancestor_free; eassumption|]. rewrite Hg. exact I.
  - apply insert_link_in_order; [|apply with_groups_in_order, Hs].
    apply mem_false_iff, mem_ancestor_free, Hfresh.
Qed.

(** What is left of good items after links are taken away. *)
Lemma good_items_sub items d :
  good_items items -> NoDup (map fst d) -> in_walk_order (map fst d) ->
  (forall e, In e d -> In e items) -> good_items d.
Proof.
  intros (_ & Hitems & _) Hnd Hs Hsub. split; [exact Hnd|]. split; [|exact Hs].
  rewrite Forall_forall in Hitems. apply Forall_forall. intros e He.
  apply Hitems, list_elem_of_In, Hsub, list_elem_of_In, He.
Qed.

Lemma with_tables_in_order items :
  no_reserved items -> in_walk_order (map fst items) ->
  in_walk_order (map fst (with_tables items)).
Proof.
  intros (Hk & Hl & Hi) Hs. unfold with_tables, tbl.
  apply insert_link_in_order;
    [apply mem_false_iff; cbn [fst]; rewrite !mem_insert_link, Hl; reserved_names;
     reflexivity|].
  apply insert_link_in_order;
    [apply mem_false_iff; cbn [fst]; rewrite mem_insert_link, Hk; reserved_names;
     reflexivity|].
  apply insert_link_in_order; [apply mem_false_iff, Hi | exact Hs].
Qed.

Lemma drop_table_in_order k (d : list (string * h5obj)) :
  in_walk_order (map fst d) -> in_walk_order (map fst (drop_table k d)).
Proof. unfold drop_table. destruct (mem k d); [apply unlink_in_order | auto]. Qed.

Lemma cleared_in_order d :
  in_walk_order (map fst d) -> in_walk_order (map fst (cleared_disk d)).
Proof. intros Hs. do 3 apply drop_table_in_order. exact Hs. Qed.

Lemma In_with_tables items e :
  In e (with_tables items) ->
  In e items \/ fst e = KEY_MANIFEST \/ fst e = LABEL_ENUM \/ fst e = INDEX_TABLE.
Proof.
  unfold with_tables, tbl. rewrite !In_insert_link.
  intros [-> | [-> | [-> | He]]]; auto.
Qed.

Lemma NoDup_with_tables items :
  no_reserved items -> NoDup (map fst items) -> NoDup (map fst (with_tables items)).
Proof.
  intros (Hk & Hl & Hi) Hnd. unfold with_tables, tbl.
  apply NoDup_insert_link; [rewrite !mem_insert_link, Hl; reserved_names; reflexivity|].
  apply NoDup_insert_link; [rewrite mem_insert_link, Hk; reserved_names; reflexivity|].
  apply NoDup_insert_link; [exact Hi | exact Hnd].
Qed.

(** The links of a file in a good state, and the items among them. *)
Lemma shape_disk items f :
  good_items items -> shape items f ->
  NoDup (map fst (disk f)) /\ in_walk_order (map fst (disk f)) /\
  (forall e, In e (disk f) ->
     In e items \/ fst e = KEY_MANIFEST \/ fst e = LABEL_ENUM \/ fst e = INDEX_TABLE).
Proof.
  intros (Hnd & Hitems & Hs) [<- | (it & _ & _ & ->)].
  - split; [exact Hnd|]. split; [exact Hs | auto].
  - cbn [built disk]. pose proof (item_entries_no_reserved _ Hitems) as Hnr.
    split; [apply NoDup_with_tables; assumption|].
    split; [apply with_tables_in_order; assumption | apply In_with_tables].
Qed.

Lemma good_items_remove items f key :
  good_items items -> shape items f ->
  good_items (cleared_disk (unlink key (disk f))).
Proof.
  intros Hgood Hshape. destruct (shape_disk _ _ Hgood Hshape) as (Hnd & Hs & Hin).
  apply (good_items_sub items);
    [exact Hgood | apply NoDup_cleared, NoDup_unlink, Hnd
     | apply cleared_in_order, unlink_in_order, Hs |].
  intros e He. pose proof He as He'.
  apply In_cleared, In_unlink in He' as [He' _].
  destruct (Hin e He') as [Hitem | Hres]; [exact Hitem|]. exfalso.
  destruct (cleared_no_reserved (unlink key (disk f))) as (Hk & Hl & Hi).
  assert (Hm : In (fst e) (map fst (cleared_disk (unlink key (disk f)))))
    by (apply in_map, He).
  destruct Hres as [Hr | [Hr | Hr]]; rewrite Hr in Hm;
    [apply mem_false_iff in Hk | apply mem_false_iff in Hl | apply mem_false_iff in Hi];
    auto.
Qed.

(** A mutation that returns leaves the items in a good state and every
    table invalid. *)
Lemma mutation_invalidates o f f1 :
  is_mutation o = true -> storable o -> Inv f ->
  run_op o f = (Ok tt, f1) ->
  good_items (disk f1) /\ f1 = mk (disk f1) [] ∅ None.
Proof.
  intros Hmut Hst (items & Hgood & Hshape) Hrun.
  pose proof (shape_cleared _ _ (proj1 (proj2 Hgood)) Hshape) as Hcl.
  destruct o as [key data ow | key | | |]; try discriminate; cbn [run_op storable] in *.
  - destruct Hst as [Hsc Hw].
    destruct (add_run key data ow f) as (Hbad & Hdup & Hway & Hadd).
    destruct (is_keylike (cleanse key)) eqn:Hkey.
    + rewrite Hcl in *. destruct (mem (cleanse key) items) eqn:Hm.
      * rewrite (Hdup eq_refl eq_refl) in Hrun. discriminate.
      * destruct (existsb (is_dataset_at items) (ancestors (cleanse key))) eqn:Hanc.
        -- rewrite (Hway eq_refl eq_refl eq_refl) in Hrun. discriminate.
        -- rewrite (Hadd eq_refl eq_refl eq_refl Hw) in Hrun. injection Hrun as <-.
           cbn [disk]. split; [|reflexivity].
           apply good_items_add; auto.
    + rewrite (Hbad eq_refl) in Hrun. discriminate.
  - destruct (remove_run key f) as (Habs & Hrem).
    destruct (mem key (disk f)) eqn:Hm.
    + rewrite (Hrem eq_refl) in Hrun. injection Hrun as <-.
      cbn [disk]. split; [|reflexivity].
      eapply good_items_remove; eassumption.
    + rewrite (Habs eq_refl) in Hrun. discriminate.
Qed.

(** The three readers on a file in a good state: each returns the table
    of the items when the rows have one width, and raises [ValueError]
    when they have not; either way the file holds the same items. *)
Lemma shape_reads items f :
  Forall item_entry items -> shape items f ->
  one_width (index_table_of items) = true ->
  (exists f', keys f = (Ok (manifest_of items), f') /\ shape items f') /\
  (exists f', label_enum f = (Ok (label_enum_of items), f') /\ shape items f') /\
  (exists f', index_table f = (Ok (NdIndex (index_table_of items)), f')
              /\ shape items f').
Proof.
  intros Hitems Hshape Hwidth. pose proof (item_entries_no_reserved _ Hitems) as Hnr.
  destruct Hshape as [Hdisk | (it & Hit & _ & ->)].
  - destruct (read_absent items f Hdisk Hitems Hwidth) as (Hk & Hl & Hi).
    split; [|split]; eexists; (split; [eassumption|]); right; eexists; eauto.
  - rewrite (keys_built _ _ Hnr), (label_enum_built _ _ Hnr),
      (index_table_built _ _ Hnr Hit).
    split; [|split]; eexists; (split; [reflexivity|]); right; eexists; eauto.
Qed.

Lemma shape_reads_ragged items f :
  Forall item_entry items -> shape items f ->
  one_width (index_table_of items) = false ->
  exists f', shape items f' /\
    keys f = (Raise ValueError, f') /\
    label_enum f = (Raise ValueError, f') /\
    index_table f = (Raise ValueError, f').
Proof.
  intros Hitems Hshape Hwidth.
  destruct Hshape as [Hdisk | (it & _ & Hw & _)]; [|congruence].
  eexists. split; [|apply (read_ragged items f Hdisk Hitems Hwidth)].
  left. reflexivity.
Qed.

Lemma read_keeps_shape items f o :
  Forall item_entry items -> shape items f ->
  is_mutation o = false -> shape items (snd (run_op o f)).
Proof.
  intros Hitems Hshape Hread.
  destruct (one_width (index_table_of items)) eqn:Hwidth.
  - destruct (shape_reads items f Hitems Hshape Hwidth)
      as ((fk & Hk & Hsk) & (fl & Hl & Hsl) & (fi & Hi & Hsi)).
    destruct o; try discriminate; cbn [run_op]; unfold bind.
    + rewrite Hk. exact Hsk.
    + rewrite Hl. exact Hsl.
    + rewrite Hi. exact Hsi.
  - destruct (shape_reads_ragged items f Hitems Hshape Hwidth)
      as (f' & Hs & Hk & Hl & Hi).
    destruct o; try discriminate; cbn [run_op]; unfold bind.
    + rewrite Hk. exact Hs.
    + rewrite Hl. exact Hs.
    + rewrite Hi. exact Hs.
Qed.

(** Every call keeps the file in a good state. *)
Lemma run_op_Inv o f : storable o -> Inv f -> Inv (snd (run_op o f)).
Proof.
  intros Hst HInv. pose proof HInv as (items & Hgood & Hshape).
  pose proof (shape_cleared _ _ (proj1 (proj2 Hgood)) Hshape) as Hcl.
  destruct (is_mutation o) eqn:Hmut.
  - destruct o as [key data ow | key | | |]; try discriminate; cbn [run_op storable] in *.
    + destruct Hst as [Hsc Hw].
      destruct (add_run key data ow f) as (Hbad & Hdup & Hway & Hadd).
      destruct (is_keylike (cleanse key)) eqn:Hkey.
      * rewrite Hcl in *. destruct (mem (cleanse key) items) eqn:Hm.
        -- rewrite (Hdup eq_refl eq_refl).
           exists items. split; [exact Hgood | left; reflexivity].
        -- destruct (existsb (is_dataset_at items) (ancestors (cleanse key))) eqn:Hanc.
           ++ rewrite (Hway eq_refl eq_refl eq_refl).
              exists items. split; [exact Hgood | left; reflexivity].
           ++ rewrite (Hadd eq_refl eq_refl eq_refl Hw).
              eexists. split; [|left; reflexivity].
              apply good_items_add; auto.
      * rewrite (Hbad eq_refl). exact HInv.
    + destruct (remove_run key f) as (Habs & Hrem).
      destruct (mem key (disk f)) eqn:Hm.
      * rewrite (Hrem eq_refl). eexists. split; [|left; reflexivity].
        eapply good_items_remove; eassumption.
      * rewrite (Habs eq_refl). exact HInv.
  - exists items. split; [exact Hgood|].
    apply read_keeps_shape; [apply Hgood | exact Hshape | exact Hmut].
Qed.

Lemma run_ops_Inv ops : forall f,
  Forall storable ops -> Inv f -> Inv (run_ops ops f).
Proof.
  induction ops as [|o ops IH]; intros f Hst HInv; [exact HInv|].
  apply Forall_cons in Hst as [Ho Hst].
  cbn [run_ops fold_left]. apply IH; [exact Hst|]. apply run_op_Inv; auto.
Qed.


(** *** Three Sample items *)

Lemma enum_of_dom ls l : l ∈ dom (enum_of ∅ ls) <-> In l ls.
Proof.
  rewrite elem_of_dom. split.
  - intros [c Hc]. destruct (in_dec string_dec l ls) as [Hin|Hnin]; [exact Hin|].
    rewrite (enum_of_lookup_None ls ∅ l) in Hc; [discriminate | apply lookup_empty | exact Hnin].
  - apply enum_of_covers.
Qed.

(** C8: a file holding exactly the three Sample items [a], [b], [c] with
    the labels [x], [y], [x], whatever the order in which the scan meets
    them: [create_tables()] gives an enumeration that maps the labels
    [x] and [y] one-to-one onto the codes 0 and 1, and an index table of
    exactly three rows, two with the code of [x] and one with the code
    of [y]. *)
Theorem create_tables_three_samples (f : File.t) (da db dc : Dataset)
  (la lb lc : string) :
  is_keylike "a" = true -> is_keylike "b" = true -> is_keylike "c" = true ->
  dtype da = "Sample" -> dtype db = "Sample" -> dtype dc = "Sample" ->
  dlabels da = [(la, LOne "x")] ->
  dlabels db = [(lb, LOne "y")] ->
  dlabels dc = [(lc, LOne "x")] ->
  Permutation (disk f)
    [("a", H5Dataset da); ("b", H5Dataset db); ("c", H5Dataset dc)] ->
  exists f' e rows cx cy,
    create_tables true f = (Ok tt, f') /\
    fst (label_enum f') = Ok e /\
    fst (index_table f') = Ok (NdIndex rows) /\
    dom e = {["x"; "y"]} /\
    e !! "x" = Some cx /\ e !! "y" = Some cy /\
    (cx = 0 /\ cy = 1 \/ cx = 1 /\ cy = 0) /\
    length rows = 3%nat /\
    length (filter (fun r => row_code r = cx) rows) = 2%nat /\
    length (filter (fun r => row_code r = cy) rows) = 1%nat.
Proof.
  intros Ha Hb Hc Hta Htb Htc Hla Hlb Hlc Hperm.
  set (three := [("a", H5Dataset da); ("b", H5Dataset db); ("c", H5Dataset dc)]) in *.
  assert (Hnames : forall k, In k (map fst (disk f)) -> k = "a" \/ k = "b" \/ k = "c").
  { intros k Hk. apply (Permutation_in _ (Permutation_map fst Hperm)) in Hk.
    simpl in Hk. intuition auto. }
  assert (Hnr : no_reserved (disk f)).
  { repeat split; apply mem_false_iff; intros Hin; apply Hnames in Hin;
      destruct Hin as [Hk|[Hk|Hk]];
      pose proof manifest_not_keylike; pose proof enum_not_keylike;
      pose proof index_not_keylike; rewrite Hk in *; congruence. }
  assert (Hocc3 : occs_of three
                  = [mkOcc (key_to_index "a") None "x";
                     mkOcc (key_to_index "b") None "y";
                     mkOcc (key_to_index "c") None "x"]).
  { unfold occs_of, three, entry_occs, item_occs. cbn [flat_map fst snd].
    rewrite Ha, Hb, Hc, Hta, Htb, Htc, Hla, Hlb, Hlc. reflexivity. }
  assert (Hok : forallb entry_ok (disk f) = true).
  { apply forallb_forall. intros e He. apply (Permutation_in _ Hperm) in He.
    unfold entry_ok, scannable.
    destruct He as [<-|[<-|[<-|[]]]]; cbn [fst snd];
      rewrite ?Ha, ?Hb, ?Hc, ?Hta, ?Htb, ?Htc, ?Hla, ?Hlb, ?Hlc; reflexivity. }
  set (E := label_enum_of (disk f)).
  assert (Hoccs : Permutation (occs_of (disk f)) (occs_of three)).
  { unfold occs_of. apply Permutation_flat_map, Hperm. }
  assert (Hlabels : forall l, In l (map occ_label (occs_of (disk f)))
                              <-> l = "x" \/ l = "y").
  { intros l. split.
    - intros Hin. apply (Permutation_in _ (Permutation_map occ_label Hoccs)) in Hin.
      rewrite Hocc3 in Hin. simpl in Hin. intuition auto.
    - intros Hl.
      apply (Permutation_in _ (Permutation_sym (Permutation_map occ_label Hoccs))).
      rewrite Hocc3. simpl. intuition auto. }
  assert (Hdom : dom E = {["x"; "y"]}).
  { apply set_eq. intros l. unfold E, label_enum_of.
    rewrite enum_of_dom, Hlabels.
    rewrite elem_of_union, !elem_of_singleton. reflexivity. }
  assert (HEok : enum_ok E) by apply (enum_of_ok _ ∅ enum_ok_empty).
  assert (Hsize : size E = 2%nat).
  { rewrite <- size_dom, Hdom. vm_compute. reflexivity. }
  assert (Hx : "x" ∈ dom E) by (apply enum_of_dom, Hlabels; auto).
  assert (Hy : "y" ∈ dom E) by (apply enum_of_dom, Hlabels; auto).
  apply elem_of_dom in Hx as [cx Hcx]. apply elem_of_dom in Hy as [cy Hcy].
  destruct HEok as (Hrange & Hinj & _).
  assert (Hne : cx <> cy).
  { intros ->. specialize (Hinj _ _ _ Hcx Hcy). discriminate. }
  pose proof (Hrange _ _ Hcx) as Hrx. pose proof (Hrange _ _ Hcy) as Hry.
  rewrite Hsize in Hrx, Hry.
  assert (Hrows : Permutation (index_table_of (disk f))
                    [Row2 (key_to_index "a") cx; Row2 (key_to_index "b") cy;
                     Row2 (key_to_index "c") cx]).
  { unfold index_table_of, rows_of. fold E.
    rewrite (Permutation_map _ Hoccs), Hocc3. cbn [map occ_row occ_subindex occ_key_index occ_label].
    unfold code_of. rewrite Hcx, Hcy. reflexivity. }
  assert (Hwidth : one_width (index_table_of (disk f)) = true).
  { unfold one_width. rewrite (proj2 (forallb_forall _ _)); [reflexivity|].
    intros r Hr. apply (Permutation_in _ Hrows) in Hr.
    destruct Hr as [<-|[<-|[<-|[]]]]; reflexivity. }
  pose proof (create_tables_run true f) as Hct.
  rewrite (cleared_id _ Hnr), Hwidth in Hct. specialize (Hct Hok).
  exists (built (disk f) None), E, (index_table_of (disk f)), cx, cy.
  rewrite (label_enum_built _ _ Hnr), (index_table_built _ _ Hnr (or_introl eq_refl)).
  cbn [fst].
  split; [exact Hct|]. split; [reflexivity|]. split; [reflexivity|].
  split; [exact Hdom|]. split; [exact Hcx|]. split; [exact Hcy|].
  split; [lia|].
  split; [rewrite (Permutation_length Hrows); reflexivity|].
  split.
  - rewrite (Permutation_length (filter_Permutation _ _ _ Hrows)).
    rewrite !filter_cons, filter_nil. cbn [row_code].
    repeat case_decide; (reflexivity || congruence).
  - rewrite (Permutation_length (filter_Permutation _ _ _ Hrows)).
    rewrite !filter_cons, filter_nil. cbn [row_code].
    repeat case_decide; (reflexivity || congruence).
Qed.

End TableFacts.

(** * The scenario: the properties on concrete files, caches and batches *)

Section ScenarioChecks.
Import Scenario.
#[local] Existing Instance collaborators.

Lemma scenario_keylike_free k r :
  is_keylike k = true -> In r reserved -> at_or_below r k = false.
Proof.
  cbn [is_keylike collaborators with_factory]. intros Hk Hr.
  apply andb_true_iff in Hk as [_ Hk]. apply negb_true_iff in Hk.
  destruct (at_or_below r k) eqn:Hrk; [|reflexivity].
  rewrite (proj2 (existsb_exists _ _)) in Hk; [discriminate|].
  exists r. auto.
Qed.

Lemma scenario_keylike_off k r :
  is_keylike k = true -> In r reserved -> below r k = false.
Proof.
  intros Hk Hr. pose proof (scenario_keylike_free k r Hk Hr) as Hoff.
  unfold at_or_below in Hoff. apply orb_false_iff in Hoff. apply Hoff.
Qed.

Lemma scenario_reserved : @ReservedSpec collaborators.
Proof.
  constructor; try (discriminate || reflexivity);
    intros k Hk; apply (scenario_keylike_off k _ Hk); simpl; auto.
Qed.

Lemma scenario_encoding : @FaithfulEncoding collaborators.
Proof.
  constructor.
  - intros d. exists d. auto.
  - intros key data. reflexivity.
Qed.

(** ** The store *)




(** C7, the claim refuted: an item whose label is the empty string
    comes back from [get] without that label.  The loop of [add] skips
    the attribute, so the dataset in the file does not have it, and
    [get] hands that dataset to the item factory, whatever the factory
    is. *)
Lemma add_get_drops_empty_label :
  let data := sample "a" [1] "" in
  let f := snd (File.add "a" data false File.empty) in
  fst (File.add "a" data false File.empty) = Ok tt /\
  (exists item, fst (File.get "a" f) = Ok item /\
                dlabels data = [("chord", LOne "")] /\
                dlabels item = []) /\
  attrs data !! "chord" = Some (AStr "") /\
  (exists ds, assoc "a" (File.disk f) = Some (H5Dataset ds) /\
              attrs ds !! "chord" = None /\
              forall Fac, @File.get (with_factory Fac) "a" f = (Fac (H5Dataset ds), f)).
Proof.
  cbv zeta. split; [vm_compute; reflexivity|]. split.
  - eexists. split; [vm_compute; reflexivity|].
    split; vm_compute; reflexivity.
  - split; [vm_compute; reflexivity|].
    exists (mkDataset "a" (NdNum [1]) {["type" := AStr "Sample"]}).
    split; [vm_compute; reflexivity|]. split; [vm_compute; reflexivity|].
    intros Fac. vm_compute. reflexivity.
Qed.

(** An integer attribute beyond 64 bits: [add] raises [TypeError] once
    the dataset is in the file, and the dataset stays there without the
    attribute. *)
Lemma add_large_integer_raises :
  let data := mkDataset "a" (NdNum [1])
                (<["gain" := AInt (2 ^ 64)]> {["type" := AStr "Sample"]}) in
  let f := snd (File.add "a" data false File.empty) in
  fst (File.add "a" data false File.empty) = Raise TypeError /\
  mem "a" (File.disk f) = true /\
  (exists ds, assoc "a" (File.disk f) = Some (H5Dataset ds) /\
              attrs ds !! "gain" = None).
Proof.
  cbv zeta. split; [vm_compute; reflexivity|]. split; [vm_compute; reflexivity|].
  destruct (assoc "a" (File.disk (snd (File.add "a"
              (mkDataset "a" (NdNum [1])
                 (<["gain" := AInt (2 ^ 64)]> {["type" := AStr "Sample"]}))
              false File.empty)))) as [[|ds]|] eqn:Ha; try (vm_compute in Ha; discriminate).
  exists ds. split; [reflexivity|].
  vm_compute in Ha. injection Ha as <-. vm_compute. reflexivity.
Qed.

(** C7 on an item with a label that is not empty, stored under the
    path-like key [g/a] in a file that holds [b]. *)
Lemma add_get_roundtrip_witness :
  let f := snd (File.add "b" (sample "b" [2] "y") false File.empty) in
  exists f' item,
    File.add "g/a" (sample "g/a" [1] "x") false f = (Ok tt, f') /\
    File.get (cleanse "g/a") f' = (Ok item, f') /\
    value item = value (sample "g/a" [1] "x") /\
    dlabels item = dlabels (sample "g/a" [1] "x").
Proof.
  intros f.
  apply (add_get_roundtrip (HE := scenario_encoding) f "g/a"
           (sample "g/a" [1] "x") false).
  - reflexivity.
  - reflexivity.
  - intros p ds [<-|[]]. vm_compute. discriminate.
  - intros k v. cbn [partition_attrs collaborators with_factory attrs sample].
    intros Hkv. apply lookup_insert_Some in Hkv as [[_ <-]|[_ Hkv]]; [split; reflexivity|].
    apply lookup_singleton_Some in Hkv as [_ <-]. split; reflexivity.
Defined.

(** C8 on the scan order [b], [c], [a]. *)
Lemma create_tables_three_samples_witness :
  exists f' e rows cx cy,
    File.create_tables true
      (File.mk [("b", H5Dataset (sample "b" [2] "y"));
                ("c", H5Dataset (sample "c" [3] "x"));
                ("a", H5Dataset (sample "a" [1] "x"))] [] ∅ None) = (Ok tt, f') /\
    fst (File.label_enum f') = Ok e /\
    fst (File.index_table f') = Ok (NdIndex rows) /\
    dom e = {["x"; "y"]} /\
    e !! "x" = Some cx /\ e !! "y" = Some cy /\
    (cx = 0 /\ cy = 1 \/ cx = 1 /\ cy = 0) /\
    length rows = 3%nat /\
    length (filter (fun r => row_code r = cx) rows) = 2%nat /\
    length (filter (fun r => row_code r = cy) rows) = 1%nat.
Proof.
  apply (create_tables_three_samples (HR := scenario_reserved) _
           (sample "a" [1] "x") (sample "b" [2] "y") (sample "c" [3] "x")
           "chord" "chord" "chord"); try (vm_compute; reflexivity).
  cbn [File.disk].
  apply Permutation_sym.
  exact (Permutation_cons_append
           [("b", H5Dataset (sample "b" [2] "y")); ("c", H5Dataset (sample "c" [3] "x"))]
           ("a", H5Dataset (sample "a" [1] "x"))).
Defined.

(** ** The cache *)

(** C2, the failing input: the source has one item and the cache is
    asked to hold five, so the data fits and the constructor takes the
    branch that is to disable replacement.  The branch sets the local
    [refresh_prob] to zero after [self._refresh_prob] was assigned, so
    the cache keeps the probability it was given, here 1.0; [refresh]
    with no probability argument then evicts [a], the load that follows
    finds the source exhausted, and the cache is left empty. *)
Theorem fitting_cache_still_evicts :
  let c := snd (Cache.new source_a 5 1 rng0) in
  let c' := snd (Cache.refresh "a" None c) in
  num_items source_a < 5 /\
  fst (Cache.new source_a 5 1 rng0) = Ok tt /\
  Cache._refresh_prob c = 1%Q /\
  map fst (map_to_list (Cache.resident c)) = ["a"] /\
  fst (Cache.refresh "a" None c) = Raise StopIteration /\
  map fst (map_to_list (Cache.resident c')) = [].
Proof. vm_compute. repeat split; reflexivity. Qed.

(** C4, the claim refuted: [b] is not resident, and [refresh] with
    probability 0.0 returns without raising. *)
Lemma refresh_absent_key_returns :
  let c := snd (Cache.new source_ab 1 (1 # 4) rng0) in
  Cache.resident c !! "b" = None /\
  fst (Cache.refresh "b" (Some 0%Q) c) = Ok tt.
Proof. vm_compute. split; reflexivity. Qed.

(** C4 on the cache that holds [a], with [b] next in the source. *)
Lemma refresh_eviction_witness :
  let c := snd (Cache.new source_ab 1 (1 # 4) rng0) in
  (exists r', Cache.refresh "b" (Some 1%Q) c = (Raise KeyError, Cache.set_rng r' c)) /\
  (exists c', Cache.refresh "a" (Some 1%Q) c = (Ok tt, c') /\
     Cache.resident c'
     = <["b" := sample "b" [2] "y"]> (delete "a" (Cache.resident c)) /\
     Cache.source c' = bump (Cache.source c)).
Proof.
  intros c. split.
  - apply (proj1 (proj1 (refresh_eviction c "b") ltac:(reflexivity))).
  - apply (proj1 (proj2 (refresh_eviction c "a") ltac:(vm_compute; eauto))
             ("b", sample "b" [2] "y")).
    reflexivity.
Defined.

(** C5, the failing input: a cache of one item whose enumeration has
    been read; [load(1)] brings in [b] with the new label [y], and
    [label_enum()] still returns the enumeration of [a] alone, where a
    rebuild over the resident items has both labels. *)
Lemma load_leaves_tables_stale :
  let c0 := snd (Cache.new source_ab 1 (1 # 4) rng0) in
  let c1 := snd (Cache.label_enum c0) in
  let c2 := snd (Cache.load 1 c1) in
  fst (Cache.load 1 c1) = Ok tt /\
  Cache.resident c2 !! "b" = Some (sample "b" [2] "y") /\
  (exists e, fst (Cache.label_enum c2) = Ok e /\
             e !! "x" = Some 0 /\ e !! "y" = None) /\
  Cache._label_enum (snd (Cache.create_tables c2)) !! "x" = Some 0 /\
  Cache._label_enum (snd (Cache.create_tables c2)) !! "y" = Some 1.
Proof.
  cbv zeta. split; [vm_compute; reflexivity|]. split; [vm_compute; reflexivity|].
  split; [|split; vm_compute; reflexivity].
  eexists. split; [vm_compute; reflexivity|]. split; vm_compute; reflexivity.
Qed.

(** ** The batches *)

(** C9, the claim refuted: the source yields the key [a] twice; the
    refresh of a batch of two succeeds and the batch holds one item. *)
Lemma refresh_duplicate_keys :
  let b := LabelBatch.__init__ source_aa 2 "chord" [1] in
  fst (LabelBatch.refresh b) = Ok tt /\
  LabelBatch._batch_size (snd (LabelBatch.refresh b)) = 2 /\
  length (LabelBatch.items (snd (LabelBatch.refresh b))) = 1%nat.
Proof. vm_compute. repeat split; reflexivity. Qed.

(** C9 on a source of two items with different keys. *)
Lemma refresh_pulls_batch_witness :
  let b := LabelBatch.__init__ source_ab 2 "chord" [1] in
  exists b', LabelBatch.refresh b = (Ok tt, b') /\
    LabelBatch.items b' = od_of_list [] (pulled source_ab 2) /\
    cursor (LabelBatch.source b') = 2%nat /\
    (length (LabelBatch.items b') <= 2)%nat /\
    (NoDup (map fst (pulled source_ab 2)) -> length (LabelBatch.items b') = 2%nat).
Proof.
  intros b. apply (proj1 (refresh_pulls_batch b)). reflexivity.
Defined.


(** C10 on a batch size of five: four pairs. *)
Lemma pair_lengths_witness :
  exists s1,
    PairedBatch._pair_loops paired_odd = (Ok tt, s1) /\
    length (PairedBatch._idx_A s1) = length (PairedBatch._idx_B s1) /\
    PairedBatch._idx_A (snd (PairedBatch._pair paired_odd)) = PairedBatch._idx_A s1 /\
    PairedBatch._idx_B (snd (PairedBatch._pair paired_odd)) = PairedBatch._idx_B s1 /\
    length (PairedBatch._idx_A (snd (PairedBatch._pair paired_odd)))
    = length (PairedBatch._idx_B (snd (PairedBatch._pair paired_odd))) /\
    Z.of_nat (length (PairedBatch._idx_A (snd (PairedBatch._pair paired_odd)))) = 2 * (5 / 2) /\
    (Z.odd 5 = true ->
     Z.of_nat (length (PairedBatch._idx_A (snd (PairedBatch._pair paired_odd)))) = 5 - 1).
Proof.
  apply (pair_lengths paired_odd (snd (PairedBatch._pair paired_odd))).
  - vm_compute. discriminate.
  - vm_compute. reflexivity.
Defined.

(** C10, the claim refuted: a batch whose size is -3.  Both loops run
    over an empty range, the pairing pass completes, and the two index
    lists are empty, while [2 * (batch_size // 2)] is -4 and
    [batch_size - 1] is -4 as well. *)
Lemma pair_negative_batch_size :
  let s := PairedBatch.mk (LabelBatch.__init__ source_xxyy (-3) "chord" [1]) [] [] rng0 in
  let s' := snd (PairedBatch._pair s) in
  LabelBatch._batch_size (PairedBatch.base s) = -3 /\
  PairedBatch._pair s = (Ok tt, s') /\
  length (PairedBatch._idx_A s') = 0%nat /\
  length (PairedBatch._idx_B s') = 0%nat /\
  2 * (LabelBatch._batch_size (PairedBatch.base s) / 2) = -4 /\
  Z.of_nat (length (PairedBatch._idx_A s'))
  <> 2 * (LabelBatch._batch_size (PairedBatch.base s) / 2).
Proof. vm_compute. repeat split; (reflexivity || discriminate). Qed.

End ScenarioChecks.

(** * Further properties *)

(** ** The store between mutations *)

Section StoreReads.
Context `{HR : ReservedSpec}.
Import File.

(** A call that only reads. *)
Definition is_read (o : op) : bool := negb (is_mutation o).

(** The links of a file that are not reserved entries: its items, and
    the groups on the way to them. *)
Definition item_links (f : File.t) : list (string * h5obj) :=
  cleared_disk (disk f).

Lemma Inv_item_links f :
  Inv f -> good_items (item_links f) /\ shape (item_links f) f.
Proof.
  intros (items & Hgood & Hshape). unfold item_links.
  rewrite (shape_cleared _ _ (proj1 (proj2 Hgood)) Hshape). auto.
Qed.

Lemma reads_keep_shape items rs : forall f,
  Forall item_entry items -> shape items f ->
  forallb is_read rs = true -> shape items (run_ops rs f).
Proof.
  induction rs as [|o rs IH]; intros f Hitems Hshape Hrs; [exact Hshape|].
  simpl in Hrs. apply andb_true_iff in Hrs as [Ho Hrs].
  cbn [run_ops fold_left]. apply IH; auto. apply read_keeps_shape; auto.
  apply negb_true_iff, Ho.
Qed.


(** X2: between mutations the tables do not move: after any further
    reads, in any order and number, each of the three readers returns
    what it would have returned before them, a table or the
    [ValueError] of rows that do not fit one array, and the items of
    the file are the same. *)
Theorem reads_are_stable (ops rs : list op) :
  Forall storable ops -> forallb is_read rs = true ->
  let f := run_ops ops File.empty in
  let f' := run_ops rs f in
  fst (keys f') = fst (keys f) /\
  fst (label_enum f') = fst (label_enum f) /\
  fst (index_table f') = fst (index_table f) /\
  item_links f' = item_links f.
Proof.
  intros Hops Hrs f f'.
  destruct (Inv_item_links _ (run_ops_Inv ops File.empty Hops Inv_empty))
    as ((Hnd & Hitems & _) & Hshape). fold f in Hnd, Hitems, Hshape.
  pose proof (reads_keep_shape _ rs f Hitems Hshape Hrs) as Hshape'. fold f' in Hshape'.
  assert (Hlinks : item_links f' = item_links f)
    by (unfold item_links at 1; apply shape_cleared; auto).
  destruct (one_width (index_table_of (item_links f))) eqn:Hwidth.
  - destruct (shape_reads _ _ Hitems Hshape Hwidth)
      as ((? & -> & _) & (? & -> & _) & (? & -> & _)).
    destruct (shape_reads _ _ Hitems Hshape' Hwidth)
      as ((? & -> & _) & (? & -> & _) & (? & -> & _)).
    auto.
  - destruct (shape_reads_ragged _ _ Hitems Hshape Hwidth) as (? & _ & -> & -> & ->).
    destruct (shape_reads_ragged _ _ Hitems Hshape' Hwidth) as (? & _ & -> & -> & ->).
    auto.
Qed.

End StoreReads.

(** ** What the tables say about the items *)

Section StoreTables.
Context `{HR : ReservedSpec}.
Import File.

Lemma seq_occs_lookup ki ls : forall n i l,
  ls !! i = Some l ->
  In (mkOcc ki (Some (Z.of_nat (n + i))) l) (seq_occs ki n ls).
Proof.
  induction ls as [|l0 ls IH]; intros n i l Hl; [discriminate|].
  destruct i as [|i]; simpl in Hl.
  - injection Hl as ->. left. rewrite Nat.add_0_r. reflexivity.
  - right. replace (n + Datatypes.S i)%nat with (Datatypes.S n + i)%nat by lia.
    apply IH, Hl.
Qed.

Lemma occs_of_item items key d o :
  In (key, H5Dataset d) items -> is_keylike key = true ->
  In o (item_occs key d) -> In o (occs_of items).
Proof.
  intros Hin Hk Ho. unfold occs_of. apply in_flat_map.
  exists (key, H5Dataset d). split; [exact Hin|].
  unfold entry_occs. cbn [fst snd]. rewrite Hk. exact Ho.
Qed.

(** Every occurrence has its row in the index table, with the code the
    enumeration gives its label. *)
Lemma occ_has_row items o :
  In o (occs_of items) ->
  exists c, label_enum_of items !! occ_label o = Some c /\
            In (occ_row o c) (index_table_of items).
Proof.
  intros Ho.
  destruct (enum_of_covers (map occ_label (occs_of items)) ∅ (occ_label o)) as [c Hc].
  { apply in_map, Ho. }
  exists c. split; [exact Hc|].
  unfold index_table_of, rows_of. apply in_map_iff. exists o. split; [|exact Ho].
  unfold code_of, label_enum_of. rewrite Hc. reflexivity.
Qed.

Lemma In_drop_table_keep k (d : list (string * h5obj)) e :
  In e d -> at_or_below k (fst e) = false -> In e (drop_table k d).
Proof.
  intros He Hk. unfold drop_table. destruct (mem k d); [|exact He].
  apply In_unlink. auto.
Qed.

Lemma item_link_In f key o :
  In (key, o) (disk f) -> is_keylike key = true -> In (key, o) (item_links f).
Proof.
  intros Hin Hk. destruct (keylike_free _ Hk) as (Fk & Fl & Fi).
  unfold item_links, cleared_disk.
  repeat (apply In_drop_table_keep; [|assumption]). exact Hin.
Qed.


(** *** Codes in order of first appearance *)

Lemma enum_of_first pre l post :
  ~ In l pre ->
  enum_of ∅ (pre ++ l :: post) !! l = Some (Z.of_nat (size (enum_of ∅ pre))).
Proof.
  intros Hnin. rewrite enum_of_app. cbn [enum_of fold_left].
  apply enum_of_lookup_mono. unfold enum_step.
  rewrite (enum_of_lookup_None pre ∅ l (lookup_empty l) Hnin).
  apply lookup_insert_eq.
Qed.

Lemma enum_of_size ls :
  size (enum_of ∅ ls) = size (list_to_set ls : gset string).
Proof.
  rewrite <- size_dom. f_equal. apply set_eq. intros l.
  rewrite enum_of_dom, elem_of_list_to_set, list_elem_of_In. reflexivity.
Qed.

(** The links [items] are key-like Sample items with one label each,
    [labels] their labels in the order of the links. *)
Definition single_labels (items : list (string * h5obj)) (labels : list string) : Prop :=
  Forall2 (fun e l => exists d lk, snd e = H5Dataset d /\ is_keylike (fst e) = true /\
                                   dtype d = "Sample" /\ dlabels d = [(lk, LOne l)])
          items labels.

Lemma single_labels_occs items labels :
  single_labels items labels ->
  map occ_label (occs_of items) = labels /\ forallb entry_ok items = true.
Proof.
  induction 1 as [|[k o] l items labels (d & lk & Ho & Hk & Ht & Hl) _ [IHo IHk]].
  - split; reflexivity.
  - cbn [fst snd] in *. subst o. unfold occs_of in *. cbn [flat_map forallb].
    rewrite map_app, IHo, IHk.
    unfold entry_occs, entry_ok, item_occs, scannable. cbn [fst snd].
    rewrite Hk, Ht, Hl. split; reflexivity.
Qed.

Lemma single_labels_no_reserved items labels :
  single_labels items labels -> no_reserved items.
Proof.
  induction 1 as [|[k o] l items labels (d & lk & Ho & Hk & _) _ (IHk & IHl & IHi)].
  - repeat split.
  - cbn [fst snd] in *. destruct (keylike_not_reserved _ Hk) as (Ek & El & Ei).
    unfold no_reserved, mem in *. cbn [assoc]. rewrite Ek, El, Ei. auto.
Qed.

Lemma single_labels_kind items labels :
  single_labels items labels -> all_of_kind "Sample" items.
Proof.
  induction 1 as [|[k o] l items labels (d & lk & Ho & _ & Ht & _) _ IH];
    intros key d' Hin Hk; [destruct Hin|].
  cbn [fst snd] in *. destruct Hin as [Heq|Hin]; [|exact (IH key d' Hin Hk)].
  injection Heq as _ Heq. subst o. injection Heq as <-. exact Ht.
Qed.

(** X4: label codes are given in order of first appearance.  On a file
    of Sample items with one label each, [label_enum()] gives a label
    the number of distinct labels that the scan met before it. *)
Theorem codes_in_first_seen_order (f : File.t) (labels pre post : list string)
  (l : string) :
  single_labels (disk f) labels ->
  labels = pre ++ l :: post -> ~ In l pre ->
  exists e, fst (label_enum f) = Ok e /\
            e !! l = Some (Z.of_nat (size (list_to_set pre : gset string))).
Proof.
  intros Hsingle Hsplit Hnin.
  pose proof (single_labels_no_reserved _ _ Hsingle) as Hnr.
  destruct (single_labels_occs _ _ Hsingle) as [Hocc Hok].
  assert (Hct : create_tables true f = (Ok tt, built (disk f) None)).
  { rewrite create_tables_run; rewrite (cleared_id _ Hnr); auto.
    rewrite (one_kind_one_width "Sample"); auto.
    eapply single_labels_kind, Hsingle. }
  destruct (built_present (disk f) None) as (_ & Hl' & _).
  exists (label_enum_of (disk f)). split.
  - rewrite (label_enum_rebuild f _ (proj1 (proj2 Hnr)) Hct Hl').
    rewrite (label_enum_built _ _ Hnr). reflexivity.
  - unfold label_enum_of. rewrite Hocc, Hsplit, <- enum_of_size.
    apply enum_of_first, Hnin.
Qed.

End StoreTables.

(** ** The store: failures and undoing *)

Section StoreFailures.
Context `{HR : ReservedSpec}.
Import File.

Lemma assoc_cleared k d :
  free_name k -> assoc k (cleared_disk d) = assoc k d.
Proof.
  intros (Fk & Fl & Fi). unfold cleared_disk.
  rewrite !assoc_drop_table_keep by assumption. reflexivity.
Qed.

Lemma mem_assoc {A} k (l : list (string * A)) :
  mem k l = match assoc k l with Some _ => true | None => false end.
Proof. reflexivity. Qed.

(** X5: [add] never replaces an item.  When the cleansed key is already
    in the file, [add] raises whatever [overwrite] says, and the item
    stored under the key is the one that was there; the derived tables
    are gone all the same.  When the cleansed key is not key-like, [add]
    raises [AssertionError] and the file is as it was. *)
Theorem add_never_overwrites (f : File.t) (key : string) (data : Dataset)
  (overwrite : bool) :
  (is_keylike (cleanse key) = true ->
   mem (cleanse key) (disk f) = true ->
   exists f', add key data overwrite f = (Raise RuntimeError, f') /\
              assoc (cleanse key) (disk f') = assoc (cleanse key) (disk f) /\
              tables_absent f') /\
  (is_keylike (cleanse key) = false ->
   add key data overwrite f = (Raise AssertionError, f)).
Proof.
  destruct (add_run key data overwrite f) as (Hbad & Hdup & _).
  split; [|exact Hbad].
  intros Hkey Hm. pose proof (keylike_free _ Hkey) as Hfree.
  assert (Hm' : mem (cleanse key) (cleared_disk (disk f)) = true).
  { rewrite mem_assoc, (assoc_cleared _ _ Hfree). exact Hm. }
  eexists. split; [apply Hdup; assumption|]. cbn [disk].
  split; [apply assoc_cleared; assumption|].
  split; [apply cleared_no_reserved | auto].
Qed.

(** X6: removing an item that was just added undoes the addition, up
    to the groups that [add] made on the way to a path-like key.  On a
    file where the key is not a link and nothing lies below it, where no
    dataset is on the way to it, and with attributes that h5py can
    store, [add] and then [remove] return; the file then holds the
    links it held before together with the groups on the way to the
    key, so exactly the links it held before when the key is a plain
    name; and [get] on the key fails again. *)
Theorem add_then_remove (f : File.t) (key : string) (data : Dataset)
  (overwrite : bool) :
  is_keylike (cleanse key) = true ->
  mem (cleanse key) (disk f) = false ->
  (forall n, mem n (disk f) = true -> below (cleanse key) n = false) ->
  (forall p ds, In p (ancestors (cleanse key)) ->
                assoc p (disk f) <> Some (H5Dataset ds)) ->
  writable_attrs (partition_attrs (attrs data)) = true ->
  exists f1 f2,
    add key data overwrite f = (Ok tt, f1) /\
    remove (cleanse key) f1 = (Ok tt, f2) /\
    disk f2 = with_groups (ancestors (cleanse key)) (item_links f) /\
    (ancestors (cleanse key) = [] -> disk f2 = item_links f) /\
    get (cleanse key) f2 = (Raise AssertionError, f2).
Proof.
  intros Hkey Hfresh Hbelow Hway Hw.
  pose proof (mem_cleared _ _ Hfresh) as Hfresh'.
  destruct (add_run key data overwrite f) as (_ & _ & _ & Hadd).
  specialize (Hadd Hkey Hfresh').
  rewrite (no_dataset_on_way (cleared_disk (disk f)) (cleanse key)) in Hadd.
  2:{ intros p ds Hp Ha. apply assoc_cleared_sub in Ha. exact (Hway p ds Hp Ha). }
  specialize (Hadd eq_refl Hw).
  set (G := with_groups (ancestors (cleanse key)) (cleared_disk (disk f))) in *.
  assert (HG : mem (cleanse key) G = false) by apply mem_ancestor_free, Hfresh'.
  destruct (remove_run (cleanse key)
              (mk (link_dataset (cleanse key) (stored key data) (cleared_disk (disk f)))
                  [] ∅ None)) as (_ & Hrem).
  cbn [disk] in Hrem. unfold link_dataset in Hrem. fold G in Hrem.
  rewrite mem_insert_link, String.eqb_refl in Hrem. specialize (Hrem eq_refl).
  rewrite unlink_insert_link in Hrem by apply at_or_below_refl.
  rewrite unlink_id in Hrem.
  2:{ intros e He. apply In_with_groups in He as [He | (_ & Hp & _)].
      - apply In_cleared in He.
        assert (Hm : mem (fst e) (disk f) = true) by (apply mem_true_iff, in_map, He).
        unfold at_or_below. rewrite (Hbelow _ Hm), orb_false_r.
        apply eqb_ne. intros Heq. rewrite Heq in Hm. congruence.
      - apply ancestor_not_below, Hp. }
  assert (Hnr : no_reserved G).
  { destruct (cleared_no_reserved (disk f)) as (Nk & Nl & Ni).
    assert (Hoff : forall r, mem r (cleared_disk (disk f)) = false ->
                             below r (cleanse key) = false -> mem r G = false).
    { intros r Hr Hb. destruct (mem r G) eqn:Hm; [|reflexivity].
      apply mem_with_groups in Hm as [Hm | Hm]; [congruence|].
      apply In_ancestors in Hm. congruence. }
    split; [|split]; apply Hoff; auto.
    - apply keylike_off_manifest, Hkey.
    - apply keylike_off_enum, Hkey.
    - apply keylike_off_index, Hkey. }
  rewrite (cleared_id _ Hnr) in Hrem.
  eexists. eexists. split; [exact Hadd|]. split; [exact Hrem|].
  cbn [disk]. split; [reflexivity|]. split.
  - intros Hflat. unfold G. rewrite Hflat. apply with_groups_nil.
  - unfold get, bind, contains, gets, assert_, raise. cbn [disk].
    rewrite HG. reflexivity.
Qed.


End StoreFailures.

(** ** The store: an item of unknown kind *)

Section UnknownKind.
Context `{Collaborators}.
Import File.

Lemma for_each_Raise {S A} (l1 l2 : list A) (body : A -> M S unit) x s s1 s2 e :
  for_each l1 body s = (Ok tt, s1) ->
  body x s1 = (Raise e, s2) ->
  for_each (l1 ++ x :: l2) body s = (Raise e, s2).
Proof.
  intros H1 Hx. rewrite for_each_app, (bind_Ok _ _ _ _ _ H1).
  cbn [for_each]. unfold bind. rewrite Hx. reflexivity.
Qed.

(** The scan stops at the first item of a kind it does not know. *)
Lemma visit_unknown pre key d post f rows :
  forallb entry_ok pre = true ->
  is_keylike key = true ->
  String.eqb (dtype d) "Sample" = false ->
  String.eqb (dtype d) "Sequence" = false ->
  exists e rows',
    for_each (pre ++ (key, H5Dataset d) :: post)
             (fun e => cache_data (fst e) (snd e)) (f, rows)
    = (Raise ValueError,
       (mk (disk f) ((_keys f ++ manifest_of pre) ++ [cleanse key]) e (_index_table f),
        rows')).
Proof.
  intros Hpre Hk Hs Hq.
  eexists. eexists. eapply for_each_Raise; [apply visit_run, Hpre|].
  cbn [fst snd cache_data]. rewrite Hk.
  unfold bind, modify, zoom. cbn [fst snd _keys _label_enum set_keys].
  rewrite scan_item_unknown by assumption.
  cbn [fst snd set_label_enum disk _keys _label_enum _index_table]. reflexivity.
Qed.

(** X8: a file that holds a key-like dataset whose type is neither
    [Sample] nor [Sequence], behind items the scan knows: [create_tables]
    raises [ValueError] and writes none of the three tables, so that
    [keys()], [label_enum()] and [index_table()] all raise [ValueError];
    the local key list is left with the keys scanned up to that item. *)
Theorem create_tables_unknown_kind (f : File.t) (write : bool)
  (pre post : list (string * h5obj)) (key : string) (d : Dataset) :
  disk f = pre ++ (key, H5Dataset d) :: post ->
  mem KEY_MANIFEST (disk f) = false ->
  mem LABEL_ENUM (disk f) = false ->
  mem INDEX_TABLE (disk f) = false ->
  forallb entry_ok pre = true ->
  is_keylike key = true ->
  String.eqb (dtype d) "Sample" = false ->
  String.eqb (dtype d) "Sequence" = false ->
  (exists f', create_tables write f = (Raise ValueError, f') /\
              disk f' = disk f /\
              _keys f' = manifest_of pre ++ [cleanse key]) /\
  fst (keys f) = Raise ValueError /\
  fst (label_enum f) = Raise ValueError /\
  fst (index_table f) = Raise ValueError.
Proof.
  intros Hdisk Hk Hl Hi Hpre Hkey Hs Hq.
  assert (Hcl : cleared_disk (disk f) = disk f).
  { unfold cleared_disk.
    rewrite (drop_table_absent _ _ Hk), (drop_table_absent _ _ Hl).
    apply drop_table_absent, Hi. }
  assert (Hct : forall w, exists f', create_tables w f = (Raise ValueError, f') /\
                 disk f' = disk f /\ _keys f' = manifest_of pre ++ [cleanse key]).
  { intros w. unfold create_tables.
    rewrite (bind_Ok _ _ _ _ _ (clear_persistent_run f)). rewrite Hcl.
    destruct (visit_unknown pre key d post (mk (disk f) [] ∅ None) [] Hpre Hkey Hs Hq)
      as (e & rows' & Hvisit).
    eexists. split.
    - unfold bind at 1, with_local.
      rewrite (bind_Ok _ _ (mk (disk f) [] ∅ None, []) (disk f) (mk (disk f) [] ∅ None, []))
        by reflexivity.
      rewrite Hdisk at 1. rewrite Hvisit. reflexivity.
    - cbn [disk _keys app]. auto. }
  split; [apply Hct|].
  destruct (Hct true) as (f' & Hrun & _).
  unfold keys, label_enum, index_table.
  rewrite !(bind_Ok _ _ f false f)
    by (unfold contains, gets; rewrite ?Hk, ?Hl, ?Hi; reflexivity).
  cbn [negb when]. rewrite !(bind_Raise _ _ _ _ _ Hrun). auto.
Qed.

End UnknownKind.

(** ** Loading from a source that runs dry *)

Section LoadLoopRun.
Context {S : Type} (proj : S -> Source) (inj : Source -> S -> S)
        (store : string * Dataset -> S -> S).
Hypothesis proj_inj : forall t s, proj (inj t s) = t.
Hypothesis proj_store : forall kv s, proj (store kv s) = proj s.
Hypothesis inj_proj : forall s, inj (proj s) s = s.

(** A load loop stores what the source yields until it has stored [n]
    pairs or the source is exhausted, whichever comes first. *)
Lemma pull_loop_run n : forall s,
  repeat_ n (pull_one proj inj store) s
  = (if supplies (proj s) n then Ok tt else Raise StopIteration,
     fold_left (pull_step proj inj store) (pulled (proj s) n) s).
Proof.
  induction n as [|n IH]; intros s; [reflexivity|].
  cbn [repeat_ supplies pulled]. unfold bind at 1. unfold pull_one at 1.
  unfold bind, zoom, next, modify.
  destruct (gen (proj s) (cursor (proj s))) as [kv|] eqn:Hg.
  - fold (bump (proj s)). cbn [fold_left].
    change (store kv (inj (bump (proj s)) s)) with (pull_step proj inj store s kv).
    assert (Hp : proj (pull_step proj inj store s kv) = bump (proj s)).
    { unfold pull_step. rewrite proj_store, proj_inj. reflexivity. }
    rewrite IH, Hp. reflexivity.
  - rewrite inj_proj. reflexivity.
Qed.

End LoadLoopRun.

Section AssocLast.
Context {A : Type}.

Lemma assoc_app (k : string) (l1 l2 : list (string * A)) :
  assoc k (l1 ++ l2)
  = match assoc k l1 with Some a => Some a | None => assoc k l2 end.
Proof.
  induction l1 as [|[k' a] l1 IH]; simpl; [reflexivity|].
  destruct (String.eqb k k'); [reflexivity | exact IH].
Qed.

End AssocLast.

(** ** The cache: what [load] and the constructor leave resident *)

Section CacheLoads.
Import Cache.

(** The dict after the assignments: a key assigned to holds the last
    value assigned to it. *)
Lemma dict_update_lookup kvs : forall (m : gmap string Dataset) k,
  dict_update m kvs !! k
  = match assoc k (rev kvs) with Some v => Some v | None => m !! k end.
Proof.
  induction kvs as [|[k0 v0] kvs IH]; intros m k; [reflexivity|].
  unfold dict_update in *. cbn [fold_left rev fst snd]. rewrite IH, assoc_app.
  destruct (assoc k (rev kvs)); [reflexivity|]. cbn [assoc].
  destruct (String.eqb_spec k k0) as [->|Hne].
  - apply lookup_insert_eq.
  - apply lookup_insert_ne. congruence.
Qed.

(** The state [load] leaves, whether or not the source runs dry. *)
Definition loaded (c : Cache.t) (n : nat) : Cache.t :=
  fold_left (pull_step source set_source store_resident) (pulled (source c) n) c.

Lemma load_run (c : Cache.t) (n : Z) :
  load n c = (if supplies (source c) (Z.to_nat n) then Ok tt
              else Raise StopIteration, loaded c (Z.to_nat n)).
Proof.
  rewrite cache_load_unfold. apply pull_loop_run; try reflexivity.
  intros s; destruct s; reflexivity.
Qed.

(** X9: [load(n)] assigns the pairs the source yields, in order, until
    it has assigned [n] of them or the source is exhausted; in that case
    it raises [StopIteration] and the pairs assigned so far stay.
    Afterwards every key that was yielded holds the last item yielded
    under it and every other key holds what it held; the source has
    answered one call per pair; the derived tables are left as they
    were. *)
Theorem load_assigns_pulled (c : Cache.t) (n : Z) :
  let kvs := pulled (source c) (Z.to_nat n) in
  exists c',
    load n c = (if supplies (source c) (Z.to_nat n) then Ok tt
                else Raise StopIteration, c') /\
    (forall k, resident c' !! k
               = match assoc k (rev kvs) with
                 | Some v => Some v
                 | None => resident c !! k
                 end) /\
    cursor (source c') = (cursor (source c) + length kvs)%nat /\
    (size (resident c') <= size (resident c) + length kvs)%nat /\
    _label_enum c' = _label_enum c /\ _index_table c' = _index_table c.
Proof.
  intros kvs. rewrite load_run. unfold loaded. fold kvs.
  destruct (fold_pull_resident kvs c) as (Hr & Hc & _ & _ & _ & He & Hi & _).
  eexists. split; [reflexivity|].
  rewrite Hr, Hc, He, Hi. repeat split.
  - intros k. apply dict_update_lookup.
  - apply size_dict_update_le.
Qed.

(** X10: the constructor loads [min(cache_size, num_items)] items: it
    raises [StopIteration] when the source cannot yield that many, and
    otherwise leaves at most that many resident items, empty tables, and
    the refresh probability it was given, whether or not it lowered the
    cache size. *)
Theorem constructor_loads_min (src : Source) (cache_size : Z) (refresh_prob : Q)
  (r : Rng) :
  let n := Z.to_nat (Z.min cache_size (num_items src)) in
  exists c,
    new src cache_size refresh_prob r
    = (if supplies src n then Ok tt else Raise StopIteration, c) /\
    (supplies src n = true ->
       resident c = dict_update ∅ (pulled src n) /\
       (size (resident c) <= n)%nat /\
       cursor (source c) = (cursor src + n)%nat /\
       _refresh_prob c = refresh_prob /\
       _label_enum c = ∅ /\ _index_table c = []).
Proof.
  intros n. unfold new, __init__.
  cbn [resident _keys _label_enum _index_table rng].
  set (c0 := mk ∅ refresh_prob src [] ∅ [] r).
  assert (Hrun : forall cs, Z.to_nat cs = n ->
            (load cs ;; _clear_tables)%py c0
            = (if supplies src n then Ok tt else Raise StopIteration,
               if supplies src n
               then mk (resident (loaded c0 n)) (_refresh_prob (loaded c0 n))
                       (source (loaded c0 n)) [] ∅ [] (rng (loaded c0 n))
               else loaded c0 n)).
  { intros cs Hcs. pose proof (load_run c0 cs) as Hl. rewrite Hcs in Hl.
    cbn [source c0] in Hl. destruct (supplies src n).
    - rewrite (bind_Ok _ _ _ _ _ Hl). reflexivity.
    - rewrite (bind_Raise _ _ _ _ _ Hl). reflexivity. }
  assert (Hgo : (let '(cache_size0, _) :=
                   if num_items src <? cache_size
                   then (num_items src, 0%Q) else (cache_size, refresh_prob) in
                 (load cache_size0 ;; _clear_tables)%py c0)
                = (if supplies src n then Ok tt else Raise StopIteration,
                   if supplies src n
                   then mk (resident (loaded c0 n)) (_refresh_prob (loaded c0 n))
                           (source (loaded c0 n)) [] ∅ [] (rng (loaded c0 n))
                   else loaded c0 n)).
  { destruct (Z.ltb_spec (num_items src) cache_size); apply Hrun; unfold n; f_equal; lia. }
  rewrite Hgo. eexists. split; [reflexivity|].
  intros Hs. rewrite Hs. cbn [resident source _refresh_prob _label_enum _index_table].
  destruct (fold_pull_resident (pulled src n) c0) as (Hr & Hc & _ & _ & Hp & _).
  change (fold_left _ (pulled src n) c0) with (loaded c0 n) in Hr, Hc, Hp.
  rewrite Hr, Hc, Hp. cbn [c0 resident source _refresh_prob].
  rewrite (pulled_length _ _ Hs).
  pose proof (size_dict_update_le (pulled src n) ∅) as Hle.
  rewrite map_size_empty, (pulled_length _ _ Hs) in Hle.
  split; [reflexivity|]. split; [exact Hle|]. auto.
Qed.

(** X11: [refresh_rand] draws a key that is resident: on a cache that
    is not empty, with probability 1.0 and a source that has an item
    left, it never raises; it evicts one resident key and assigns the
    item pulled, so the cache does not grow, and keeps its size when the
    key pulled was not resident.  On an empty cache it raises
    [IndexError] for every probability. *)
Theorem refresh_rand_swaps (c : Cache.t) :
  (forall kv, resident c <> ∅ ->
     gen (source c) (cursor (source c)) = Some kv ->
     exists key c',
       refresh_rand (Some 1%Q) c = (Ok tt, c') /\
       is_Some (resident c !! key) /\
       resident c' = <[fst kv := snd kv]> (delete key (resident c)) /\
       source c' = bump (source c) /\
       (size (resident c') <= size (resident c))%nat /\
       (resident c !! fst kv = None -> size (resident c') = size (resident c))) /\
  (forall p, resident c = ∅ -> refresh_rand p c = (Raise IndexError, c)).
Proof.
  split.
  - intros kv Hne Hg. unfold refresh_rand.
    rewrite (bind_Ok _ _ c (map fst (map_to_list (resident c))) c) by reflexivity.
    assert (Hks : map fst (map_to_list (resident c)) <> []).
    { intros Hnil. apply Hne, map_to_list_empty_iff.
      destruct (map_to_list (resident c)); [reflexivity | discriminate]. }
    destruct (choice_spec _ (rng c) Hks) as (key & Hc & Hin).
    rewrite (bind_Ok _ _ c key (set_rng (mkRng (tape (rng c)) (Datatypes.S (pos (rng c)))) c))
      by (unfold zoom; rewrite Hc; reflexivity).
    set (c1 := set_rng _ c).
    assert (Hres : is_Some (resident c !! key)).
    { apply in_map_iff in Hin as ([k d] & <- & Hkd).
      apply list_elem_of_In, elem_of_map_to_list in Hkd. eauto. }
    destruct (refresh_one key c1) as (r' & ->).
    rewrite (bind_Ok _ _ _ _ _ (remove_resident key (set_rng r' c1) Hres)).
    rewrite (load_1 _ kv) by exact Hg.
    exists key. eexists. split; [reflexivity|]. split; [exact Hres|].
    cbn [resident source store_resident set_resident set_source set_rng c1].
    split; [reflexivity|]. split; [reflexivity|].
    rewrite map_size_insert, (map_size_delete_Some _ _ Hres).
    destruct Hres as [d Hd].
    assert (Hpos : (0 < size (resident c))%nat).
    { destruct (size (resident c)) eqn:Hsz; [|lia].
      apply map_size_empty_iff in Hsz. rewrite Hsz, lookup_empty in Hd. discriminate. }
    destruct (decide (kv.1 = key)) as [->|Hk].
    + rewrite lookup_delete_eq. split; [lia|]. intros Hn. congruence.
    + rewrite lookup_delete_ne by congruence.
      destruct (resident c !! kv.1); cbn [id]; split; intros; try discriminate; lia.
  - intros p He. unfold refresh_rand.
    rewrite (bind_Ok _ _ c [] c)
      by (unfold keys, gets; rewrite He, map_to_list_empty; reflexivity).
    unfold bind, zoom, choice, raise. destruct c; reflexivity.
Qed.

End CacheLoads.

(** ** The cache: the tables after [remove] *)

Section CacheTables.
Context `{Collaborators}.
Import Cache.

(** A resident item the scan of [create_tables] cannot fail on. *)
Definition resident_ok (kd : string * Dataset) : bool :=
  if is_keylike (fst kd) then scannable (snd kd) else true.

(** The label occurrences of the resident items, in the order of the
    dict. *)
Definition resident_occs (m : gmap string Dataset) : list occ :=
  flat_map (fun kd => if is_keylike (fst kd)
                      then item_occs (fst kd) (snd kd) else [])
           (map_to_list m).

Definition scan_resident (e : string * Dataset) : M (Cache.t * list row) unit :=
  if is_keylike (fst e) then
    zoom (fun s : Cache.t * list row => (_label_enum (fst s), snd s))
         (fun (e : scan_state) (s : Cache.t * list row) =>
            (set_label_enum (fst e) (fst s), snd e))
         (scan_item (fst e) (snd e))
  else ret tt.

Lemma scan_resident_run kds : forall c rows,
  forallb resident_ok kds = true ->
  let occs := flat_map (fun kd => if is_keylike (fst kd)
                                  then item_occs (fst kd) (snd kd) else []) kds in
  for_each kds scan_resident (c, rows)
  = (Ok tt,
     (set_label_enum (enum_of (_label_enum c) (map occ_label occs)) c,
      rows ++ rows_of (enum_of (_label_enum c) (map occ_label occs)) occs)).
Proof.
  induction kds as [|kd kds IH]; intros c rows Hok.
  - simpl. unfold ret. rewrite app_nil_r. destruct c; reflexivity.
  - simpl in Hok. apply andb_true_iff in Hok as [Hkd Hok].
    cbn zeta. cbn [for_each flat_map].
    unfold resident_ok in Hkd. unfold scan_resident at 1.
    destruct (is_keylike (fst kd)).
    + unfold bind at 1. unfold zoom. cbn [fst snd].
      rewrite scan_item_run by exact Hkd. rewrite scan_occs_run.
      cbn [fst snd]. rewrite (IH _ _ Hok). cbn [_label_enum set_label_enum].
      rewrite map_app, enum_of_app, <- !app_assoc.
      f_equal. f_equal. f_equal. unfold rows_of at 3. rewrite map_app.
      fold (rows_of (enum_of (enum_of (_label_enum c)
                                (map occ_label (item_occs (fst kd) (snd kd))))
                       (map occ_label (flat_map (fun kd0 => if is_keylike (fst kd0)
                          then item_occs (fst kd0) (snd kd0) else []) kds)))
                    (item_occs (fst kd) (snd kd))).
      rewrite rows_of_stable. reflexivity.
    + unfold bind at 1, ret at 1. rewrite (IH _ _ Hok). reflexivity.
Qed.

Lemma cache_create_tables_run c :
  forallb resident_ok (map_to_list (resident c)) = true ->
  let occs := resident_occs (resident c) in
  let e := enum_of ∅ (map occ_label occs) in
  create_tables c
  = (Ok tt, mk (resident c) (_refresh_prob c) (source c) [] e (rows_of e occs) (rng c)).
Proof.
  intros Hok occs e. unfold create_tables.
  rewrite (bind_Ok _ _ c tt (mk (resident c) (_refresh_prob c) (source c) [] ∅ [] (rng c)))
    by reflexivity.
  erewrite bind_Ok; cycle 1.
  { unfold with_local.
    erewrite bind_Ok; cycle 1. { unfold gets. reflexivity. }
    cbn [fst resident].
    change (fun e0 : string * Dataset => if is_keylike e0.1 then _ else ret tt)
      with scan_resident.
    rewrite (scan_resident_run _ _ _ Hok). cbn [_label_enum app]. reflexivity. }
  reflexivity.
Qed.

(** X12: [remove(key)] of a resident key drops the item and clears the
    tables, so that the next [label_enum()] and [index_table()] are
    built from the items that remain, whatever the tables held before:
    the enumeration numbers their labels in the order they are met, the
    index table has one row per label occurrence, and neither call
    touches the resident items or the source. *)
Theorem remove_rebuilds_tables (c : Cache.t) (key : string) :
  is_Some (resident c !! key) ->
  forallb resident_ok (map_to_list (delete key (resident c))) = true ->
  let occs := resident_occs (delete key (resident c)) in
  let e := enum_of ∅ (map occ_label occs) in
  exists c1 c2 c3,
    remove key c = (Ok tt, c1) /\
    resident c1 !! key = None /\
    label_enum c1 = (Ok e, c2) /\
    index_table c1 = (Ok (rows_of e occs), c3) /\
    length (rows_of e occs) = length occs /\
    resident c2 = delete key (resident c) /\
    resident c3 = delete key (resident c) /\
    source c2 = source c /\ source c3 = source c.
Proof.
  intros Hres Hok occs e.
  rewrite (remove_resident key c Hres).
  set (c1 := mk (delete key (resident c)) (_refresh_prob c) (source c) [] ∅ [] (rng c)).
  pose proof (cache_create_tables_run c1 Hok) as Hct.
  cbn zeta in Hct. cbn [resident c1 _refresh_prob source rng] in Hct.
  fold occs in Hct. fold e in Hct.
  exists c1. do 2 eexists.
  split; [reflexivity|].
  split; [apply lookup_delete_eq|].
  split.
  { unfold label_enum.
    rewrite (bind_Ok _ _ c1 ∅ c1) by reflexivity.
    rewrite bool_decide_eq_true_2 by reflexivity.
    unfold when. rewrite (bind_Ok _ _ _ _ _ Hct). reflexivity. }
  split.
  { unfold index_table.
    rewrite (bind_Ok _ _ c1 [] c1) by reflexivity.
    unfold when. rewrite (bind_Ok _ _ _ _ _ Hct). reflexivity. }
  cbn [resident source]. unfold rows_of. rewrite length_map. auto 10.
Qed.

End CacheTables.

(** ** The batch: order and contents *)

Section BatchContents.
Import LabelBatch.

Lemma assoc_od_set {A} k k' (v : A) l :
  assoc k' (od_set k v l) = if String.eqb k' k then Some v else assoc k' l.
Proof.
  induction l as [|[k0 a] l IH]; simpl.
  - destruct (String.eqb k' k); reflexivity.
  - destruct (String.eqb_spec k k0) as [->|Hne]; simpl.
    + destruct (String.eqb k' k0); reflexivity.
    + destruct (String.eqb_spec k' k0) as [->|Hne'].
      * destruct (String.eqb_spec k0 k); [congruence | reflexivity].
      * exact IH.
Qed.

Lemma keys_od_set {A} k (v : A) l :
  map fst (od_set k v l) = if mem k l then map fst l else map fst l ++ [k].
Proof.
  unfold mem. induction l as [|[k0 a] l IH]; simpl; [reflexivity|].
  destruct (String.eqb_spec k k0) as [->|Hne]; simpl; [reflexivity|].
  rewrite IH. destruct (assoc k l); reflexivity.
Qed.

Lemma assoc_od_of_list (kvs : list (string * Dataset)) : forall l0 k,
  assoc k (od_of_list l0 kvs)
  = match assoc k (rev kvs) with Some v => Some v | None => assoc k l0 end.
Proof.
  induction kvs as [|[k0 v0] kvs IH]; intros l0 k; [reflexivity|].
  unfold od_of_list in *. cbn [fold_left rev fst snd]. rewrite IH, assoc_app.
  destruct (assoc k (rev kvs)); [reflexivity|]. cbn [assoc].
  rewrite assoc_od_set. destruct (String.eqb k k0); reflexivity.
Qed.

Lemma keys_od_of_list kvs : forall l0,
  NoDup (map fst l0) ->
  NoDup (map fst (od_of_list l0 kvs)) /\
  exists tail, map fst (od_of_list l0 kvs) = map fst l0 ++ tail.
Proof.
  induction kvs as [|[k v] kvs IH]; intros l0 Hnd.
  - split; [exact Hnd|]. exists []. rewrite app_nil_r. reflexivity.
  - unfold od_of_list in *. cbn [fold_left fst snd].
    assert (Hnd' : NoDup (map fst (od_set k v l0))).
    { rewrite keys_od_set. destruct (mem k l0) eqn:Hm; [exact Hnd|].
      apply NoDup_app. split; [exact Hnd|]. split; [|apply NoDup_singleton].
      intros x Hx Hk. apply list_elem_of_singleton in Hk as ->.
      apply list_elem_of_In, in_map_iff in Hx as ([k' a] & Hk' & Hin).
      cbn in Hk'. subst k'. apply mem_false_iff in Hm. apply Hm.
      apply in_map_iff. exists (k, a). auto. }
    destruct (IH _ Hnd') as (Hn & tail & Ht). split; [exact Hn|].
    rewrite Ht, keys_od_set. destruct (mem k l0).
    + exists tail. reflexivity.
    + exists (k :: tail). rewrite <- app_assoc. reflexivity.
Qed.

Lemma pulled_short n : forall src,
  supplies src n = false -> (length (pulled src n) < n)%nat.
Proof.
  induction n as [|n IH]; intros src Hf; [discriminate|].
  simpl in Hf |- *. destruct (gen src (cursor src)); simpl; [|lia].
  specialize (IH _ Hf). lia.
Qed.

(** The state [load] leaves, whether or not the source runs dry. *)
Lemma batch_load_run (b : LabelBatch.t) (n : Z) :
  exists b',
    load n b = (if supplies (source b) (Z.to_nat n) then Ok tt
                else Raise StopIteration, b') /\
    items b' = od_of_list (items b) (pulled (source b) (Z.to_nat n)) /\
    cursor (source b')
    = (cursor (source b) + length (pulled (source b) (Z.to_nat n)))%nat /\
    _batch_size b' = _batch_size b /\ _label_key b' = _label_key b.
Proof.
  rewrite batch_load_unfold.
  rewrite pull_loop_run; try reflexivity; [|intros s; destruct s; reflexivity].
  eexists. split; [reflexivity|]. apply fold_pull_items.
Qed.

(** X13: [load(n)] of a batch adds to what the batch holds: the keys it
    held keep their places, the new keys, each of them yielded by the
    source, follow them, no key occurs twice, and a key that was yielded
    holds the item yielded last under it.  When the source runs dry it
    raises [StopIteration] and the items pulled until then stay. *)
Theorem batch_load_appends (b : LabelBatch.t) (n : Z) :
  NoDup (map fst (items b)) ->
  let kvs := pulled (source b) (Z.to_nat n) in
  exists b' tail,
    load n b = (if supplies (source b) (Z.to_nat n) then Ok tt
                else Raise StopIteration, b') /\
    map fst (items b') = map fst (items b) ++ tail /\
    NoDup (map fst (items b')) /\
    (forall k, In k tail -> In k (map fst kvs)) /\
    (forall k, assoc k (items b')
               = match assoc k (rev kvs) with
                 | Some v => Some v
                 | None => assoc k (items b)
                 end).
Proof.
  intros Hnd kvs. destruct (batch_load_run b n) as (b' & Hl & Hi & _).
  fold kvs in Hi.
  destruct (keys_od_of_list kvs (items b) Hnd) as (Hn & tail & Ht).
  exists b', tail. rewrite Hi. split; [exact Hl|]. split; [exact Ht|].
  split; [exact Hn|]. split.
  - intros k Hk.
    assert (Hin : In k (map fst (od_of_list (items b) kvs))).
    { rewrite Ht. apply in_or_app. right. exact Hk. }
    assert (Hfresh : ~ In k (map fst (items b))).
    { intros Hold. rewrite Ht in Hn. apply NoDup_app in Hn as (_ & Hdis & _).
      apply (Hdis k); apply list_elem_of_In; assumption. }
    apply mem_true_iff in Hin. unfold mem in Hin.
    rewrite assoc_od_of_list in Hin.
    destruct (assoc k (rev kvs)) eqn:Ha.
    + assert (Hm : mem k (rev kvs) = true) by (unfold mem; rewrite Ha; reflexivity).
      apply mem_true_iff in Hm. rewrite map_rev in Hm. apply in_rev in Hm. exact Hm.
    + exfalso. apply Hfresh. apply mem_true_iff. exact Hin.
  - intros k. apply assoc_od_of_list.
Qed.

(** X14: a [refresh()] the source cannot serve raises [StopIteration]
    after the batch has been emptied: what it held before is gone, and it
    holds the items pulled before the source ran dry, fewer than
    [batch_size]. *)
Theorem refresh_failure_keeps_partial (b : LabelBatch.t) :
  let n := Z.to_nat (_batch_size b) in
  supplies (source b) n = false ->
  exists b',
    refresh b = (Raise StopIteration, b') /\
    items b' = od_of_list [] (pulled (source b) n) /\
    (length (items b') < n)%nat /\
    (forall k, mem k (items b') = true -> In k (map fst (pulled (source b) n))).
Proof.
  intros n Hs. unfold refresh.
  rewrite (bind_Ok _ _ b tt (set_items [] b)) by reflexivity.
  rewrite (bind_Ok _ _ (set_items [] b) (_batch_size b) (set_items [] b)) by reflexivity.
  destruct (batch_load_run (set_items [] b) (_batch_size b)) as (b' & Hl & Hi & _).
  cbn [source items set_items] in Hl, Hi. fold n in Hl, Hi. rewrite Hs in Hl.
  exists b'. split; [exact Hl|]. split; [exact Hi|]. rewrite Hi. split.
  - pose proof (length_od_of_list_le (pulled (source b) n) []) as Hle.
    cbn [length] in Hle.
    pose proof (pulled_short n (source b) Hs). lia.
  - intros k Hk. unfold mem in Hk. rewrite assoc_od_of_list in Hk.
    destruct (assoc k (rev (pulled (source b) n))) eqn:Ha; [|discriminate].
    assert (Hm : mem k (rev (pulled (source b) n)) = true)
      by (unfold mem; rewrite Ha; reflexivity).
    apply mem_true_iff in Hm. rewrite map_rev in Hm. apply in_rev in Hm. exact Hm.
Qed.

Section labels.
Context `{Collaborators}.

Lemma labels_of_Ok lk l ys :
  labels_of lk l = Ok ys <->
  Forall2 (fun kd y => assoc lk (dlabels (snd kd)) = Some y) l ys.
Proof.
  revert ys. induction l as [|[k d] l IH]; intros ys; simpl.
  - split.
    + intros [= <-]. constructor.
    + intros Hf. inversion Hf. reflexivity.
  - destruct (assoc lk (dlabels d)) as [y|] eqn:Ha.
    + destruct (labels_of lk l) as [ys'|e] eqn:Hl.
      * split.
        -- intros [= <-]. constructor; [exact Ha | apply IH; reflexivity].
        -- intros Hf. inversion Hf as [|? y0 ? ys0 Hy Hrest]; subst.
           cbn [snd] in Hy. rewrite Ha in Hy. injection Hy as <-.
           apply IH in Hrest. congruence.
      * split; [discriminate|].
        intros Hf. inversion Hf as [|? y0 ? ys0 Hy Hrest]; subst.
        apply IH in Hrest. discriminate.
    + split; [discriminate|].
      intros Hf. inversion Hf as [|? y0 ? ys0 Hy Hrest]; subst.
      cbn [snd] in Hy. congruence.
Qed.

Lemma labels_of_Raise lk l e :
  labels_of lk l = Raise e ->
  e = KeyError /\ exists kd, In kd l /\ assoc lk (dlabels (snd kd)) = None.
Proof.
  induction l as [|[k d] l IH]; simpl; [discriminate|].
  destruct (assoc lk (dlabels d)) eqn:Ha.
  - destruct (labels_of lk l) as [ys|e']; [discriminate|].
    intros [= <-]. destruct (IH eq_refl) as (He & kd & Hin & Hkd).
    split; [exact He|]. exists kd. auto.
  - intros [= <-]. split; [reflexivity|]. exists (k, d). auto.
Qed.

(** X15: [labels()] reads the label under [label_key] of every item of
    the batch, in the order of the batch.  It returns exactly when every
    item has a label under that key, with one label per item, and raises
    [KeyError] exactly when some item has none; it changes nothing. *)
Theorem labels_per_item (b : LabelBatch.t) :
  snd (labels b) = b /\
  (forall ys, fst (labels b) = Ok ys <->
     Forall2 (fun kd y => assoc (_label_key b) (dlabels (snd kd)) = Some y)
             (items b) ys) /\
  (forall ys, fst (labels b) = Ok ys -> length ys = length (items b)) /\
  ((exists kd, In kd (items b) /\ assoc (_label_key b) (dlabels (snd kd)) = None)
   <-> fst (labels b) = Raise KeyError) /\
  (forall e, fst (labels b) = Raise e -> e = KeyError).
Proof.
  unfold labels. cbn [fst snd]. split; [reflexivity|].
  split; [intros ys; apply labels_of_Ok|].
  split.
  { intros ys Hy. apply labels_of_Ok in Hy. symmetry. exact (Forall2_length _ _ _ Hy). }
  split.
  - split.
    + intros (kd & Hin & Hkd).
      destruct (labels_of (_label_key b) (items b)) as [ys|e] eqn:Hl.
      * exfalso. apply labels_of_Ok in Hl.
        induction Hl as [|kd' y l' ys' Hy Hrest IH]; [contradiction|].
        destruct Hin as [->|Hin]; [congruence | exact (IH Hin)].
      * apply labels_of_Raise in Hl as [-> _]. reflexivity.
    + intros Hr. apply labels_of_Raise in Hr as [_ Hex]. exact Hex.
  - intros e Hr. apply labels_of_Raise in Hr as [-> _]. reflexivity.
Qed.

End labels.
End BatchContents.

(** ** The pairing pass: what it pairs and when it cannot *)

Section PairingFacts.
Context `{Collaborators}.
Import PairedBatch.

Lemma where_NoDup N mask : NoDup (where_ N mask).
Proof.
  unfold where_. apply NoDup_ListNoDup, List.NoDup_filter, List.seq_NoDup.
Qed.

Lemma list_remove_NoDup x l r :
  NoDup l -> list_remove x l = Ok r -> ~ In x r.
Proof.
  revert r. induction l as [|y l IH]; intros r Hnd; simpl; [discriminate|].
  apply NoDup_cons in Hnd as [Hy Hnd].
  destruct (Nat.eqb_spec x y) as [->|Hne].
  - intros [= <-] Hin. apply Hy, list_elem_of_In, Hin.
  - destruct (list_remove x l) as [r'|e] eqn:Hr; [|discriminate].
    intros [= <-] [Hin|Hin]; [congruence|]. exact (IH r' Hnd eq_refl Hin).
Qed.

(** A round of the first loop never pairs an index with itself. *)
Lemma pair_same_distinct N ls s s' :
  pair_same N ls s = (Ok tt, s') ->
  exists y c, appended s s' [y] [c] /\ (y < N)%nat /\ (c < N)%nat /\ y <> c.
Proof.
  unfold pair_same. run_step.
  destruct (randint N (rng s)) as [[y|e] r1] eqn:Hy; [|discriminate].
  destruct (list_remove y _) as [p|e] eqn:Hp; [|discriminate].
  cbn [rng set_rng set_idx_A base _idx_A _idx_B].
  destruct (choice p r1) as [[c|e] r2] eqn:Hc; [|discriminate].
  intros [= <-]. exists y, c.
  apply randint_Ok_inv in Hy. apply choice_Ok_inv in Hc.
  pose proof (list_remove_NoDup _ _ _ (where_NoDup _ _) Hp) as Hny.
  apply (list_remove_In _ _ _ _ Hp) in Hc as Hc'. apply where_In in Hc'.
  destruct Hc' as [HcN _].
  repeat split; auto. intros ->. exact (Hny Hc).
Qed.

Lemma truncate_equal_lengths (s1 : PairedBatch.t) :
  length (_idx_A s1) = length (_idx_B s1) ->
  _pair_truncate s1 = (Ok tt, mk (base s1) (_idx_A s1) (_idx_B s1) (rng s1)).
Proof.
  intros Hlen. unfold _pair_truncate, modify.
  assert (HtA : firstn (Nat.min (length (_idx_A s1)) (length (_idx_B s1))) (_idx_A s1)
                = _idx_A s1).
  { rewrite <- Hlen, Nat.min_id. apply firstn_all. }
  assert (HtB : firstn (Nat.min (length (_idx_A s1)) (length (_idx_B s1))) (_idx_B s1)
                = _idx_B s1).
  { rewrite Hlen, Nat.min_id. apply firstn_all. }
  cbv zeta. rewrite HtA, HtB. reflexivity.
Qed.

(** X16: when the pairing pass completes, every pair it made is a pair
    of two different positions of the batch, both in range: no item is
    paired with itself, in either half.  The batch itself is not
    touched. *)
Theorem pair_never_self (s s' : PairedBatch.t) :
  _pair s = (Ok tt, s') ->
  let N := length (LabelBatch.items (base s)) in
  base s' = base s /\
  Forall2 (fun a b => (a < N)%nat /\ (b < N)%nat /\ a <> b) (_idx_A s') (_idx_B s').
Proof.
  intros Hrun N. unfold _pair in Hrun.
  apply bind_Ok_inv in Hrun. destruct Hrun as ([] & s1 & Hloops & Htrunc).
  unfold _pair_loops in Hloops.
  apply bind_Ok_inv in Hloops. destruct Hloops as ([] & s0 & H0 & Hloops).
  injection H0 as <-.
  apply bind_Ok_inv in Hloops. destruct Hloops as (N' & s0 & H0 & Hloops).
  injection H0 as <- <-.
  apply bind_Ok_inv in Hloops. destruct Hloops as (ls & s0 & Hls & Hloops).
  assert (Hlen : length ls = N /\ s0 = mk (base s) [] [] (rng s)).
  { revert Hls. unfold labels, LabelBatch.labels, zoom. cbn [base].
    intros [= Hl <-]. split; [|reflexivity]. apply (labels_of_length _ _ _ Hl). }
  destruct Hlen as [Hlen ->].
  apply bind_Ok_inv in Hloops. destruct Hloops as (half' & s0 & H0 & Hloops).
  injection H0 as <- <-. cbn [base] in Hloops. fold N in Hloops.
  apply bind_Ok_inv in Hloops. destruct Hloops as ([] & s2 & Hsame & Hdiff).
  apply (repeat_appended
           (fun y c => (y < N)%nat /\ (c < N)%nat /\ y <> c)) in Hsame.
  2:{ intros t t' Ht. destruct (pair_same_distinct _ _ _ _ Ht) as (y & c & ? & ?).
      exists y, c. auto. }
  apply (repeat_appended
           (fun y c => (y < N)%nat /\ (c < N)%nat /\ y <> c)) in Hdiff.
  2:{ intros t t' Ht. destruct (pair_diff_Ok_inv _ _ _ _ Ht) as (y & c & Ha & Hy & Hc & Hne).
      exists y, c. split; [exact Ha|]. repeat split; auto. intros ->. apply Hne. reflexivity. }
  destruct Hsame as (ys1 & cs1 & (Hb1 & Ha1 & Hc1) & Hl1 & HF1).
  destruct Hdiff as (ys2 & cs2 & (Hb2 & Ha2 & Hc2) & Hl2 & HF2).
  cbn [base _idx_A _idx_B app] in Hb1, Ha1, Hc1.
  assert (HF : Forall2 (fun a b => (a < N)%nat /\ (b < N)%nat /\ a <> b)
                 (_idx_A s1) (_idx_B s1)).
  { rewrite Ha2, Hc2, Ha1, Hc1. apply Forall2_app; assumption. }
  rewrite truncate_equal_lengths in Htrunc by exact (Forall2_length _ _ _ HF).
  injection Htrunc as <-. cbn [base _idx_A _idx_B].
  split; [congruence | exact HF].
Qed.

(** The prefix of [_pair] up to its first loop. *)
Lemma pair_loops_start s ls :
  labels s = (Ok ls, s) ->
  _pair_loops s
  = (repeat_ (Z.to_nat (LabelBatch._batch_size (base s) / 2))
       (pair_same (length ls) ls) ;;
     repeat_ (Z.to_nat (LabelBatch._batch_size (base s) / 2))
       (pair_diff (length ls) ls))%py (mk (base s) [] [] (rng s)).
Proof.
  intros Hls.
  assert (HN : length (LabelBatch.items (base s)) = length ls).
  { rewrite labels_unfold in Hls. injection Hls as Hls.
    symmetry. apply (labels_of_length _ _ _ Hls). }
  assert (Hls0 : labels (mk (base s) [] [] (rng s))
                 = (Ok ls, mk (base s) [] [] (rng s))).
  { rewrite labels_unfold in *. cbn [base]. injection Hls as ->. reflexivity. }
  set (s0 := mk (base s) [] [] (rng s)) in *.
  unfold _pair_loops.
  rewrite (bind_Ok _ _ s tt s0) by reflexivity.
  rewrite (bind_Ok _ _ s0 (length ls) s0)
    by (unfold gets; cbn [base s0]; rewrite HN; reflexivity).
  rewrite (bind_Ok _ _ _ _ _ Hls0).
  rewrite (bind_Ok _ _ s0 (Z.to_nat (LabelBatch._batch_size (base s) / 2)) s0)
    by reflexivity.
  reflexivity.
Qed.

(** X17: on a batch whose labels are pairwise different, a pairing pass
    that has at least one pair to make cannot make it, whatever the
    random draws: the first round of the first loop finds no partner and
    [choice] raises [IndexError] on the empty list, after the anchor has
    been appended to [idx_A] and before anything is appended to
    [idx_B]. *)
Theorem pair_fails_on_distinct_labels (s : PairedBatch.t) (ls : list label_val) :
  labels s = (Ok ls, s) ->
  NoDup ls ->
  ls <> [] ->
  2 <= LabelBatch._batch_size (base s) ->
  exists y s',
    _pair s = (Raise IndexError, s') /\
    (y < length ls)%nat /\
    _idx_A s' = [y] /\ _idx_B s' = [] /\ base s' = base s.
Proof.
  intros Hls Hnd Hne Hbs.
  assert (Hpos : (0 < length ls)%nat) by (destruct ls; [congruence | simpl; lia]).
  assert (Hhalf : exists k, Z.to_nat (LabelBatch._batch_size (base s) / 2) = Datatypes.S k).
  { assert (1 <= LabelBatch._batch_size (base s) / 2)
      by (apply Z.div_le_lower_bound; lia).
    exists (Nat.pred (Z.to_nat (LabelBatch._batch_size (base s) / 2))). lia. }
  destruct Hhalf as [k Hk].
  pose proof (pair_loops_start _ _ Hls) as Hstart. rewrite Hk in Hstart.
  set (s0 := mk (base s) [] [] (rng s)) in *.
  destruct (randint_spec (length ls) (rng s0) Hpos) as (y & Hy & HyN).
  assert (Hround : pair_same (length ls) ls s0
            = (Raise IndexError,
               mk (base s) [y] [] (mkRng (tape (rng s)) (Datatypes.S (pos (rng s)))))).
  { unfold pair_same. run_step. rewrite Hy.
    destruct (list_remove_total y
                (where_ (length ls) (fun i => bool_decide (ls !! i = ls !! y))))
      as (p & Hp & _).
    { apply where_In. split; [exact HyN | apply bool_decide_eq_true; reflexivity]. }
    pose proof (list_remove_NoDup _ _ _ (where_NoDup _ _) Hp) as Hny.
    assert (Hnil : p = []).
    { destruct p as [|j p]; [reflexivity|]. exfalso.
      assert (Hj : In j (j :: p)) by (left; reflexivity).
      pose proof (list_remove_In _ _ _ _ Hp Hj) as Hw.
      apply where_In in Hw as [HjN Hmask]. apply bool_decide_eq_true in Hmask.
      destruct (lookup_lt_is_Some_2 ls j HjN) as [l Hl].
      rewrite Hl in Hmask. symmetry in Hmask.
      pose proof (NoDup_lookup _ _ _ _ Hnd Hl Hmask) as ->.
      exact (Hny Hj). }
    rewrite Hp, Hnil. reflexivity. }
  rewrite repeat_S in Hstart.
  erewrite bind_Raise in Hstart; cycle 1.
  { erewrite bind_Raise; [reflexivity | exact Hround]. }
  unfold _pair. rewrite (bind_Raise _ _ _ _ _ Hstart).
  exists y. eexists. split; [reflexivity|]. cbn [base _idx_A _idx_B]. auto.
Qed.

(** X18: on a batch of two or more items that all carry the same label,
    the first loop makes all its pairs and the first round of the second
    loop finds no partner with a different label: [choice] raises
    [IndexError], whatever the random draws, and the lists are left with
    unequal lengths, [idx_A] one longer than [idx_B]. *)
Theorem pair_fails_on_equal_labels (s : PairedBatch.t) (ls : list label_val) :
  labels s = (Ok ls, s) ->
  (forall i j, (i < length ls)%nat -> (j < length ls)%nat -> ls !! i = ls !! j) ->
  (2 <= length ls)%nat ->
  2 <= LabelBatch._batch_size (base s) ->
  exists s',
    _pair s = (Raise IndexError, s') /\
    Z.of_nat (length (_idx_A s')) = LabelBatch._batch_size (base s) / 2 + 1 /\
    Z.of_nat (length (_idx_B s')) = LabelBatch._batch_size (base s) / 2 /\
    base s' = base s.
Proof.
  intros Hls Hall HN Hbs.
  assert (Hhalf : exists k, Z.to_nat (LabelBatch._batch_size (base s) / 2) = Datatypes.S k).
  { assert (1 <= LabelBatch._batch_size (base s) / 2)
      by (apply Z.div_le_lower_bound; lia).
    exists (Nat.pred (Z.to_nat (LabelBatch._batch_size (base s) / 2))). lia. }
  destruct Hhalf as [k Hk].
  pose proof (pair_loops_start _ _ Hls) as Hstart.
  set (s0 := mk (base s) [] [] (rng s)) in *.
  set (half := Z.to_nat (LabelBatch._batch_size (base s) / 2)) in *.
  destruct (repeat_total (fun _ => True) (pair_same (length ls) ls))
    with (k := half) (s := s0) as (s1 & H1 & _); [|exact I|].
  { intros t _. destruct (pair_same_total (length ls) ls t) as (t' & Ht'); [lia| |].
    - intros i Hi. destruct i as [|i].
      + exists 1%nat. split; [lia|]. split; [lia|]. apply Hall; lia.
      + exists 0%nat. split; [lia|]. split; [lia|]. apply Hall; lia.
    - exists t'. auto. }
  pose proof H1 as Happ.
  apply (repeat_appended (fun _ _ => True)) in Happ.
  2:{ intros t t' Ht. destruct (pair_same_Ok_inv _ _ _ _ Ht) as (y & c & ? & _).
      exists y, c. auto. }
  destruct Happ as (ys & cs & (Hb1 & Ha1 & Hc1) & Hlen & HF).
  apply Forall2_length in HF. cbn [base _idx_A _idx_B s0 app] in Hb1, Ha1, Hc1.
  destruct (randint_spec (length ls) (rng s1) ltac:(lia)) as (y & Hy & HyN).
  assert (Hround : pair_diff (length ls) ls s1
            = (Raise IndexError,
               mk (base s1) (_idx_A s1 ++ [y]) (_idx_B s1)
                  (mkRng (tape (rng s1)) (Datatypes.S (pos (rng s1)))))).
  { unfold pair_diff. run_step. rewrite Hy.
    assert (Hnil : where_ (length ls)
                     (fun i => negb (bool_decide (ls !! i = ls !! y))) = []).
    { destruct (where_ _ _) as [|j p] eqn:Hw; [reflexivity|]. exfalso.
      assert (Hj : In j (where_ (length ls)
                          (fun i => negb (bool_decide (ls !! i = ls !! y)))))
        by (rewrite Hw; left; reflexivity).
      apply where_In in Hj as [HjN Hmask].
      apply negb_true_iff, bool_decide_eq_false in Hmask.
      apply Hmask, Hall; assumption. }
    rewrite Hnil. reflexivity. }
  rewrite (bind_Ok _ _ _ _ _ H1), Hk, repeat_S in Hstart.
  rewrite (bind_Raise _ _ _ _ _ Hround) in Hstart.
  unfold _pair. rewrite (bind_Raise _ _ _ _ _ Hstart).
  eexists. split; [reflexivity|]. cbn [base _idx_A _idx_B].
  rewrite Ha1, Hc1, length_app, <- HF, Hlen. cbn [length].
  assert (0 <= LabelBatch._batch_size (base s) / 2) by (apply Z.div_pos; lia).
  unfold half. repeat split; try lia. exact Hb1.
Qed.

(** X19: the pairing pass on the edges.  With [batch_size] below 2 (the
    negative ones included) neither loop runs: the pass returns two
    empty lists when every item has the label key.  When some item has
    no label under the key, it raises [KeyError] with both lists reset
    to empty.  On an empty batch with [batch_size] of 2 or more it
    raises [ValueError], from [randint(0)]. *)
Theorem pair_edge_cases (s : PairedBatch.t) :
  (forall ls, labels s = (Ok ls, s) ->
     LabelBatch._batch_size (base s) < 2 ->
     _pair s = (Ok tt, mk (base s) [] [] (rng s))) /\
  (forall e, fst (labels s) = Raise e ->
     _pair s = (Raise KeyError, mk (base s) [] [] (rng s))) /\
  (LabelBatch.items (base s) = [] ->
     2 <= LabelBatch._batch_size (base s) ->
     _pair s = (Raise ValueError, mk (base s) [] [] (rng s))).
Proof.
  split; [|split].
  - intros ls Hls Hbs. pose proof (pair_loops_start _ _ Hls) as Hstart.
    assert (Hz : Z.to_nat (LabelBatch._batch_size (base s) / 2) = 0%nat).
    { assert (LabelBatch._batch_size (base s) / 2 <= 0); [|lia].
      assert (LabelBatch._batch_size (base s) / 2 < 1); [|lia].
      apply Z.div_lt_upper_bound; lia. }
    rewrite Hz in Hstart. unfold _pair.
    change ((repeat_ 0 (pair_same (length ls) ls);;
             repeat_ 0 (pair_diff (length ls) ls))%py (mk (base s) [] [] (rng s)))
      with (Ok tt, mk (base s) [] [] (rng s)) in Hstart.
    rewrite (bind_Ok _ _ _ _ _ Hstart). reflexivity.
  - intros e He. rewrite labels_unfold in He. cbn [fst] in He.
    assert (Hk : LabelBatch.labels_of (LabelBatch._label_key (base s))
                   (LabelBatch.items (base s)) = Raise KeyError).
    { destruct (labels_of_Raise _ _ _ He) as [-> _]. exact He. }
    unfold _pair, _pair_loops.
    erewrite bind_Raise; [reflexivity|].
    rewrite (bind_Ok _ _ s tt (mk (base s) [] [] (rng s))) by reflexivity.
    rewrite (bind_Ok _ _ _ (length (LabelBatch.items (base s)))
               (mk (base s) [] [] (rng s))) by reflexivity.
    erewrite bind_Raise; [reflexivity|].
    rewrite labels_unfold. cbn [base]. rewrite Hk. reflexivity.
  - intros Hempty Hbs.
    assert (Hls : labels s = (Ok [], s)).
    { rewrite labels_unfold, Hempty. reflexivity. }
    assert (Hhalf : exists k, Z.to_nat (LabelBatch._batch_size (base s) / 2) = Datatypes.S k).
    { assert (1 <= LabelBatch._batch_size (base s) / 2)
        by (apply Z.div_le_lower_bound; lia).
      exists (Nat.pred (Z.to_nat (LabelBatch._batch_size (base s) / 2))). lia. }
    destruct Hhalf as [k Hk].
    pose proof (pair_loops_start _ _ Hls) as Hstart. rewrite Hk in Hstart.
    unfold _pair. erewrite bind_Raise; [reflexivity|].
    rewrite Hstart. destruct s as [b a c [tp ps]]. reflexivity.
Qed.

(** X20: a [refresh()] of the paired batch that the source cannot serve
    raises [StopIteration] before the pairing pass starts: the index
    lists of the previous pairing stay as they were, while the batch
    they refer to has been emptied and holds fewer than [batch_size]
    items. *)
Theorem paired_refresh_failure (s : PairedBatch.t) :
  let n := Z.to_nat (LabelBatch._batch_size (base s)) in
  supplies (LabelBatch.source (base s)) n = false ->
  exists s',
    refresh s = (Raise StopIteration, s') /\
    _idx_A s' = _idx_A s /\ _idx_B s' = _idx_B s /\
    (length (LabelBatch.items (base s')) < n)%nat.
Proof.
  intros n Hs.
  assert (Hb : exists b', LabelBatch.refresh (base s) = (Raise StopIteration, b') /\
                 (length (LabelBatch.items b') < n)%nat).
  { unfold LabelBatch.refresh.
    rewrite (bind_Ok _ _ (base s) tt (LabelBatch.set_items [] (base s))) by reflexivity.
    rewrite (bind_Ok _ _ (LabelBatch.set_items [] (base s))
               (LabelBatch._batch_size (base s))
               (LabelBatch.set_items [] (base s))) by reflexivity.
    destruct (batch_load_run (LabelBatch.set_items [] (base s))
                (LabelBatch._batch_size (base s))) as (b' & Hl & Hi & _).
    cbn [LabelBatch.source LabelBatch.items LabelBatch.set_items] in Hl, Hi.
    fold n in Hl, Hi. rewrite Hs in Hl.
    exists b'. split; [exact Hl|]. rewrite Hi.
    pose proof (length_od_of_list_le (pulled (LabelBatch.source (base s)) n) []) as Hle.
    cbn [length] in Hle.
    pose proof (pulled_short n (LabelBatch.source (base s)) Hs). lia. }
  destruct Hb as (b' & Hb & Hlen).
  unfold refresh. erewrite bind_Raise; cycle 1.
  { unfold zoom. rewrite Hb. reflexivity. }
  eexists. split; [reflexivity|]. cbn [_idx_A _idx_B base set_base]. auto.
Qed.

End PairingFacts.

(** * Further properties on the concrete collaborators *)

Section FurtherChecks.
Import Scenario.
#[local] Existing Instance collaborators.

(** Two items added to a new file, the second under a path-like key,
    the keys read in between. *)
Definition ops_ab : list op :=
  [Add "a" (sample "a" [1] "x") false; Keys; Add "g/b" (sample "g/b" [2] "y") false].

(** A file of three Sample items labelled [x], [y], [x]. *)
Definition file_xyx : File.t :=
  File.mk [("a", H5Dataset (sample "a" [1] "x"));
           ("b", H5Dataset (sample "b" [2] "y"));
           ("c", H5Dataset (sample "c" [3] "x"))] [] ∅ None.

(** An item whose type is neither Sample nor Sequence. *)
Definition chart : Dataset :=
  mkDataset "z" (NdNum [0]) {["type" := AStr "Chart"]}.

Definition file_with_chart : File.t :=
  File.mk [("a", H5Dataset (sample "a" [1] "x")); ("z", H5Dataset chart)] [] ∅ None.

(** The file that holds [a] alone. *)
Definition file_a : File.t :=
  snd (File.add "a" (sample "a" [1] "x") false File.empty).

(** A file with the group [g] of two items, and the item [h]. *)
Definition file_g : File.t :=
  run_ops [Add "g/a" (sample "g/a" [1] "x") false;
           Add "h" (sample "h" [3] "x") false;
           Add "g/b" (sample "g/b" [2] "y") false] File.empty.

(** A cache that holds both items of [source_ab]. *)
Definition cache_ab : Cache.t := snd (Cache.new source_ab 2 (1 # 4) rng0).

(** A cache that holds [a], with [b] next in the source. *)
Definition cache_a : Cache.t := snd (Cache.new source_ab 1 (1 # 4) rng0).

(** Paired batches of two: labels [x], [y]; labels [x], [x]; and one over
    a source of a single item, with the indices of an earlier pairing. *)
Definition paired_xy : PairedBatch.t :=
  PairedBatch.mk
    (LabelBatch.mk [("a", sample "a" [1] "x"); ("c", sample "c" [3] "y")]
                   source_xxyy 2 "chord" [1]) [] [] rng0.

Definition paired_xx : PairedBatch.t :=
  PairedBatch.mk
    (LabelBatch.mk [("a", sample "a" [1] "x"); ("b", sample "b" [2] "x")]
                   source_xxyy 2 "chord" [1]) [] [] rng0.

Definition paired_dry : PairedBatch.t :=
  PairedBatch.mk (LabelBatch.__init__ source_a 2 "chord" [1]) [0%nat] [1%nat] rng0.

Ltac single_label :=
  split; [reflexivity|]; split; [vm_compute; reflexivity|];
  split; vm_compute; reflexivity.

Lemma ops_ab_storable : Forall storable ops_ab.
Proof.
  constructor; [split; vm_compute; reflexivity|].
  constructor; [exact I|].
  constructor; [split; vm_compute; reflexivity | constructor].
Qed.


(** X2 on [ops_ab], followed by four reads. *)
Lemma reads_are_stable_witness :
  let f := run_ops ops_ab File.empty in
  let f' := run_ops [Keys; LabelEnum; IndexTable; Keys] f in
  fst (File.keys f') = fst (File.keys f) /\
  fst (File.label_enum f') = fst (File.label_enum f) /\
  fst (File.index_table f') = fst (File.index_table f) /\
  item_links f' = item_links f.
Proof.
  apply (reads_are_stable (HR := scenario_reserved) ops_ab
           [Keys; LabelEnum; IndexTable; Keys]).
  - exact ops_ab_storable.
  - reflexivity.
Defined.


(** X4 on [file_xyx]: [y] is met after [x] alone and gets the code 1. *)
Lemma codes_in_first_seen_order_witness :
  exists e, fst (File.label_enum file_xyx) = Ok e /\
            e !! "y" = Some (Z.of_nat (size (list_to_set ["x"] : gset string))).
Proof.
  apply (codes_in_first_seen_order (HR := scenario_reserved) file_xyx
           ["x"; "y"; "x"] ["x"] ["x"] "y").
  - constructor; [exists (sample "a" [1] "x"), "chord"; single_label|].
    constructor; [exists (sample "b" [2] "y"), "chord"; single_label|].
    constructor; [exists (sample "c" [3] "x"), "chord"; single_label|].
    constructor.
  - reflexivity.
  - intros [Hc|[]]. discriminate.
Defined.

(** X5: a second [add] under [a], and an [add] under the empty key. *)
Lemma add_never_overwrites_witness :
  (exists f', File.add "a" (sample "a" [2] "y") true file_a = (Raise RuntimeError, f') /\
              assoc (cleanse "a") (File.disk f') = assoc (cleanse "a") (File.disk file_a) /\
              tables_absent f') /\
  File.add "" (sample "a" [2] "y") true file_a = (Raise AssertionError, file_a).
Proof.
  split.
  - apply (proj1 (add_never_overwrites (HR := scenario_reserved) file_a "a"
                    (sample "a" [2] "y") true)); reflexivity.
  - apply (proj2 (add_never_overwrites (HR := scenario_reserved) file_a ""
                    (sample "a" [2] "y") true)); reflexivity.
Defined.

(** X6: [g/b] added to the file that holds [a], then removed: the
    group [g] stays. *)
Lemma add_then_remove_witness :
  (exists f1 f2,
     File.add "g/b" (sample "g/b" [2] "y") false file_a = (Ok tt, f1) /\
     File.remove (cleanse "g/b") f1 = (Ok tt, f2) /\
     File.disk f2 = File.with_groups (ancestors (cleanse "g/b")) (item_links file_a) /\
     (ancestors (cleanse "g/b") = [] -> File.disk f2 = item_links file_a) /\
     File.get (cleanse "g/b") f2 = (Raise AssertionError, f2)) /\
  map fst (File.with_groups (ancestors (cleanse "g/b")) (item_links file_a)) = ["a"; "g"].
Proof.
  split; [|vm_compute; reflexivity].
  apply (add_then_remove (HR := scenario_reserved) file_a "g/b"
           (sample "g/b" [2] "y") false).
  - reflexivity.
  - reflexivity.
  - intros n Hn. apply mem_true_iff in Hn. vm_compute in Hn.
    destruct Hn as [<-|[]]. reflexivity.
  - intros p ds Hp. vm_compute in Hp. destruct Hp as [<-|[]].
    vm_compute. discriminate.
  - vm_compute. reflexivity.
Defined.


(** X8 on a file whose second item is a chart. *)
Lemma create_tables_unknown_kind_witness :
  (exists f', File.create_tables true file_with_chart = (Raise ValueError, f') /\
              File.disk f' = File.disk file_with_chart /\
              File._keys f'
              = manifest_of [("a", H5Dataset (sample "a" [1] "x"))] ++ [cleanse "z"]) /\
  fst (File.keys file_with_chart) = Raise ValueError /\
  fst (File.label_enum file_with_chart) = Raise ValueError /\
  fst (File.index_table file_with_chart) = Raise ValueError.
Proof.
  apply (create_tables_unknown_kind file_with_chart true
           [("a", H5Dataset (sample "a" [1] "x"))] [] "z" chart);
    vm_compute; reflexivity.
Defined.

(** X10: a cache of two over a source of two. *)
Lemma constructor_loads_min_witness :
  Cache.resident cache_ab = dict_update ∅ (pulled source_ab 2) /\
  (size (Cache.resident cache_ab) <= 2)%nat /\
  cursor (Cache.source cache_ab) = 2%nat /\
  Cache._refresh_prob cache_ab = (1 # 4)%Q /\
  Cache._label_enum cache_ab = ∅ /\ Cache._index_table cache_ab = [].
Proof.
  destruct (constructor_loads_min source_ab 2 (1 # 4) rng0) as (c & Hc & Hres).
  assert (Hab : cache_ab = c).
  { unfold cache_ab. rewrite Hc. reflexivity. }
  rewrite Hab. apply Hres. reflexivity.
Defined.

(** X11: [cache_a] holds [a] alone, and [b] is next in the source. *)
Lemma refresh_rand_swaps_witness :
  exists key c',
    Cache.refresh_rand (Some 1%Q) cache_a = (Ok tt, c') /\
    is_Some (Cache.resident cache_a !! key) /\
    Cache.resident c'
    = <["b" := sample "b" [2] "y"]> (delete key (Cache.resident cache_a)) /\
    Cache.source c' = bump (Cache.source cache_a) /\
    (size (Cache.resident c') <= size (Cache.resident cache_a))%nat /\
    (Cache.resident cache_a !! "b" = None ->
     size (Cache.resident c') = size (Cache.resident cache_a)).
Proof.
  apply (proj1 (refresh_rand_swaps cache_a) ("b", sample "b" [2] "y")).
  - intros He. apply (f_equal (fun m => m !! "a")) in He.
    vm_compute in He. discriminate.
  - reflexivity.
Defined.

(** X12: [a] removed from the cache that holds [a] and [b]. *)
Lemma remove_rebuilds_tables_witness :
  let occs := resident_occs (delete "a" (Cache.resident cache_ab)) in
  let e := enum_of ∅ (map occ_label occs) in
  exists c1 c2 c3,
    Cache.remove "a" cache_ab = (Ok tt, c1) /\
    Cache.resident c1 !! "a" = None /\
    Cache.label_enum c1 = (Ok e, c2) /\
    Cache.index_table c1 = (Ok (rows_of e occs), c3) /\
    length (rows_of e occs) = length occs /\
    Cache.resident c2 = delete "a" (Cache.resident cache_ab) /\
    Cache.resident c3 = delete "a" (Cache.resident cache_ab) /\
    Cache.source c2 = Cache.source cache_ab /\
    Cache.source c3 = Cache.source cache_ab.
Proof.
  apply (remove_rebuilds_tables cache_ab "a").
  - vm_compute. eauto.
  - vm_compute. reflexivity.
Defined.

(** X13: two loads from a source that yields [a] twice. *)
Lemma batch_load_appends_witness :
  let b := LabelBatch.__init__ source_aa 2 "chord" [1] in
  let kvs := pulled (LabelBatch.source b) (Z.to_nat 2) in
  exists b' tail,
    LabelBatch.load 2 b
    = (if supplies (LabelBatch.source b) (Z.to_nat 2) then Ok tt
       else Raise StopIteration, b') /\
    map fst (LabelBatch.items b') = map fst (LabelBatch.items b) ++ tail /\
    NoDup (map fst (LabelBatch.items b')) /\
    (forall k, In k tail -> In k (map fst kvs)) /\
    (forall k, assoc k (LabelBatch.items b')
               = match assoc k (rev kvs) with
                 | Some v => Some v
                 | None => assoc k (LabelBatch.items b)
                 end).
Proof.
  intros b. apply (batch_load_appends b 2). constructor.
Defined.

(** X14: a batch of two over a source of one item. *)
Lemma refresh_failure_keeps_partial_witness :
  let b := LabelBatch.__init__ source_a 2 "chord" [1] in
  exists b',
    LabelBatch.refresh b = (Raise StopIteration, b') /\
    LabelBatch.items b' = od_of_list [] (pulled (LabelBatch.source b) 2) /\
    (length (LabelBatch.items b') < 2)%nat /\
    (forall k, mem k (LabelBatch.items b') = true ->
               In k (map fst (pulled (LabelBatch.source b) 2))).
Proof.
  intros b. apply (refresh_failure_keeps_partial b). reflexivity.
Defined.

(** X16 on the batch of five. *)
Lemma pair_never_self_witness :
  PairedBatch.base (snd (PairedBatch._pair paired_odd)) = PairedBatch.base paired_odd /\
  Forall2 (fun a b => (a < 4)%nat /\ (b < 4)%nat /\ a <> b)
          (PairedBatch._idx_A (snd (PairedBatch._pair paired_odd)))
          (PairedBatch._idx_B (snd (PairedBatch._pair paired_odd))).
Proof.
  apply (pair_never_self paired_odd (snd (PairedBatch._pair paired_odd))).
  vm_compute. reflexivity.
Defined.

(** X17 on the batch labelled [x], [y]. *)
Lemma pair_fails_on_distinct_labels_witness :
  exists y s',
    PairedBatch._pair paired_xy = (Raise IndexError, s') /\
    (y < 2)%nat /\
    PairedBatch._idx_A s' = [y] /\ PairedBatch._idx_B s' = [] /\
    PairedBatch.base s' = PairedBatch.base paired_xy.
Proof.
  apply (pair_fails_on_distinct_labels paired_xy [LOne "x"; LOne "y"]).
  - vm_compute. reflexivity.
  - apply NoDup_ListNoDup. repeat constructor; simpl; intuition discriminate.
  - discriminate.
  - vm_compute. discriminate.
Defined.

(** X18 on the batch labelled [x], [x]. *)
Lemma pair_fails_on_equal_labels_witness :
  exists s',
    PairedBatch._pair paired_xx = (Raise IndexError, s') /\
    Z.of_nat (length (PairedBatch._idx_A s')) = 2 / 2 + 1 /\
    Z.of_nat (length (PairedBatch._idx_B s')) = 2 / 2 /\
    PairedBatch.base s' = PairedBatch.base paired_xx.
Proof.
  apply (pair_fails_on_equal_labels paired_xx [LOne "x"; LOne "x"]).
  - vm_compute. reflexivity.
  - intros [|[|i]] [|[|j]] Hi Hj; simpl in Hi, Hj; try lia; reflexivity.
  - simpl. lia.
  - vm_compute. discriminate.
Defined.

(** X19: a batch size of one, an item with no label under the key, and
    an empty batch. *)
Lemma pair_edge_cases_witness :
  let small := PairedBatch.mk
                 (LabelBatch.mk [("a", sample "a" [1] "x")] source_a 1 "chord" [1])
                 [0%nat] [0%nat] rng0 in
  let nokey := PairedBatch.mk
                 (LabelBatch.mk [("a", sample "a" [1] "x")] source_a 2 "mode" [1])
                 [0%nat] [0%nat] rng0 in
  let empty := PairedBatch.mk (LabelBatch.__init__ source_a 2 "chord" [1])
                 [0%nat] [0%nat] rng0 in
  PairedBatch._pair small = (Ok tt, PairedBatch.mk (PairedBatch.base small) [] [] rng0) /\
  PairedBatch._pair nokey
  = (Raise KeyError, PairedBatch.mk (PairedBatch.base nokey) [] [] rng0) /\
  PairedBatch._pair empty
  = (Raise ValueError, PairedBatch.mk (PairedBatch.base empty) [] [] rng0).
Proof.
  intros small nokey empty. split; [|split].
  - apply (proj1 (pair_edge_cases small) [LOne "x"]).
    + vm_compute. reflexivity.
    + vm_compute. reflexivity.
  - apply (proj1 (proj2 (pair_edge_cases nokey)) KeyError). vm_compute. reflexivity.
  - apply (proj2 (proj2 (pair_edge_cases empty))).
    + reflexivity.
    + vm_compute. discriminate.
Defined.

(** X20 on [paired_dry]. *)
Lemma paired_refresh_failure_witness :
  exists s',
    PairedBatch.refresh paired_dry = (Raise StopIteration, s') /\
    PairedBatch._idx_A s' = [0%nat] /\ PairedBatch._idx_B s' = [1%nat] /\
    (length (LabelBatch.items (PairedBatch.base s')) < 2)%nat.
Proof.
  apply (paired_refresh_failure paired_dry). reflexivity.
Defined.

End FurtherChecks.
